(** * Batch NER prediction script: orchestration model

    A shallow embedding of [run_transformer_batch_prediction.py]: the
    string and path computations of the script, the module-level
    version check, [main] with its per-file loop and [try]/[except], the
    in-memory accumulator, and the formatting pass.  The model, the
    tokenizer, the data processor, the BIO writer and the format
    converter are external collaborators and appear as the fields of an
    interface record; the file system and the logger are part of the
    run state.

    In the file, the body of [if args.use_bio:] (lines 69 to 72) is not
    indented under it.  [Layout] records the indentation as it is;
    [try_body] and everything built on it reads the four lines as the
    body of the [if], which the [else:] of line 73 calls for. *)

From Stdlib Require Import ZArith Lia Ascii String List Bool DecimalString.
From stdpp Require Import base option gmap strings list fin_maps.

Local Open Scope string_scope.

(** ** Python [str] operations used by the script *)

Module Str.

Definition dot : ascii := "."%char.
Definition slash : ascii := "/"%char.

(** [s.split(sep)] for a one-character separator. *)
Fixpoint split (sep : ascii) (s : string) : list string :=
  match s with
  | EmptyString => [EmptyString]
  | String c r =>
      if Ascii.eqb c sep then EmptyString :: split sep r
      else match split sep r with
           | h :: t => String c h :: t
           | [] => [String c EmptyString]
           end
  end.

(** [sep.join(l)]. *)
Fixpoint join (sep : string) (l : list string) : string :=
  match l with
  | [] => EmptyString
  | [x] => x
  | x :: r => x ++ sep ++ join sep r
  end.

(** ["".join(l)]. *)
Definition concat (l : list string) : string := List.fold_right String.append EmptyString l.

(** [s.rfind(c)]; [None] stands for Python's [-1]. *)
Fixpoint rfind (c : ascii) (s : string) : option nat :=
  match s with
  | EmptyString => None
  | String a r =>
      match rfind c r with
      | Some i => Some (S i)
      | None => if Ascii.eqb a c then Some 0 else None
      end
  end.

(** [c in s]. *)
Fixpoint contains (c : ascii) (s : string) : bool :=
  match s with
  | EmptyString => false
  | String a r => Ascii.eqb a c || contains c r
  end.

(** [s.startswith(p)] and [s.endswith(p)]. *)
Definition startswith (p s : string) : bool := String.prefix p s.

Definition endswith (p s : string) : bool :=
  let n := String.length s in
  let m := String.length p in
  Nat.leb m n && String.eqb (String.substring (n - m) m s) p.

(** The slice [s[:i]]. *)
Definition take (i : nat) (s : string) : string := String.substring 0 i s.

(** Truth value of a string: the empty string is false. *)
Definition truthy (s : string) : bool :=
  match s with EmptyString => false | _ => true end.

End Str.

(** ** [pathlib.PurePosixPath] and [os.path.join] *)

Module Path.

(** A parsed path: its root ([""], ["/"] or ["//"]) and its components. *)
Record t := mk { root : string; parts : list string }.

(** [posixpath.splitroot]: one leading slash, or exactly two, is the root. *)
Definition splitroot (p : string) : string * string :=
  match p with
  | String c1 r1 =>
      if Ascii.eqb c1 Str.slash then
        match r1 with
        | String c2 r2 =>
            if Ascii.eqb c2 Str.slash then
              match r2 with
              | String c3 _ => if Ascii.eqb c3 Str.slash then ("/", r1) else ("//", r2)
              | EmptyString => ("//", r2)
              end
            else ("/", r1)
        | EmptyString => ("/", r1)
        end
      else ("", p)
  | EmptyString => ("", p)
  end.

Definition keep_part (x : string) : bool :=
  Str.truthy x && negb (String.eqb x ".").

(** [Path(s)]: empty and ["."] components are dropped. *)
Definition parse (s : string) : t :=
  let '(r, rel) := splitroot s in
  mk r (List.filter keep_part (Str.split Str.slash rel)).

(** [str(p)]. *)
Definition to_string (p : t) : string :=
  match root p, parts p with
  | EmptyString, [] => "."
  | r, l => r ++ Str.join "/" l
  end.

(** [p.name]: the final component, if any. *)
Definition name (p : t) : string := List.last (parts p) EmptyString.

(** [p.parent]: a path without components is its own parent. *)
Definition parent (p : t) : t := mk (root p) (List.removelast (parts p)).

(** The stem of a file name: the name without its last suffix.  A dot in
    first or last position does not start a suffix (pathlib up to
    Python 3.13). *)
Definition stem_of_name (n : string) : string :=
  match Str.rfind Str.dot n with
  | Some i =>
      if Nat.ltb 0 i && Nat.ltb i (String.length n - 1) then Str.take i n else n
  | None => n
  end.

(** [p.stem]. *)
Definition stem (p : t) : string := stem_of_name (name p).

(** [p / key] for a string [key]: an absolute [key] replaces [p]. *)
Definition joinpath (p : t) (key : string) : t :=
  let q := parse key in
  if Str.truthy (root q) then q else mk (root p) (parts p ++ parts q).

(** The child of [p] that a directory scan yields for the entry [n]. *)
Definition child (p : t) (n : string) : t := mk (root p) (parts p ++ [n]).

(** [os.path.join(a, b)]. *)
Definition os_path_join (a b : string) : string :=
  if Str.startswith "/" b then b
  else if negb (Str.truthy a) || Str.endswith "/" a then a ++ b
  else a ++ "/" ++ b.

End Path.

(** ** [packaging.version]: the order on release versions *)

Module Version.

Inductive pre_kind := Alpha | Beta | RC.

(** A parsed version: [epoch!release(a|b|rc)N.postN.devN]. *)
Record t := mk {
  epoch : N;
  release : list N;
  pre : option (pre_kind * N);
  post : option N;
  dev : option N
}.

(** A component of the comparison key, with the two infinities that
    stand for a missing pre-, post- or dev-release. *)
Inductive bound (A : Type) := NegInf | Fin (a : A) | PosInf.
Arguments NegInf {A}.
Arguments Fin {A} a.
Arguments PosInf {A}.

Definition compare_bound {A} (cmp : A -> A -> comparison) (x y : bound A) : comparison :=
  match x, y with
  | NegInf, NegInf => Eq
  | NegInf, _ => Lt
  | Fin _, NegInf => Gt
  | Fin a, Fin b => cmp a b
  | Fin _, PosInf => Lt
  | PosInf, PosInf => Eq
  | PosInf, _ => Gt
  end.

Definition lex (c1 c2 : comparison) : comparison :=
  match c1 with Eq => c2 | _ => c1 end.

(** Tuples of integers compare lexicographically, a proper prefix first. *)
Fixpoint compare_release (x y : list N) : comparison :=
  match x, y with
  | [], [] => Eq
  | [], _ :: _ => Lt
  | _ :: _, [] => Gt
  | a :: x', b :: y' => lex (N.compare a b) (compare_release x' y')
  end.

Fixpoint strip_leading_zeros (l : list N) : list N :=
  match l with
  | 0%N :: r => strip_leading_zeros r
  | _ => l
  end.

(** Trailing zeros of the release do not count: [3.0.0] equals [3]. *)
Definition strip_trailing_zeros (l : list N) : list N :=
  List.rev (strip_leading_zeros (List.rev l)).

Definition pre_rank (k : pre_kind) : N :=
  match k with Alpha => 0 | Beta => 1 | RC => 2 end.

Definition compare_pre (x y : pre_kind * N) : comparison :=
  lex (N.compare (pre_rank (fst x)) (pre_rank (fst y))) (N.compare (snd x) (snd y)).

(** The key's pre-release slot: a bare dev-release sorts before every
    pre-release, a version without pre-release after them. *)
Definition key_pre (v : t) : bound (pre_kind * N) :=
  match pre v, post v, dev v with
  | None, None, Some _ => NegInf
  | None, _, _ => PosInf
  | Some p, _, _ => Fin p
  end.

Definition key_post (v : t) : bound N :=
  match post v with None => NegInf | Some n => Fin n end.

Definition key_dev (v : t) : bound N :=
  match dev v with None => PosInf | Some n => Fin n end.

Definition compare (v w : t) : comparison :=
  lex (N.compare (epoch v) (epoch w))
   (lex (compare_release (strip_trailing_zeros (release v)) (strip_trailing_zeros (release w)))
     (lex (compare_bound compare_pre (key_pre v) (key_pre w))
       (lex (compare_bound N.compare (key_post v) (key_post w))
            (compare_bound N.compare (key_dev v) (key_dev w))))).

(** [v < w] and [v >= w]. *)
Definition lt (v w : t) : bool :=
  match compare v w with Lt => true | _ => false end.

Definition ge (v w : t) : bool :=
  match compare v w with Lt => false | _ => true end.

(** A final release [a.b.c]. *)
Definition final (l : list N) : t := mk 0 l None None None.

Definition show_N (n : N) : string := NilEmpty.string_of_uint (N.to_uint n).

Definition show_pre (p : pre_kind * N) : string :=
  (match fst p with Alpha => "a" | Beta => "b" | RC => "rc" end) ++ show_N (snd p).

(** [str(v)]. *)
Definition to_string (v : t) : string :=
  (if N.eqb (epoch v) 0 then "" else show_N (epoch v) ++ "!")
  ++ Str.join "." (List.map show_N (release v))
  ++ (match pre v with Some p => show_pre p | None => "" end)
  ++ (match post v with Some n => ".post" ++ show_N n | None => "" end)
  ++ (match dev v with Some n => ".dev" ++ show_N n | None => "" end).

End Version.

(** ** Exceptions and results *)

(** An [Exception] instance.  ([SystemExit] and [KeyboardInterrupt], which
    [except Exception] lets through, are signals from outside the
    processing steps and are not part of the model.) *)
Record exn := Exception { exn_type : string; exn_msg : string }.

Inductive result (A : Type) : Type :=
  | Ok (a : A)
  | Raise (e : exn).
Arguments Ok {A} a.
Arguments Raise {A} e.

(** ** The data of a run *)

(** One token of a sentence: text, offsets, tag. *)
Record token := Token { text : string; start : Z; stop : Z; tag : string }.

Definition sentence := list token.

(** The level of a logging call. *)
Inductive level := INFO | ERROR.

(** The values stored in the per-file dictionaries. *)
Inductive value :=
  | VNone
  | VSents (s : list sentence)
  | VText (t : string).

(** The arguments [main] passes to the format converter. *)
Record converter_call := ConverterCall {
  cc_text_dir : string;
  cc_input_bio_dir : string;
  cc_output_dir : Path.t;
  cc_formatter : Z;
  cc_do_copy_text : bool;
  cc_labeled_bio_tup_lst : gmap string (gmap string value);
  cc_use_bio : bool
}.

(** The attributes [argparser] creates. *)
Record Parsed := {
  model_type : string;
  pretrained_model : string;
  preprocessed_text_dir : string;
  raw_text_dir : string;
  data_has_offset_information : bool;
  output_dir : string;
  output_dir_brat : option string;
  do_lower_case : bool;
  eval_batch_size : Z;
  max_seq_length : Z;
  log_file : option string;
  log_lvl : string;
  do_format : Z;
  do_copy : bool;
  progress_bar : bool;
  use_bio : bool;
  gpu_nodes : option (list string)
}.

(** The types of the objects the external libraries hand out. *)
Record Externals := {
  Logger : Type;
  ModelClass : Type;
  Tokenizer : Type;
  Config : Type;
  Model : Type;
  Features : Type;
  Predictions : Type
}.

Section Script.

Context {X : Externals}.

(** The [args] namespace as [main] receives it: the parsed attributes,
    the logger and the device attached by the [__main__] block, and the
    attributes [main] attaches ([None] while an attribute is not set). *)
Record Namespace := {
  parsed : Parsed;
  logger : Logger X;
  device : string;
  label2idx : option (list (string * Z));
  idx2label : option (gmap Z string);
  tokenizer : option (Tokenizer X);
  config : option (Config X);
  use_crf : option bool;
  predict_output_file : option string
}.

(** [TransformerNerDataProcessor]: what the script sets on it. *)
Record Processor := {
  proc_logger : option (Logger X);
  proc_data_dir : option string;
  proc_has_offset : bool
}.

(** The external collaborators, each of which may raise.  A collaborator
    that is passed [args] reads it. *)
Record World := {
  (* common_io.json_load *)
  json_load : string -> result (list (string * Z));
  (* MODEL_CLASSES[args.model_type] and the two from_pretrained calls *)
  model_classes : string -> result (ModelClass X);
  tokenizer_from_pretrained : ModelClass X -> string -> bool -> result (Tokenizer X);
  config_from_pretrained : ModelClass X -> string -> bool -> result (Config X);
  (* config.use_crf *)
  config_use_crf : Config X -> result bool;
  (* task.load_model and model.to(device) *)
  load_model : Namespace -> string -> result (Model X);
  model_to : Model X -> string -> result (Model X);
  (* ner_data_processor.get_test_examples(file_name, use_bio) *)
  get_test_examples : Processor -> string -> bool -> result (list sentence);
  transformer_convert_data_to_features :
    Namespace -> list sentence -> list (string * Z) -> Tokenizer X -> Z -> result (Features X);
  (* task.predict(args, model, features) *)
  predict : Namespace -> Model X -> Features X -> result (Predictions X);
  (* the labelled sentences task._output_bio builds *)
  bio_sentences : list sentence -> Predictions X -> result (list sentence);
  (* open(path).read() and Path.mkdir *)
  read_text : Path.t -> result string;
  mkdir : Path.t -> result unit;
  (* output_format_converter.main *)
  format_converter : converter_call -> result unit;
  (* traceback.format_exc() while the exception is handled *)
  format_exc : exn -> string;
  (* TransformerNERLogger(log_file, log_lvl).get_logger() and torch.cuda *)
  make_logger : option string -> string -> result (Logger X);
  cuda_is_available : bool;
  cuda_device_count : N;
  cuda_current_device : N
}.

(** Everything a run can change. *)
Record State := {
  args : Namespace;
  labeled_bio_tup_lst : gmap string (gmap string value);
  files : gmap string string;
  dirs : gset string;
  log : list (level * string);
  converter_calls : list converter_call
}.

(** *** The state-and-error monad *)

Definition M (A : Type) : Type := State -> result A * State.

Definition ret {A} (a : A) : M A := fun s => (Ok a, s).

Definition bind {A B} (m : M A) (k : A -> M B) : M B :=
  fun s => match m s with
           | (Ok a, s') => k a s'
           | (Raise e, s') => (Raise e, s')
           end.

Definition lift {A} (r : result A) : M A := fun s => (r, s).

Definition get_args : M Namespace := fun s => (Ok (args s), s).

Definition modify (f : State -> State) : M unit := fun s => (Ok tt, f s).

(** [try: body except Exception as ex: handler(ex)].  What the body did
    before it raised stays done. *)
Definition try_except (body : M unit) (handler : exn -> M unit) : M unit :=
  fun s => match body s with
           | (Ok _, s') => (Ok tt, s')
           | (Raise e, s') => handler e s'
           end.

(** [for x in l: body(x)]. *)
Fixpoint for_each {A} (l : list A) (body : A -> M unit) : M unit :=
  match l with
  | [] => ret tt
  | x :: r => bind (body x) (fun _ => for_each r body)
  end.

End Script.

Arguments Namespace X : clear implicits.
Arguments Processor X : clear implicits.
Arguments World X : clear implicits.
Arguments State X : clear implicits.

Declare Scope script_scope.
Delimit Scope script_scope with script.
Notation "x <- m ;; k" := (bind m (fun x => k))
  (at level 100, m at next level, right associativity) : script_scope.
Notation "m ;; k" := (bind m (fun _ => k))
  (at level 100, right associativity) : script_scope.

(** ** The script *)

Section Main.

Context {X : Externals} (W : World X).

Local Open Scope script_scope.

(** *** Attribute assignments on [args] *)

Definition set_label2idx (v : list (string * Z)) (a : Namespace X) : Namespace X :=
  {| parsed := parsed a; logger := logger a; device := device a;
     label2idx := Some v; idx2label := idx2label a; tokenizer := tokenizer a;
     config := config a; use_crf := use_crf a;
     predict_output_file := predict_output_file a |}.

Definition set_idx2label (v : gmap Z string) (a : Namespace X) : Namespace X :=
  {| parsed := parsed a; logger := logger a; device := device a;
     label2idx := label2idx a; idx2label := Some v; tokenizer := tokenizer a;
     config := config a; use_crf := use_crf a;
     predict_output_file := predict_output_file a |}.

Definition set_tokenizer (v : Tokenizer X) (a : Namespace X) : Namespace X :=
  {| parsed := parsed a; logger := logger a; device := device a;
     label2idx := label2idx a; idx2label := idx2label a; tokenizer := Some v;
     config := config a; use_crf := use_crf a;
     predict_output_file := predict_output_file a |}.

Definition set_config (v : Config X) (a : Namespace X) : Namespace X :=
  {| parsed := parsed a; logger := logger a; device := device a;
     label2idx := label2idx a; idx2label := idx2label a; tokenizer := tokenizer a;
     config := Some v; use_crf := use_crf a;
     predict_output_file := predict_output_file a |}.

Definition set_use_crf (v : bool) (a : Namespace X) : Namespace X :=
  {| parsed := parsed a; logger := logger a; device := device a;
     label2idx := label2idx a; idx2label := idx2label a; tokenizer := tokenizer a;
     config := config a; use_crf := Some v;
     predict_output_file := predict_output_file a |}.

Definition set_predict_output_file (v : string) (a : Namespace X) : Namespace X :=
  {| parsed := parsed a; logger := logger a; device := device a;
     label2idx := label2idx a; idx2label := idx2label a; tokenizer := tokenizer a;
     config := config a; use_crf := use_crf a;
     predict_output_file := Some v |}.

(** *** Updates of the run state *)

Definition with_args (f : Namespace X -> Namespace X) (s : State X) : State X :=
  {| args := f (args s); labeled_bio_tup_lst := labeled_bio_tup_lst s;
     files := files s; dirs := dirs s; log := log s;
     converter_calls := converter_calls s |}.

Definition with_labeled (f : gmap string (gmap string value) -> gmap string (gmap string value))
    (s : State X) : State X :=
  {| args := args s; labeled_bio_tup_lst := f (labeled_bio_tup_lst s);
     files := files s; dirs := dirs s; log := log s;
     converter_calls := converter_calls s |}.

Definition with_file (path content : string) (s : State X) : State X :=
  {| args := args s; labeled_bio_tup_lst := labeled_bio_tup_lst s;
     files := <[path := content]> (files s); dirs := dirs s; log := log s;
     converter_calls := converter_calls s |}.

Definition with_dir (d : string) (s : State X) : State X :=
  {| args := args s; labeled_bio_tup_lst := labeled_bio_tup_lst s;
     files := files s; dirs := {[d]} ∪ dirs s; log := log s;
     converter_calls := converter_calls s |}.

Definition with_log (l : level) (msg : string) (s : State X) : State X :=
  {| args := args s; labeled_bio_tup_lst := labeled_bio_tup_lst s;
     files := files s; dirs := dirs s; log := log s ++ [(l, msg)];
     converter_calls := converter_calls s |}.

Definition with_call (c : converter_call) (s : State X) : State X :=
  {| args := args s; labeled_bio_tup_lst := labeled_bio_tup_lst s;
     files := files s; dirs := dirs s; log := log s;
     converter_calls := converter_calls s ++ [c] |}.

Definition setattr (f : Namespace X -> Namespace X) : M unit := modify (with_args f).

(** [args.logger.error(msg)]. *)
Definition logger_error (msg : string) : M unit := modify (with_log ERROR msg).

Definition logger_info (msg : string) : M unit := modify (with_log INFO msg).

(** [p.mkdir(parents=True, exist_ok=True)]. *)
Definition mkdir_p (p : Path.t) : M unit :=
  _ <- lift (mkdir W p) ;; modify (with_dir (Path.to_string p)).

(** [d[name][key] = v] on a [defaultdict(dict)]: a missing [d[name]]
    starts as the empty dictionary. *)
Definition setitem2 (name key : string) (v : value)
    (d : gmap string (gmap string value)) : gmap string (gmap string value) :=
  <[name := <[key := v]> (default ∅ (d !! name))]> d.

(** [{v: k for k, v in label2idx.items()}]: a later item wins. *)
Definition invert_labels (items : list (string * Z)) : gmap Z string :=
  List.fold_left (fun m kv => <[snd kv := fst kv]> m) items ∅.

(** *** Writing BIO *)

Definition bio_line (t : token) : string :=
  text t ++ String "009"%char (tag t) ++ String "010"%char "".

Definition bio_sentence_text (s : sentence) : string :=
  Str.concat (List.map bio_line s) ++ String "010"%char "".

(** Modelled from the spec: [common_io.output_bio], which the script does
    not define.  One line [text TAB tag] per token and an empty line
    after each sentence. *)
Definition bio_text (sents : list sentence) : string :=
  Str.concat (List.map bio_sentence_text sents).

(** Modelled from the spec: [task._output_bio], which the script does not
    define.  The labelled sentences are computed from the examples and
    the predictions; with [save_bio] they are written, whole, to
    [args.predict_output_file] and nothing is returned, without it they
    are returned and the disk is not touched. *)
Definition _output_bio (tests : list sentence) (preds : Predictions X)
    (save_bio : bool) : M value :=
  new_sents <- lift (bio_sentences W tests preds) ;;
  if save_bio then
    a <- get_args ;;
    match predict_output_file a with
    | Some path => modify (with_file path (bio_text new_sents)) ;; ret VNone
    | None => lift (Raise (Exception "AttributeError" "predict_output_file"))
    end
  else ret (VSents new_sents).

(** *** [main] *)

(** Lines 32 to 54: what [main] holds once the model is loaded. *)
Record Loaded := {
  ld_label2idx : list (string * Z);
  ld_tokenizer : Tokenizer X;
  ld_model : Model X;
  ld_processor : Processor X
}.

Definition load : M Loaded :=
  a <- get_args ;;
  label2idx <- lift (json_load W
    (Path.os_path_join (pretrained_model (parsed a)) "label2idx.json")) ;;
  let num_labels := List.length label2idx in
  let idx2label := invert_labels label2idx in
  setattr (set_label2idx label2idx) ;;
  setattr (set_idx2label idx2label) ;;
  cls <- lift (model_classes W (model_type (parsed a))) ;;
  tokenizer <- lift (tokenizer_from_pretrained W cls
    (pretrained_model (parsed a)) (do_lower_case (parsed a))) ;;
  setattr (set_tokenizer tokenizer) ;;
  config <- lift (config_from_pretrained W cls
    (pretrained_model (parsed a)) (do_lower_case (parsed a))) ;;
  setattr (set_config config) ;;
  crf <- lift (config_use_crf W config) ;;
  setattr (set_use_crf crf) ;;
  a' <- get_args ;;
  model <- lift (load_model W a' (pretrained_model (parsed a))) ;;
  model <- lift (model_to W model (device a)) ;;
  let ner_data_processor :=
    {| proc_logger := Some (logger a);
       proc_data_dir := Some (preprocessed_text_dir (parsed a));
       proc_has_offset := data_has_offset_information (parsed a) |} in
  ret {| ld_label2idx := label2idx; ld_tokenizer := tokenizer;
         ld_model := model; ld_processor := ner_data_processor |}.

(** [Path(d).glob("*.txt")] over the entries of the directory. *)
Definition glob_txt (entries : list string) : list string :=
  List.filter (Str.endswith ".txt") entries.

(** Line 70: [each_file.stem.split(".")[0] + ".bio.txt"]. *)
Definition ofn (each_file : Path.t) : string :=
  List.hd "" (Str.split Str.dot (Path.stem each_file)) ++ ".bio.txt".

(** Lines 60 to 76, the body of the [try], read with lines 69 to 72 as
    the body of [if args.use_bio:]. *)
Definition try_body (ld : Loaded) (each_file : Path.t) : M unit :=
  a <- get_args ;;
  test_example <- lift (get_test_examples W (ld_processor ld)
    (Path.name each_file) (use_bio (parsed a))) ;;
  test_features <- lift (transformer_convert_data_to_features W a test_example
    (ld_label2idx ld) (ld_tokenizer ld) (max_seq_length (parsed a))) ;;
  predictions <- lift (predict W a (ld_model ld) test_features) ;;
  if use_bio (parsed a) then
    mkdir_p (Path.parse (output_dir (parsed a))) ;;
    setattr (set_predict_output_file
      (Path.os_path_join (output_dir (parsed a)) (ofn each_file))) ;;
    _ <- _output_bio test_example predictions true ;;
    ret tt
  else
    sents <- _output_bio test_example predictions false ;;
    modify (with_labeled (setitem2 (Path.name each_file) "sents" sents)) ;;
    raw <- lift (read_text W each_file) ;;
    modify (with_labeled (setitem2 (Path.name each_file) "raw_text" (VText raw))).

(** Lines 77 to 79, the handler. *)
Definition except_body (each_file : Path.t) (ex : exn) : M unit :=
  logger_error ("Encountered an error when processing predictions for file: "
                ++ Path.name each_file) ;;
  logger_error (format_exc W ex).

Definition process_file (ld : Loaded) (each_file : Path.t) : M unit :=
  try_except (try_body ld each_file) (except_body each_file).

(** Line 82. *)
Definition output_formatted_dir (p : Parsed) : Path.t :=
  let derived :=
    Path.joinpath (Path.parent (Path.parse (output_dir p)))
      (Path.stem (Path.parse (output_dir p)) ++ "_formatted_output") in
  match output_dir_brat p with
  | Some b => if Str.truthy b then Path.parse b else derived
  | None => derived
  end.

(** The keyword arguments of lines 84 to 90. *)
Definition converter_call_of (p : Parsed) (out : Path.t)
    (labeled : gmap string (gmap string value)) : converter_call :=
  {| cc_text_dir := raw_text_dir p;
     cc_input_bio_dir := if use_bio p then output_dir p else raw_text_dir p;
     cc_output_dir := out;
     cc_formatter := do_format p;
     cc_do_copy_text := do_copy p;
     cc_labeled_bio_tup_lst := labeled;
     cc_use_bio := use_bio p |}.

(** Lines 81 to 90. *)
Definition format_pass : M unit :=
  a <- get_args ;;
  if Z.eqb (do_format (parsed a)) 0 then ret tt
  else
    let out := output_formatted_dir (parsed a) in
    mkdir_p out ;;
    fun s =>
      let c := converter_call_of (parsed a) out (labeled_bio_tup_lst s) in
      (format_converter W c, with_call c s).

(** The [for] loop of lines 57 to 79 over the directory's entries. *)
Definition loop (ld : Loaded) (entries : list string) : M unit :=
  a <- get_args ;;
  modify (with_labeled (fun _ => ∅)) ;;
  for_each
    (List.map (Path.child (Path.parse (preprocessed_text_dir (parsed a))))
              (glob_txt entries))
    (process_file ld).

Definition main (entries : list string) : M unit :=
  ld <- load ;;
  loop ld entries ;;
  format_pass.

(** *** The module body and the [__main__] block *)

Definition required_version : Version.t := Version.final [3%N; 0%N; 0%N].

Definition version_message (installed : Version.t) : string :=
  "we now only support transformers version >=3.0.0, but your version is "
  ++ Version.to_string installed.

Definition initial_namespace (p : Parsed) (lg : Logger X) (dev : string) : Namespace X :=
  {| parsed := p; logger := lg; device := dev;
     label2idx := None; idx2label := None; tokenizer := None;
     config := None; use_crf := None; predict_output_file := None |}.

Definition initial_state (a : Namespace X) : State X :=
  {| args := a; labeled_bio_tup_lst := ∅; files := ∅; dirs := ∅;
     log := []; converter_calls := [] |}.

(** Lines 136 to 147.  The state is [None] when the run ends before the
    namespace is complete. *)
Definition dunder_main (p : Parsed) (entries : list string)
    : result unit * option (State X) :=
  match make_logger W (log_file p) (log_lvl p) with
  | Raise e => (Raise e, None)
  | Ok lg =>
      let dev := if cuda_is_available W then "cuda" else "cpu" in
      let msg :=
        if N.eqb (cuda_device_count W) 0 then "Task will use CPU."
        else "Task will use cuda device: GPU_"
             ++ Version.show_N (cuda_current_device W) ++ "." in
      let '(r, s) := (logger_info msg ;; main entries)
                       (initial_state (initial_namespace p lg dev)) in
      (r, Some s)
  end.

(** Lines 26 to 28, then the [__main__] block: the module-level
    assertion on the installed version of [transformers] (assertions are
    on: the interpreter runs without [-O]). *)
Definition script (installed : Version.t) (p : Parsed) (entries : list string)
    : result unit * option (State X) :=
  if Version.ge installed required_version then dunder_main p entries
  else (Raise (Exception "AssertionError" (version_message installed)), None).

End Main.

(** ** The block layout of the loop, as the file has it *)

Module Layout.

(** A logical line: its number in the file, the width of its leading
    white space, and whether it ends in a colon that opens a block. *)
Record line := Line { lineno : nat; indent : nat; opens_block : bool }.

(** Lines 58 to 79 of the script.  Line 67 is blank and lines 62 to 65
    continue line 61 inside its parentheses; neither is a logical line. *)
Definition main_loop : list line :=
  [ Line 58 4 true;    (* for i, each_file in enumerate(...): *)
    Line 59 8 true;    (* try: *)
    Line 60 12 false;  (* test_example = ... *)
    Line 61 12 false;  (* test_features = ... *)
    Line 66 12 false;  (* predictions = ... *)
    Line 68 12 true;   (* if args.use_bio: *)
    Line 69 12 false;  (* Path(args.output_dir).mkdir(...) *)
    Line 70 12 false;  (* ofn = ... *)
    Line 71 12 false;  (* args.predict_output_file = ... *)
    Line 72 12 false;  (* _output_bio(args, test_example, predictions) *)
    Line 73 12 true;   (* else: *)
    Line 74 16 false;  (* labeled_bio_tup_lst[...]['sents'] = ... *)
    Line 75 16 true;   (* with open(each_file, "r") as f: *)
    Line 76 20 false;  (* labeled_bio_tup_lst[...]['raw_text'] = f.read() *)
    Line 77 8 true;    (* except Exception as ex: *)
    Line 78 12 false;  (* args.logger.error(...) *)
    Line 79 12 false ].  (* args.logger.error(traceback.format_exc()) *)

(** The same lines with lines 69 to 72 moved one level in. *)
Definition main_loop_reindented : list line :=
  List.map (fun l =>
              if Nat.leb 69 (lineno l) && Nat.leb (lineno l) 72
              then Line (lineno l) (indent l + 4) (opens_block l) else l)
           main_loop.

(** Python's rule for a block: the logical line after a line that opens
    a block is indented deeper than it.  The result is the number of the
    first line that is not, if there is one. *)
Fixpoint expected_indented_block (ls : list line) : option nat :=
  match ls with
  | [] => None
  | l :: rest =>
      match rest with
      | [] => if opens_block l then Some (S (lineno l)) else None
      | l' :: _ =>
          if opens_block l && negb (Nat.ltb (indent l) (indent l'))
          then Some (lineno l')
          else expected_indented_block rest
      end
  end.

(** Whether the interpreter accepts the layout. *)
Definition compiles (ls : list line) : bool :=
  match expected_indented_block ls with None => true | Some _ => false end.

End Layout.

(** ** The BIO writer's realignment *)

Module Realign.

(** Modelled from the spec: the word-level realignment of [task._output_bio],
    which the script does not define.  A sentence's alignment gives, for
    each word, the position of its first sub-token in the prediction; the
    label predicted there is the word's label.  A position outside the
    prediction, or an index the vocabulary does not know, is an error. *)
Fixpoint word_labels (idx2label : gmap Z string) (alignment : list nat)
    (prediction : list Z) : option (list string) :=
  match alignment with
  | [] => Some []
  | m :: rest =>
      match prediction !! m with
      | None => None
      | Some i =>
          match idx2label !! i with
          | None => None
          | Some l =>
              match word_labels idx2label rest prediction with
              | None => None
              | Some ls => Some (l :: ls)
              end
          end
      end
  end.

Definition relabel (t : token) (l : string) : token :=
  {| text := text t; start := start t; stop := stop t; tag := l |}.

(** Modelled from the spec: one sentence of the writer.  There is one
    alignment marker per word. *)
Definition realign_sentence (idx2label : gmap Z string) (words : sentence)
    (alignment : list nat) (prediction : list Z) : option sentence :=
  if Nat.eqb (List.length alignment) (List.length words) then
    match word_labels idx2label alignment prediction with
    | Some ls => Some (List.map (fun wl => relabel (fst wl) (snd wl)) (List.combine words ls))
    | None => None
    end
  else None.

(** Modelled from the spec: a file is a list of sentences, with one
    aligned prediction per sentence. *)
Fixpoint realign (idx2label : gmap Z string) (examples : list sentence)
    (preds : list (list nat * list Z)) : option (list sentence) :=
  match examples, preds with
  | [], [] => Some []
  | ws :: es, (al, pr) :: ps =>
      match realign_sentence idx2label ws al pr with
      | None => None
      | Some s =>
          match realign idx2label es ps with
          | None => None
          | Some ss => Some (s :: ss)
          end
      end
  | _, _ => None
  end.


Definition newline : ascii := "010"%char.








(** Modelled from the spec: the tokenizer as the feature converter of
    [data_utils] uses it, which the script does not define.  A word is
    split into [pieces] sub-tokens; [lead] positions come before the
    first word and [tail] positions are kept for what follows the
    last. *)
Record tokenization := Tokenization {
  pieces : token -> nat;
  lead : nat;
  tail : nat
}.

(** Modelled from the spec: the alignment markers of a sentence (section
    4.2).  The marker of a word is the position of its first sub-token.
    A sequence longer than the maximum is truncated: a word whose first
    sub-token falls outside the [room] the maximum leaves has no marker,
    nor has any word after it. *)
Fixpoint markers_from (tk : tokenization) (room pos : nat) (ws : sentence) : list nat :=
  match ws with
  | [] => []
  | w :: rest =>
      if Nat.ltb pos room then pos :: markers_from tk room (pos + pieces tk w) rest
      else []
  end.

Definition markers (tk : tokenization) (max_seq_len : nat) (ws : sentence) : list nat :=
  markers_from tk (max_seq_len - tail tk) (lead tk) ws.

(** Modelled from the spec: what a Feature holds of a sentence for the
    writer, its alignment markers and its fixed length. *)
Record feature := Feature { f_markers : list nat; f_length : nat }.

Definition feature_of (tk : tokenization) (max_seq_len : nat) (ws : sentence) : feature :=
  {| f_markers := markers tk max_seq_len ws; f_length := max_seq_len |}.

(** No word of the sentence is cut off by the truncation: the first
    sub-token of its last word is inside the room. *)
Definition starts_inside (tk : tokenization) (max_seq_len : nat) (ws : sentence) : bool :=
  match ws with
  | [] => true
  | _ => Nat.ltb (lead tk + list_sum (List.map (pieces tk) (List.removelast ws)))
                 (max_seq_len - tail tk)
  end.



End Realign.

(** ** The contract of the components around the writer *)

Section Contract.

Context {X : Externals} (W : World X).

(** Modelled from the spec: what sections 3, 4.2, 4.3 and 4.4 say of the
    feature converter, the inference runner and the writer, none of
    which the script defines.  The converter makes one fixed-length
    Feature per sentence, of [max_seq_len] positions, with the markers of
    the words that truncation leaves; the runner returns one Prediction
    per sentence, aligned as the Feature is, as long as the Feature, and
    made of indices of the vocabulary; the writer realigns them, and
    fails where it cannot. *)
Record follows_spec (vocab : gmap Z string) (tk : Realign.tokenization)
    (features_view : Features X -> list Realign.feature)
    (predictions_view : Predictions X -> list (list nat * list Z)) : Prop := {
  spec_features : forall a examples l2i t max_seq_len ft,
    transformer_convert_data_to_features W a examples l2i t max_seq_len = Ok ft ->
    features_view ft = List.map (Realign.feature_of tk (Z.to_nat max_seq_len)) examples;
  spec_predict : forall a m ft pr,
    predict W a m ft = Ok pr ->
    List.Forall2
      (fun p f => fst p = Realign.f_markers f
                  /\ List.length (snd p) = Realign.f_length f
                  /\ List.Forall (fun i => is_Some (vocab !! i)) (snd p))
      (predictions_view pr) (features_view ft);
  spec_writer : forall tests pr,
    match Realign.realign vocab tests (predictions_view pr) with
    | Some sents => bio_sentences W tests pr = Ok sents
    | None => exists e, bio_sentences W tests pr = Raise e
    end
}.

End Contract.

(** ** The vocabulary of the properties *)

(** The part of a string before its first dot; the whole string when it
    has none. *)
Fixpoint before_first_dot (s : string) : string :=
  match s with
  | EmptyString => EmptyString
  | String c r => if Ascii.eqb c Str.dot then EmptyString else String c (before_first_dot r)
  end.

(** The path line 71 assigns for a file. *)
Definition bio_path {X : Externals} (a : Namespace X) (each_file : Path.t) : string :=
  Path.os_path_join (output_dir (parsed a)) (ofn each_file).

(** A dictionary entry that holds ['sents'] and nothing else. *)
Definition sents_only (sents : list sentence) : gmap string value :=
  {[ "sents" := VSents sents ]}.

(** The two records the handler writes for a file. *)
Definition failure_log {X : Externals} (W : World X) (each_file : Path.t) (ex : exn)
    : list (level * string) :=
  [ (ERROR, "Encountered an error when processing predictions for file: "
            ++ Path.name each_file);
    (ERROR, format_exc W ex) ].




(** A computation that leaves one component of the state as it was,
    whether it returns or raises. *)
Definition unchanged {X : Externals} {A B : Type} (proj : State X -> B) (m : M A) : Prop :=
  forall s, proj (snd (m s)) = proj s.

(** The attributes [main] receives with the namespace. *)
Definition received {X : Externals} (a : Namespace X) : Parsed * Logger X * string :=
  (parsed a, logger a, device a).

(** ** A small world to run the script in *)

Module Demo.

Definition X : Externals :=
  {| Logger := unit; ModelClass := unit; Tokenizer := unit; Config := unit;
     Model := unit; Features := list sentence;
     Predictions := list (list nat * list Z) |}.

Definition labels : list (string * Z) := [("O", 0%Z); ("B-PER", 1%Z); ("B-LOC", 2%Z)].

Definition word (t : string) (a b : Z) : token :=
  {| text := t; start := a; stop := b; tag := "O" |}.

Definition doc1 : list sentence :=
  [[word "John" 0 4; word "lives" 5 10; word "in" 11 13; word "Paris" 14 19]].

(** The examples of a file, by name; [bad.txt] is malformed. *)
Definition examples_of (name : string) : result (list sentence) :=
  if String.eqb name "bad.txt" then Raise (Exception "ValueError" "malformed line")
  else if String.eqb name "doc1.txt" then Ok doc1
  else if String.eqb name "doc.note.txt" then Ok [[word "Paris" 0 5]]
  else Ok [[word "John" 0 4]].

Definition label_id (t : token) : Z :=
  if String.eqb (text t) "John" then 1%Z
  else if String.eqb (text t) "Paris" then 2%Z else 0%Z.

(** One sub-token per word between two special positions. *)
Definition predict_sentence (ws : sentence) : list nat * list Z :=
  (List.seq 1 (List.length ws), 0%Z :: List.map label_id ws ++ [0%Z]).

Definition bio_sentences_of (tests : list sentence) (preds : list (list nat * list Z))
    : result (list sentence) :=
  match Realign.realign (invert_labels labels) tests preds with
  | Some s => Ok s
  | None => Raise (Exception "AssertionError" "Not same length sentence")
  end.

Definition text_of (p : Path.t) : result string :=
  if String.eqb (Path.name p) "unreadable.txt"
  then Raise (Exception "UnicodeDecodeError" "invalid start byte")
  else Ok "John lives in Paris".

Definition W : World X :=
  @Build_World X
    (* json_load *) (fun _ => Ok labels)
    (* model_classes *) (fun _ => Ok tt)
    (* tokenizer_from_pretrained *) (fun _ _ _ => Ok tt)
    (* config_from_pretrained *) (fun _ _ _ => Ok tt)
    (* config_use_crf *) (fun _ => Ok false)
    (* load_model *) (fun _ _ => Ok tt)
    (* model_to *) (fun m _ => Ok m)
    (* get_test_examples *) (fun _ name _ => examples_of name)
    (* transformer_convert_data_to_features *) (fun _ ex _ _ _ => Ok ex)
    (* predict *) (fun _ _ ft => Ok (List.map predict_sentence ft))
    (* bio_sentences *) bio_sentences_of
    (* read_text *) text_of
    (* mkdir *) (fun _ => Ok tt)
    (* format_converter *) (fun _ => Ok tt)
    (* format_exc *) (fun e => exn_type e ++ ": " ++ exn_msg e)
    (* make_logger *) (fun _ _ => Ok tt)
    (* cuda_is_available *) false
    (* cuda_device_count *) 0%N
    (* cuda_current_device *) 0%N.

Definition parsed_args (bio : bool) (fmt : Z) (brat : option string) : Parsed :=
  {| model_type := "bert"; pretrained_model := "model";
     preprocessed_text_dir := "in"; raw_text_dir := "raw";
     data_has_offset_information := true; output_dir := "out/bio";
     output_dir_brat := brat; do_lower_case := false;
     eval_batch_size := 8%Z; max_seq_length := 128%Z;
     log_file := None; log_lvl := "i"; do_format := fmt; do_copy := false;
     progress_bar := false; use_bio := bio; gpu_nodes := None |}.

Definition start (bio : bool) (fmt : Z) (brat : option string) : State X :=
  initial_state (@initial_namespace X (parsed_args bio fmt brat) tt "cpu").

Definition loaded : @Loaded X :=
  @Build_Loaded X labels tt tt (@Build_Processor X (Some tt) (Some "in") true).

End Demo.

(** A world whose feature converter, inference runner and writer follow
    the contract: one sub-token per word between two special positions,
    Features of [max_seq_length] positions. *)
Module Truncating.

Definition X : Externals :=
  {| Logger := unit; ModelClass := unit; Tokenizer := unit; Config := unit;
     Model := unit; Features := list (sentence * Realign.feature);
     Predictions := list (list nat * list Z) |}.

Definition tk : Realign.tokenization :=
  {| Realign.pieces := fun _ => 1; Realign.lead := 1; Realign.tail := 1 |}.

Definition vocab : gmap Z string := invert_labels Demo.labels.

(** The indices predicted for the positions of a Feature. *)
Definition predict_feature (wf : sentence * Realign.feature) : list nat * list Z :=
  (Realign.f_markers (snd wf),
   List.firstn (Realign.f_length (snd wf))
     (0%Z :: List.map Demo.label_id (fst wf)
      ++ List.repeat 0%Z (Realign.f_length (snd wf)))%list).

Definition bio_sentences_of (tests : list sentence) (preds : list (list nat * list Z))
    : result (list sentence) :=
  match Realign.realign vocab tests preds with
  | Some s => Ok s
  | None => Raise (Exception "AssertionError" "sentence and prediction differ in length")
  end.

Definition W : World X :=
  @Build_World X
    (* json_load *) (fun _ => Ok Demo.labels)
    (* model_classes *) (fun _ => Ok tt)
    (* tokenizer_from_pretrained *) (fun _ _ _ => Ok tt)
    (* config_from_pretrained *) (fun _ _ _ => Ok tt)
    (* config_use_crf *) (fun _ => Ok false)
    (* load_model *) (fun _ _ => Ok tt)
    (* model_to *) (fun m _ => Ok m)
    (* get_test_examples *) (fun _ name _ => Demo.examples_of name)
    (* transformer_convert_data_to_features *)
      (fun _ ex _ _ m =>
         Ok (List.map (fun ws => (ws, Realign.feature_of tk (Z.to_nat m) ws)) ex))
    (* predict *) (fun _ _ ft => Ok (List.map predict_feature ft))
    (* bio_sentences *) bio_sentences_of
    (* read_text *) Demo.text_of
    (* mkdir *) (fun _ => Ok tt)
    (* format_converter *) (fun _ => Ok tt)
    (* format_exc *) (fun e => exn_type e ++ ": " ++ exn_msg e)
    (* make_logger *) (fun _ _ => Ok tt)
    (* cuda_is_available *) false
    (* cuda_device_count *) 0%N
    (* cuda_current_device *) 0%N.

Definition features_view (ft : list (sentence * Realign.feature)) : list Realign.feature :=
  List.map snd ft.

Definition predictions_view (pr : list (list nat * list Z)) : list (list nat * list Z) := pr.

(** A run with [max_seq_length] set to [m]. *)
Definition start (bio : bool) (m : Z) : State X :=
  initial_state
    (@initial_namespace X
       {| model_type := "bert"; pretrained_model := "model";
          preprocessed_text_dir := "in"; raw_text_dir := "raw";
          data_has_offset_information := true; output_dir := "out/bio";
          output_dir_brat := None; do_lower_case := false;
          eval_batch_size := 8%Z; max_seq_length := m;
          log_file := None; log_lvl := "i"; do_format := 0%Z; do_copy := false;
          progress_bar := false; use_bio := bio; gpu_nodes := None |}
       tt "cpu").

Definition loaded : @Loaded X :=
  @Build_Loaded X Demo.labels tt tt (@Build_Processor X (Some tt) (Some "in") true).

End Truncating.


(** ** Worlds in which a collaborator fails *)

Module Broken.

(** [label2idx.json] is missing. *)
Definition no_labels : World Demo.X :=
  @Build_World Demo.X
    (fun _ => Raise (Exception "FileNotFoundError" "model/label2idx.json"))
    (model_classes Demo.W) (tokenizer_from_pretrained Demo.W)
    (config_from_pretrained Demo.W) (config_use_crf Demo.W) (load_model Demo.W)
    (model_to Demo.W) (get_test_examples Demo.W)
    (transformer_convert_data_to_features Demo.W) (predict Demo.W)
    (bio_sentences Demo.W) (read_text Demo.W) (mkdir Demo.W)
    (format_converter Demo.W) (format_exc Demo.W) (make_logger Demo.W)
    (cuda_is_available Demo.W) (cuda_device_count Demo.W) (cuda_current_device Demo.W).

(** No directory can be made. *)
Definition no_mkdir : World Demo.X :=
  @Build_World Demo.X
    (json_load Demo.W)
    (model_classes Demo.W) (tokenizer_from_pretrained Demo.W)
    (config_from_pretrained Demo.W) (config_use_crf Demo.W) (load_model Demo.W)
    (model_to Demo.W) (get_test_examples Demo.W)
    (transformer_convert_data_to_features Demo.W) (predict Demo.W)
    (bio_sentences Demo.W) (read_text Demo.W)
    (fun _ => Raise (Exception "PermissionError" "Permission denied"))
    (format_converter Demo.W) (format_exc Demo.W) (make_logger Demo.W)
    (cuda_is_available Demo.W) (cuda_device_count Demo.W) (cuda_current_device Demo.W).

(** The format converter raises. *)
Definition no_converter : World Demo.X :=
  @Build_World Demo.X
    (json_load Demo.W)
    (model_classes Demo.W) (tokenizer_from_pretrained Demo.W)
    (config_from_pretrained Demo.W) (config_use_crf Demo.W) (load_model Demo.W)
    (model_to Demo.W) (get_test_examples Demo.W)
    (transformer_convert_data_to_features Demo.W) (predict Demo.W)
    (bio_sentences Demo.W) (read_text Demo.W) (mkdir Demo.W)
    (fun _ => Raise (Exception "ValueError" "unknown formatter"))
    (format_exc Demo.W) (make_logger Demo.W)
    (cuda_is_available Demo.W) (cuda_device_count Demo.W) (cuda_current_device Demo.W).

End Broken.

(** ** One turn of the loop, as a step relation *)

Section Steps.

Context {X : Externals} (W : World X).

(** The state after the handler has logged the failure [ex] of a file. *)
Definition with_failure (each_file : Path.t) (ex : exn) (s : State X) : State X :=
  with_log ERROR (format_exc W ex)
    (with_log ERROR
       ("Encountered an error when processing predictions for file: "
        ++ Path.name each_file) s).

(** The state after lines 69 to 71: the output directory exists and
    [args.predict_output_file] is the path of the file. *)
Definition with_output_path (each_file : Path.t) (s : State X) : State X :=
  with_args (set_predict_output_file (bio_path (args s) each_file))
    (with_dir (Path.to_string (Path.parse (output_dir (parsed (args s))))) s).

(** What one turn of the loop can do to the state: the five ways
    through the [try] statement. *)
Inductive file_step (each_file : Path.t) (s : State X) : State X -> Prop :=
  | step_failed (e : exn) :
      (* an exception before anything was done *)
      file_step each_file s (with_failure each_file e s)
  | step_written (sents : list sentence) :
      use_bio (parsed (args s)) = true ->
      file_step each_file s
        (with_file (bio_path (args s) each_file) (bio_text sents)
           (with_output_path each_file s))
  | step_not_written (e : exn) :
      (* [_output_bio] raised after lines 69 to 71 *)
      use_bio (parsed (args s)) = true ->
      file_step each_file s (with_failure each_file e (with_output_path each_file s))
  | step_accumulated (sents : list sentence) (raw : string) :
      use_bio (parsed (args s)) = false ->
      file_step each_file s
        (with_labeled (setitem2 (Path.name each_file) "raw_text" (VText raw))
           (with_labeled (setitem2 (Path.name each_file) "sents" (VSents sents)) s))
  | step_half_accumulated (sents : list sentence) (e : exn) :
      (* reading the raw text raised after ['sents'] was stored *)
      use_bio (parsed (args s)) = false ->
      file_step each_file s
        (with_failure each_file e
           (with_labeled (setitem2 (Path.name each_file) "sents" (VSents sents)) s)).

(** The states a run of the loop over [l] can reach from [s]. *)
Inductive files_steps : list Path.t -> State X -> State X -> Prop :=
  | steps_nil s : files_steps [] s s
  | steps_cons f l s s1 s2 :
      file_step f s s1 -> files_steps l s1 s2 -> files_steps (f :: l) s s2.

(** The calls the script has made on the logger, in order, each with
    its level ([logger.info], [logger.error]).  Whether a call leaves a
    record in the log is decided by the level the logger was created
    with, from [--log_lvl]; the model does not follow that. *)
Definition logger_calls (s : State X) : list (level * string) := log s.

(** The files of [l] whose [try] body raises in the run from [s], each
    with the exception it raises, in the order of the run. *)
Fixpoint failures (ld : @Loaded X) (l : list Path.t) (s : State X) : list (Path.t * exn) :=
  match l with
  | [] => []
  | f :: rest =>
      match fst (try_body W ld f s) with
      | Raise e => (f, e) :: failures ld rest (snd (process_file W ld f s))
      | Ok _ => failures ld rest (snd (process_file W ld f s))
      end
  end.

(** An entry of the accumulator as the loop can leave it: ['sents'] holds
    sentences, ['raw_text'], when there, holds a text, and there is no
    other key. *)
Definition entry_ok (m : gmap string value) : Prop :=
  (exists sents, m !! "sents" = Some (VSents sents))
  /\ (m !! "raw_text" = None \/ exists raw, m !! "raw_text" = Some (VText raw))
  /\ (forall k, k <> "sents" -> k <> "raw_text" -> m !! k = None).

End Steps.

(** ** The command line (lines 92 to 133)

    [argparser] declares seventeen options on an [argparse.ArgumentParser]
    and parses a list of tokens.  [arguments] is the table of the
    [add_argument] calls.  [parse_args] gives what [argparse] does with
    that table on token lists in which every token that starts with a
    dash is one of the declared option strings, [-h] or [--help]; on any
    other list (abbreviated options, [--opt=value], [--], negative
    numbers, a lone dash) the outcome is [Unmodelled].  Python's [int] is
    a parameter. *)

Module Argparse.

Inductive arg_value :=
  | ANone
  | AStr (s : string)
  | AInt (z : Z)
  | ABool (b : bool)
  | AList (l : list string).

Inductive arg_type := TStr | TInt.

(** [action='store'] (the default) with its [type], [action='store_true'],
    and [nargs="+"]. *)
Inductive action :=
  | Store (ty : option arg_type)
  | StoreTrue
  | StoreMany.

Record argument := Argument {
  flag : string;
  act : action;
  default : arg_value;
  required : bool
}.

(** The attribute an option is stored under: its name without the two
    dashes. *)
Definition dest (a : argument) : string :=
  String.substring 2 (String.length (flag a) - 2) (flag a).

Definition arguments : list argument :=
  [ Argument "--model_type" (Store (Some TStr)) (AStr "bert") true;
    Argument "--pretrained_model" (Store (Some TStr)) ANone true;
    Argument "--preprocessed_text_dir" (Store (Some TStr)) ANone true;
    Argument "--raw_text_dir" (Store (Some TStr)) ANone true;
    Argument "--data_has_offset_information" StoreTrue (ABool false) false;
    Argument "--output_dir" (Store (Some TStr)) ANone true;
    Argument "--output_dir_brat" (Store (Some TStr)) ANone false;
    Argument "--do_lower_case" StoreTrue (ABool false) false;
    Argument "--eval_batch_size" (Store (Some TInt)) (AInt 8) false;
    Argument "--max_seq_length" (Store (Some TInt)) (AInt 128) false;
    Argument "--log_file" (Store None) ANone false;
    Argument "--log_lvl" (Store (Some TStr)) (AStr "i") false;
    Argument "--do_format" (Store (Some TInt)) (AInt 0) false;
    Argument "--do_copy" StoreTrue (ABool false) false;
    Argument "--progress_bar" StoreTrue (ABool false) false;
    Argument "--use_bio" StoreTrue (ABool false) false;
    Argument "--gpu_nodes" StoreMany ANone false ].

Inductive usage_error :=
  | Expected_one_argument (option_string : string)
  | Expected_at_least_one_argument (option_string : string)
  | Invalid_value (option_string : string) (v : string)
  | Required_missing (option_strings : list string)
  | Unrecognized (extras : list string).

(** A namespace, the help text with exit status 0, or a usage message
    with exit status 2. *)
Inductive outcome :=
  | Namespace_ok (n : gmap string arg_value)
  | Help
  | Usage_error (e : usage_error)
  | Unmodelled.

Definition is_help (t : string) : bool := String.eqb t "-h" || String.eqb t "--help".

Definition find_argument (t : string) : option argument :=
  List.find (fun a => String.eqb (flag a) t) arguments.

(** A token outside the modelled fragment. *)
Definition unmodelled (t : string) : bool :=
  Str.startswith "-" t && negb (is_help t)
  && match find_argument t with Some _ => false | None => true end.

Definition defaults : gmap string arg_value :=
  list_to_map (List.map (fun a => (dest a, default a)) arguments).

Definition was_seen (seen : list string) (a : argument) : bool :=
  List.existsb (String.eqb (flag a)) seen.

(** After the last token: the required options, then the tokens no
    option took. *)
Definition finish (n : gmap string arg_value) (seen extras : list string) : outcome :=
  match List.filter (fun a => required a && negb (was_seen seen a)) arguments with
  | [] =>
      match extras with
      | [] => Namespace_ok n
      | _ => Usage_error (Unrecognized extras)
      end
  | missing => Usage_error (Required_missing (List.map flag missing))
  end.

Definition extend (d : string) (t : string) (n : gmap string arg_value)
    : gmap string arg_value :=
  match n !! d with
  | Some (AList l) => <[d := AList (l ++ [t])%list]> n
  | _ => n
  end.

Section Parse.

(** Python's [int] on a string: [None] when it raises [ValueError]. *)
Variable int : string -> option Z.

Definition convert (ty : option arg_type) (v : string) : option arg_value :=
  match ty with
  | Some TInt => option_map AInt (int v)
  | _ => Some (AStr v)
  end.

(** The tokens are taken from left to right.  [open] is the attribute of
    the [nargs="+"] option whose values are being collected, if any: it
    takes every token up to the next option. *)
Fixpoint consume (ts : list string) (n : gmap string arg_value)
    (seen extras : list string) (open : option string) : outcome :=
  match ts with
  | [] => finish n seen extras
  | t :: rest =>
      if is_help t then Help
      else
        match find_argument t with
        | Some a =>
            match act a with
            | StoreTrue =>
                consume rest (<[dest a := ABool true]> n) (flag a :: seen) extras None
            | Store ty =>
                match rest with
                | v :: rest' =>
                    if Str.startswith "-" v then Usage_error (Expected_one_argument (flag a))
                    else
                      match convert ty v with
                      | Some x => consume rest' (<[dest a := x]> n) (flag a :: seen) extras None
                      | None => Usage_error (Invalid_value (flag a) v)
                      end
                | [] => Usage_error (Expected_one_argument (flag a))
                end
            | StoreMany =>
                match rest with
                | v :: rest' =>
                    if Str.startswith "-" v
                    then Usage_error (Expected_at_least_one_argument (flag a))
                    else consume rest' (<[dest a := AList [v]]> n) (flag a :: seen) extras
                           (Some (dest a))
                | [] => Usage_error (Expected_at_least_one_argument (flag a))
                end
            end
        | None =>
            match open with
            | Some d => consume rest (extend d t n) seen extras open
            | None => consume rest n seen (extras ++ [t])%list None
            end
        end
  end.

Definition parse_args (tokens : list string) : outcome :=
  if List.existsb unmodelled tokens then Unmodelled
  else consume tokens defaults [] [] None.

(** Lines 130 to 133: [sys.argv[1:]] is parsed when no list is passed. *)
Definition argparser (args : option (list string)) (argv : list string) : outcome :=
  match args with
  | None => parse_args argv
  | Some l => parse_args l
  end.

End Parse.

Definition get_str (n : gmap string arg_value) (k : string) : option string :=
  match n !! k with Some (AStr s) => Some s | _ => None end.

Definition get_opt_str (n : gmap string arg_value) (k : string) : option (option string) :=
  match n !! k with
  | Some (AStr s) => Some (Some s)
  | Some ANone => Some None
  | _ => None
  end.

Definition get_int (n : gmap string arg_value) (k : string) : option Z :=
  match n !! k with Some (AInt z) => Some z | _ => None end.

Definition get_bool (n : gmap string arg_value) (k : string) : option bool :=
  match n !! k with Some (ABool b) => Some b | _ => None end.

Definition get_opt_list (n : gmap string arg_value) (k : string)
    : option (option (list string)) :=
  match n !! k with
  | Some (AList l) => Some (Some l)
  | Some ANone => Some None
  | _ => None
  end.

(** The namespace as [main] reads it: [None] when an attribute does not
    hold a value of the kind [main] uses it as. *)
Definition to_parsed (n : gmap string arg_value) : option Parsed :=
  a1 ← get_str n "model_type";
  a2 ← get_str n "pretrained_model";
  a3 ← get_str n "preprocessed_text_dir";
  a4 ← get_str n "raw_text_dir";
  a5 ← get_bool n "data_has_offset_information";
  a6 ← get_str n "output_dir";
  a7 ← get_opt_str n "output_dir_brat";
  a8 ← get_bool n "do_lower_case";
  a9 ← get_int n "eval_batch_size";
  a10 ← get_int n "max_seq_length";
  a11 ← get_opt_str n "log_file";
  a12 ← get_str n "log_lvl";
  a13 ← get_int n "do_format";
  a14 ← get_bool n "do_copy";
  a15 ← get_bool n "progress_bar";
  a16 ← get_bool n "use_bio";
  a17 ← get_opt_list n "gpu_nodes";
  Some {| model_type := a1; pretrained_model := a2; preprocessed_text_dir := a3;
          raw_text_dir := a4; data_has_offset_information := a5; output_dir := a6;
          output_dir_brat := a7; do_lower_case := a8; eval_batch_size := a9;
          max_seq_length := a10; log_file := a11; log_lvl := a12; do_format := a13;
          do_copy := a14; progress_bar := a15; use_bio := a16; gpu_nodes := a17 |}.

End Argparse.

(** ** What holds while the command line is read *)

Section CommandLine.

Import Argparse.

(** [v] is the token after the last occurrence of [f] in [l]. *)
Definition follows_last (f v : string) (l : list string) : Prop :=
  exists pre post, l = (pre ++ f :: v :: post)%list /\ ~ List.In f post.

(** The state of the parser after the tokens [consumed]. *)
Record parser_inv (int : string -> option Z) (consumed : list string)
    (n : gmap string arg_value) (seen : list string) : Prop := {
  inv_seen : forall a, List.In a arguments ->
    (List.In (flag a) consumed <-> List.In (flag a) seen);
  inv_default : forall a, List.In a arguments -> ~ List.In (flag a) seen ->
    n !! dest a = Some (default a);
  inv_store : forall a ty, List.In a arguments -> act a = Store ty ->
    List.In (flag a) seen ->
    exists v x, follows_last (flag a) v consumed /\ convert int ty v = Some x
                /\ n !! dest a = Some x;
  inv_true : forall a, List.In a arguments -> act a = StoreTrue ->
    List.In (flag a) seen -> n !! dest a = Some (ABool true);
  inv_many : forall a, List.In a arguments -> act a = StoreMany ->
    List.In (flag a) seen ->
    exists v l, n !! dest a = Some (AList (v :: l))
                /\ forall x, List.In x (v :: l) -> List.In x consumed;
  inv_help : ~ List.In "-h" consumed /\ ~ List.In "--help" consumed
}.

End CommandLine.

(** How a run from the command line ends. *)
Inductive run_end {X : Externals} :=
  | Help_shown
  | Usage (e : Argparse.usage_error)
  | Not_modelled
  | Ran (r : result unit) (s : option (State X)).

(** The script from the command line: the module-level check of lines 26
    to 28 comes first, then [argparser()] on [sys.argv[1:]], then the rest
    of the [__main__] block. *)
Definition command_line {X : Externals} (W : World X) (int : string -> option Z)
    (installed : Version.t) (argv entries : list string) : @run_end X :=
  if Version.ge installed required_version then
    match Argparse.argparser int None argv with
    | Argparse.Namespace_ok n =>
        match Argparse.to_parsed n with
        | Some p => let '(r, s) := dunder_main W p entries in Ran r s
        | None => Not_modelled
        end
    | Argparse.Help => Help_shown
    | Argparse.Usage_error e => Usage e
    | Argparse.Unmodelled => Not_modelled
    end
  else Ran (Raise (Exception "AssertionError" (version_message installed))) None.

(** A stand-in for Python's [int] in the examples: the strings of
    decimal digits. *)
Definition digits (s : string) : option Z :=
  option_map Z.of_uint (NilZero.uint_of_string s).

(** A command line for the examples: the five required options, then
    [more]. *)
Module Cli.

Definition argv (more : list string) : list string :=
  ["--model_type"; "bert"; "--pretrained_model"; "model";
   "--preprocessed_text_dir"; "in"; "--raw_text_dir"; "raw";
   "--output_dir"; "out/bio"] ++ more.

Definition namespace (o : Argparse.outcome) : gmap string Argparse.arg_value :=
  match o with
  | Argparse.Namespace_ok n => n
  | _ => ∅
  end.

End Cli.
(** * Properties *)

(** ** The embedding at work *)

(** Closed facts are settled by evaluation, one conjunct at a time. *)
Ltac evaluate :=
  cbv zeta; repeat match goal with |- _ /\ _ => split end; vm_compute; reflexivity.

Example split_doc_note : Str.split Str.dot "doc.note" = ["doc"; "note"].
Proof. reflexivity. Qed.

Example splitroot_cases :
  Path.splitroot "a/b" = ("", "a/b") /\ Path.splitroot "/a" = ("/", "a")
  /\ Path.splitroot "//a" = ("//", "a") /\ Path.splitroot "///a" = ("/", "//a").
Proof. repeat split. Qed.

Example parse_cases :
  Path.parse "/data//out/./bio/" = Path.mk "/" ["data"; "out"; "bio"]
  /\ Path.parse "" = Path.mk "" [] /\ Path.parse "out/bio" = Path.mk "" ["out"; "bio"].
Proof. repeat split. Qed.

Example stem_cases :
  Path.stem_of_name "doc.note.txt" = "doc.note" /\ Path.stem_of_name ".txt" = ".txt"
  /\ Path.stem_of_name "..txt" = "." /\ Path.stem_of_name "out." = "out."
  /\ Path.stem_of_name "a.b.c.txt" = "a.b.c".
Proof. repeat split. Qed.

Example ofn_cases :
  ofn (Path.parse "in/doc.note.txt") = "doc.bio.txt"
  /\ ofn (Path.parse "in/.txt") = ".bio.txt"
  /\ ofn (Path.parse "in/a.b.c.txt") = "a.bio.txt".
Proof. repeat split. Qed.

Example os_path_join_cases :
  Path.os_path_join "out/bio" "x" = "out/bio/x" /\ Path.os_path_join "out/" "x" = "out/x"
  /\ Path.os_path_join "" "x" = "x" /\ Path.os_path_join "out" "/x" = "/x".
Proof. repeat split. Qed.

Example glob_txt_cases :
  glob_txt ["a.txt"; "b.TXT"; "c.txt.bak"; ".txt"; "txt"] = ["a.txt"; ".txt"].
Proof. reflexivity. Qed.

Example derived_dir_cases :
  List.map (fun out => Path.to_string
              (Path.joinpath (Path.parent (Path.parse out))
                 (Path.stem (Path.parse out) ++ "_formatted_output")))
    ["/data/out.d/"; "out"; "/"; "."; "out/bio"; "//x/y"]
  = ["/data/out_formatted_output"; "out_formatted_output"; "/_formatted_output";
     "_formatted_output"; "out/bio_formatted_output"; "//x/y_formatted_output"].
Proof. reflexivity. Qed.

Example demo_run :
  files (snd (main Demo.W ["doc1.txt"] (Demo.start true 0 None))) !! "out/bio/doc1.bio.txt"
  = Some (bio_text [[Token "John" 0 4 "B-PER"; Token "lives" 5 10 "O"; Token "in" 11 13 "O"; Token "Paris" 14 19 "B-LOC"]]).
Proof. vm_compute. reflexivity. Qed.

(** ** Strings and paths *)

Lemma app_cons c s t : String c s ++ t = String c (s ++ t).
Proof. reflexivity. Qed.

Lemma app_empty_l s : "" ++ s = s.
Proof. reflexivity. Qed.

Lemma split_not_nil sep s : Str.split sep s <> [].
Proof.
  destruct s as [|c r]; simpl; [discriminate|].
  destruct (Ascii.eqb c sep); [discriminate|].
  destruct (Str.split sep r); discriminate.
Qed.

Lemma hd_split_dot s : List.hd "" (Str.split Str.dot s) = before_first_dot s.
Proof.
  induction s as [|c r IH]; simpl; [reflexivity|].
  destruct (Ascii.eqb c Str.dot); [reflexivity|].
  destruct (Str.split Str.dot r) eqn:E; simpl in *.
  - exfalso. exact (split_not_nil _ _ E).
  - now rewrite IH.
Qed.

Lemma before_first_dot_no_dot s : Str.contains Str.dot (before_first_dot s) = false.
Proof.
  induction s as [|c r IH]; simpl; [reflexivity|].
  destruct (Ascii.eqb c Str.dot) eqn:E; simpl; [reflexivity|].
  now rewrite E, IH.
Qed.

Lemma before_first_dot_id s : Str.contains Str.dot s = false -> before_first_dot s = s.
Proof.
  induction s as [|c r IH]; simpl; [reflexivity|].
  destruct (Ascii.eqb c Str.dot); simpl; [discriminate|].
  intros H. now rewrite IH.
Qed.

Lemma before_first_dot_prefix s :
  s = before_first_dot s \/ exists rest, s = before_first_dot s ++ "." ++ rest.
Proof.
  induction s as [|c r IH]; simpl; [now left|].
  destruct (Ascii.eqb c Str.dot) eqn:E.
  - apply Ascii.eqb_eq in E. subst c. right. now exists r.
  - destruct IH as [IH|[rest IH]].
    + left. now rewrite <- IH.
    + right. exists rest. rewrite app_cons. now f_equal.
Qed.

Lemma take_S i c r : Str.take (S i) (String c r) = String c (Str.take i r).
Proof. reflexivity. Qed.

Lemma take_0 s : Str.take 0 s = "".
Proof. now destruct s. Qed.

Lemma before_first_dot_take s i :
  Str.rfind Str.dot s = Some i -> before_first_dot (Str.take i s) = before_first_dot s.
Proof.
  revert i. induction s as [|c r IH]; simpl; intros i H; [discriminate|].
  destruct (Str.rfind Str.dot r) as [j|] eqn:E.
  - injection H as <-. rewrite take_S. simpl.
    destruct (Ascii.eqb c Str.dot); [reflexivity|]. now rewrite IH.
  - destruct (Ascii.eqb c Str.dot) eqn:Ec; [|discriminate].
    injection H as <-. now rewrite take_0.
Qed.

(** Dropping the last suffix does not change what precedes the first dot. *)
Lemma before_first_dot_stem n :
  before_first_dot (Path.stem_of_name n) = before_first_dot n.
Proof.
  unfold Path.stem_of_name.
  destruct (Str.rfind Str.dot n) as [i|] eqn:E; [|reflexivity].
  destruct (Nat.ltb 0 i && Nat.ltb i (String.length n - 1)); [|reflexivity].
  now apply before_first_dot_take.
Qed.

Lemma rfind_dot_txt s : Str.rfind Str.dot (s ++ ".txt") = Some (String.length s).
Proof.
  induction s as [|c r IH]; [reflexivity|].
  rewrite app_cons. simpl. now rewrite IH.
Qed.

Lemma take_length_app s t : Str.take (String.length s) (s ++ t) = s.
Proof.
  induction s as [|c r IH].
  - apply take_0.
  - rewrite app_cons. simpl String.length. rewrite take_S. now rewrite IH.
Qed.

Lemma length_append s t : String.length (s ++ t) = String.length s + String.length t.
Proof.
  induction s as [|c r IH]; [reflexivity|].
  rewrite app_cons. simpl. now rewrite IH.
Qed.

(** The stem of [<s>.txt] is [s]. *)
Lemma stem_of_txt s : s <> "" -> Path.stem_of_name (s ++ ".txt") = s.
Proof.
  intros Hs. unfold Path.stem_of_name. rewrite rfind_dot_txt.
  rewrite length_append. simpl String.length.
  assert (0 < String.length s) by (destruct s; simpl; [congruence|lia]).
  replace (Nat.ltb 0 (String.length s)) with true
    by (symmetry; apply Nat.ltb_lt; lia).
  replace (Nat.ltb (String.length s) (String.length s + 4 - 1)) with true
    by (symmetry; apply Nat.ltb_lt; lia).
  simpl. apply take_length_app.
Qed.

Lemma name_child d n : Path.name (Path.child d n) = n.
Proof. apply List.last_last. Qed.

(** Line 70 in the words of the properties: what precedes the first dot
    of the file's name, then [.bio.txt]. *)
Lemma ofn_before_first_dot f :
  ofn f = before_first_dot (Path.name f) ++ ".bio.txt".
Proof.
  unfold ofn. rewrite hd_split_dot. unfold Path.stem.
  now rewrite before_first_dot_stem.
Qed.

(** ** One file *)

Section OneFile.

Context {X : Externals} (W : World X) (ld : @Loaded X).

(** The body of the [try], step by step: the state each raise leaves. *)
Lemma try_body_eq (f : Path.t) (s : State X) :
  try_body W ld f s =
  let a := args s in
  match get_test_examples W (ld_processor ld) (Path.name f) (use_bio (parsed a)) with
  | Raise e => (Raise e, s)
  | Ok tests =>
    match transformer_convert_data_to_features W a tests (ld_label2idx ld)
            (ld_tokenizer ld) (max_seq_length (parsed a)) with
    | Raise e => (Raise e, s)
    | Ok feats =>
      match predict W a (ld_model ld) feats with
      | Raise e => (Raise e, s)
      | Ok preds =>
        if use_bio (parsed a) then
          match mkdir W (Path.parse (output_dir (parsed a))) with
          | Raise e => (Raise e, s)
          | Ok _ =>
            let s1 := with_args (set_predict_output_file (bio_path a f))
                        (with_dir (Path.to_string (Path.parse (output_dir (parsed a)))) s) in
            match bio_sentences W tests preds with
            | Raise e => (Raise e, s1)
            | Ok sents => (Ok tt, with_file (bio_path a f) (bio_text sents) s1)
            end
          end
        else
          match bio_sentences W tests preds with
          | Raise e => (Raise e, s)
          | Ok sents =>
            let s1 := with_labeled (setitem2 (Path.name f) "sents" (VSents sents)) s in
            match read_text W f with
            | Raise e => (Raise e, s1)
            | Ok raw =>
              (Ok tt, with_labeled (setitem2 (Path.name f) "raw_text" (VText raw)) s1)
            end
          end
      end
    end
  end.
Proof.
  unfold try_body, bind, lift, get_args, mkdir_p, setattr, modify, _output_bio, ret, bio_path.
  cbv zeta.
  destruct (get_test_examples W _ _ _) as [tests|e]; [|reflexivity].
  destruct (transformer_convert_data_to_features W _ _ _ _ _) as [feats|e]; [|reflexivity].
  destruct (predict W _ _ _) as [preds|e]; [|reflexivity].
  destruct (use_bio (parsed (args s))).
  - destruct (mkdir W _) as [[]|e]; [|reflexivity].
    destruct (bio_sentences W tests preds) as [sents|e]; reflexivity.
  - destruct (bio_sentences W tests preds) as [sents|e]; [|reflexivity].
    destruct (read_text W f) as [raw|e]; reflexivity.
Qed.

(** Each step of the body can be the one that raises: reading the
    examples, converting them, predicting, making the output directory,
    building the labelled sentences, reading the raw text. *)
Lemma try_body_raises (f : Path.t) (s : State X) (e : exn) :
  let a := args s in
  let convert t := transformer_convert_data_to_features W a t (ld_label2idx ld)
                     (ld_tokenizer ld) (max_seq_length (parsed a)) in
  get_test_examples W (ld_processor ld) (Path.name f) (use_bio (parsed a)) = Raise e
  \/ (exists tests,
        get_test_examples W (ld_processor ld) (Path.name f) (use_bio (parsed a)) = Ok tests
        /\ (convert tests = Raise e
            \/ exists feats, convert tests = Ok feats
                 /\ (predict W a (ld_model ld) feats = Raise e
                     \/ exists preds, predict W a (ld_model ld) feats = Ok preds
                          /\ ((use_bio (parsed a) = true
                               /\ mkdir W (Path.parse (output_dir (parsed a))) = Raise e)
                              \/ ((use_bio (parsed a) = false
                                   \/ mkdir W (Path.parse (output_dir (parsed a))) = Ok tt)
                                  /\ bio_sentences W tests preds = Raise e)
                              \/ (use_bio (parsed a) = false
                                  /\ (exists sents, bio_sentences W tests preds = Ok sents)
                                  /\ read_text W f = Raise e))))) ->
  fst (try_body W ld f s) = Raise e.
Proof.
  cbv zeta. rewrite try_body_eq. cbv zeta.
  intros [H|(tests & -> & [H|(feats & -> & [H|(preds & -> & H)])])];
    try (rewrite H; reflexivity).
  destruct H as [[Hb Hm]|[[[Hb|Hm] Hs]|(Hb & (sents & Hs) & Hr)]].
  - now rewrite Hb, Hm.
  - rewrite Hb, Hs. reflexivity.
  - rewrite Hm, Hs. now destruct (use_bio (parsed (args s))).
  - now rewrite Hb, Hs, Hr.
Qed.

(** A file either passes the [try] or has its failure logged; the
    statement itself never raises. *)
Lemma process_file_eq (f : Path.t) (s : State X) :
  process_file W ld f s =
  match try_body W ld f s with
  | (Ok _, s') => (Ok tt, s')
  | (Raise e, s') =>
      (Ok tt, with_log ERROR (format_exc W e)
                (with_log ERROR
                   ("Encountered an error when processing predictions for file: "
                    ++ Path.name f) s'))
  end.
Proof.
  unfold process_file, try_except, except_body, logger_error, bind, modify.
  destruct (try_body W ld f s) as [[u|e] s']; reflexivity.
Qed.

Lemma process_file_ok (f : Path.t) (s : State X) : fst (process_file W ld f s) = Ok tt.
Proof.
  rewrite process_file_eq. destruct (try_body W ld f s) as [[u|e] s']; reflexivity.
Qed.

Lemma for_each_cons {A} (x : A) (l : list A) (body : A -> M unit) (s : State X) :
  fst (body x s) = Ok tt ->
  for_each (x :: l) body s = for_each l body (snd (body x s)).
Proof.
  simpl. unfold bind. destruct (body x s) as [[[]|e] s']; simpl; [reflexivity|discriminate].
Qed.

Lemma files_loop_cons (f : Path.t) (l : list Path.t) (s : State X) :
  for_each (f :: l) (process_file W ld) s
  = for_each l (process_file W ld) (snd (process_file W ld f s)).
Proof. apply for_each_cons, process_file_ok. Qed.

Lemma files_loop_app (l1 l2 : list Path.t) (s : State X) :
  for_each (l1 ++ l2)%list (process_file W ld) s
  = for_each l2 (process_file W ld) (snd (for_each l1 (process_file W ld) s)).
Proof.
  revert s. induction l1 as [|f l1 IH]; intros s; [reflexivity|].
  rewrite <- List.app_comm_cons, !files_loop_cons. apply IH.
Qed.

(** The loop over the files never raises. *)
Lemma files_loop_ok (l : list Path.t) (s : State X) :
  fst (for_each l (process_file W ld) s) = Ok tt.
Proof.
  revert s. induction l as [|f l IH]; intros s; [reflexivity|].
  rewrite files_loop_cons. apply IH.
Qed.

End OneFile.

(** ** What the script leaves alone *)

Section Frame.

Context {X : Externals} (W : World X).

Lemma unchanged_ret {A B} (proj : State X -> B) (a : A) : unchanged proj (ret a).
Proof. intros s. reflexivity. Qed.

Lemma unchanged_lift {A B} (proj : State X -> B) (r : result A) : unchanged proj (lift r).
Proof. intros s. reflexivity. Qed.

Lemma unchanged_get_args {B} (proj : State X -> B) : unchanged proj get_args.
Proof. intros s. reflexivity. Qed.

Lemma unchanged_modify {B} (proj : State X -> B) (f : State X -> State X) :
  (forall s, proj (f s) = proj s) -> unchanged proj (modify f).
Proof. intros H s. apply H. Qed.

Lemma unchanged_bind {A C B} (proj : State X -> B) (m : M A) (k : A -> M C) :
  unchanged proj m -> (forall a, unchanged proj (k a)) -> unchanged proj (bind m k).
Proof.
  intros Hm Hk s. unfold bind. specialize (Hm s).
  destruct (m s) as [[a|e] s']; simpl in *; [|exact Hm].
  now rewrite Hk.
Qed.

Lemma unchanged_try_except {B} (proj : State X -> B) (body : M unit) (handler : exn -> M unit) :
  unchanged proj body -> (forall e, unchanged proj (handler e)) ->
  unchanged proj (try_except body handler).
Proof.
  intros Hm Hk s. unfold try_except. specialize (Hm s).
  destruct (body s) as [[a|e] s']; simpl in *; [exact Hm|].
  now rewrite Hk.
Qed.

Lemma unchanged_for_each {A B} (proj : State X -> B) (l : list A) (body : A -> M unit) :
  (forall x, unchanged proj (body x)) -> unchanged proj (for_each l body).
Proof.
  intros H. induction l as [|x l IH]; simpl.
  - apply unchanged_ret.
  - apply unchanged_bind; [apply H|intros _; exact IH].
Qed.

Ltac frame :=
  repeat first
    [ apply unchanged_ret
    | apply unchanged_lift
    | apply unchanged_get_args
    | apply unchanged_modify; intros ?; reflexivity
    | apply unchanged_bind; [|intros ?]
    | apply unchanged_try_except; [|intros ?]
    | apply unchanged_for_each; intros ?
    | match goal with
      | |- unchanged _ (if ?b then _ else _) => destruct b
      | |- unchanged _ (match ?x with _ => _ end) => destruct x
      end ].

Lemma load_received : unchanged (fun s => received (args s)) (load W).
Proof. unfold load, setattr. cbv zeta. frame. Qed.

Lemma load_files : unchanged files (load W).
Proof. unfold load, setattr. cbv zeta. frame. Qed.

Lemma load_log : unchanged log (load W).
Proof. unfold load, setattr. cbv zeta. frame. Qed.

Lemma load_calls : unchanged converter_calls (load W).
Proof. unfold load, setattr. cbv zeta. frame. Qed.

Lemma loop_received ld entries : unchanged (fun s => received (args s)) (loop W ld entries).
Proof. unfold loop. frame. Qed.

Lemma loop_calls ld entries : unchanged converter_calls (loop W ld entries).
Proof. unfold loop. frame. Qed.

Lemma format_pass_eq (s : State X) :
  format_pass W s =
  let p := parsed (args s) in
  if Z.eqb (do_format p) 0 then (Ok tt, s)
  else
    match mkdir W (output_formatted_dir p) with
    | Raise e => (Raise e, s)
    | Ok _ =>
        let c := converter_call_of p (output_formatted_dir p) (labeled_bio_tup_lst s) in
        (format_converter W c,
         with_call c (with_dir (Path.to_string (output_formatted_dir p)) s))
    end.
Proof.
  unfold format_pass, bind, get_args, mkdir_p, lift, modify, ret. cbv zeta.
  destruct (Z.eqb _ 0); [reflexivity|].
  destruct (mkdir W _) as [[]|e]; reflexivity.
Qed.

Lemma format_pass_received : unchanged (fun s => received (args s)) (format_pass W).
Proof.
  intros s. rewrite format_pass_eq. cbv zeta.
  destruct (Z.eqb _ 0); [reflexivity|]. now destruct (mkdir W _).
Qed.

Lemma format_pass_files : unchanged files (format_pass W).
Proof.
  intros s. rewrite format_pass_eq. cbv zeta.
  destruct (Z.eqb _ 0); [reflexivity|]. now destruct (mkdir W _).
Qed.

Lemma format_pass_log : unchanged log (format_pass W).
Proof.
  intros s. rewrite format_pass_eq. cbv zeta.
  destruct (Z.eqb _ 0); [reflexivity|]. now destruct (mkdir W _).
Qed.

Lemma format_pass_labeled : unchanged labeled_bio_tup_lst (format_pass W).
Proof.
  intros s. rewrite format_pass_eq. cbv zeta.
  destruct (Z.eqb _ 0); [reflexivity|]. now destruct (mkdir W _).
Qed.

(** The body of the [try] writes no log record; the handler writes two. *)
Lemma try_body_log ld f : unchanged log (try_body W ld f).
Proof. unfold try_body, mkdir_p, setattr, _output_bio. frame. Qed.

Lemma process_file_log_ok ld f (s : State X) :
  fst (try_body W ld f s) = Ok tt -> log (snd (process_file W ld f s)) = log s.
Proof.
  intros H. rewrite process_file_eq. pose proof (try_body_log ld f s) as Hl.
  destruct (try_body W ld f s) as [[u|e] s']; simpl in *; [exact Hl|discriminate].
Qed.

Lemma process_file_log_raise ld f (s : State X) (e : exn) :
  fst (try_body W ld f s) = Raise e ->
  log (snd (process_file W ld f s)) = (log s ++ failure_log W f e)%list.
Proof.
  intros H. rewrite process_file_eq. pose proof (try_body_log ld f s) as Hl.
  destruct (try_body W ld f s) as [[u|e'] s']; simpl in *; [discriminate|].
  injection H as ->. rewrite Hl. unfold failure_log. now rewrite <- List.app_assoc.
Qed.

End Frame.

(** ** The two branches of the loop body *)

Section Branches.

Context {X : Externals} (W : World X) (ld : @Loaded X).

(** With [use_bio], a [try] body that ends normally has written one
    file, at the path of line 71. *)
Lemma try_body_use_bio (f : Path.t) (s s' : State X) :
  use_bio (parsed (args s)) = true ->
  try_body W ld f s = (Ok tt, s') ->
  exists tests feats preds sents,
    get_test_examples W (ld_processor ld) (Path.name f) true = Ok tests
    /\ transformer_convert_data_to_features W (args s) tests (ld_label2idx ld)
         (ld_tokenizer ld) (max_seq_length (parsed (args s))) = Ok feats
    /\ predict W (args s) (ld_model ld) feats = Ok preds
    /\ bio_sentences W tests preds = Ok sents
    /\ files s' = <[bio_path (args s) f := bio_text sents]> (files s)
    /\ labeled_bio_tup_lst s' = labeled_bio_tup_lst s
    /\ predict_output_file (args s') = Some (bio_path (args s) f)
    /\ parsed (args s') = parsed (args s)
    /\ log s' = log s.
Proof.
  intros Hb. rewrite try_body_eq. cbv zeta. rewrite Hb.
  destruct (get_test_examples W _ _ _) as [tests|] eqn:E1; [|discriminate].
  destruct (transformer_convert_data_to_features W _ _ _ _ _) as [feats|] eqn:E2;
    [|discriminate].
  destruct (predict W _ _ _) as [preds|] eqn:E3; [|discriminate].
  destruct (mkdir W _); [|discriminate].
  destruct (bio_sentences W _ _) as [sents|] eqn:E4; [|discriminate].
  intros E. injection E as <-.
  exists tests, feats, preds, sents. now repeat split.
Qed.

(** Without [use_bio], a [try] body that ends normally has stored the
    sentences and the raw text of the file under the file's name, and has
    written nothing. *)
Lemma try_body_accumulate (f : Path.t) (s s' : State X) :
  use_bio (parsed (args s)) = false ->
  try_body W ld f s = (Ok tt, s') ->
  exists tests preds sents raw,
    get_test_examples W (ld_processor ld) (Path.name f) false = Ok tests
    /\ bio_sentences W tests preds = Ok sents
    /\ read_text W f = Ok raw
    /\ labeled_bio_tup_lst s'
       = setitem2 (Path.name f) "raw_text" (VText raw)
           (setitem2 (Path.name f) "sents" (VSents sents) (labeled_bio_tup_lst s))
    /\ files s' = files s
    /\ args s' = args s.
Proof.
  intros Hb. rewrite try_body_eq. cbv zeta. rewrite Hb.
  destruct (get_test_examples W _ _ _) as [tests|] eqn:E1; [|discriminate].
  destruct (transformer_convert_data_to_features W _ _ _ _ _) as [feats|]; [|discriminate].
  destruct (predict W _ _ _) as [preds|]; [|discriminate].
  destruct (bio_sentences W _ _) as [sents|] eqn:E2; [|discriminate].
  destruct (read_text W f) as [raw|] eqn:E3; [|discriminate].
  intros E. injection E as <-. exists tests, preds, sents, raw. now repeat split.
Qed.

Lemma setitem2_twice name (v w : value) (d : gmap string (gmap string value)) :
  d !! name = None ->
  setitem2 name "raw_text" w (setitem2 name "sents" v d) !! name
  = Some {[ "sents" := v; "raw_text" := w ]}.
Proof.
  intros H. unfold setitem2. rewrite !lookup_insert_eq, H. reflexivity.
Qed.

(** For a name the accumulator does not hold yet, the entry is the pair
    of the sentences and the raw text. *)
Lemma try_body_accumulate_fresh (f : Path.t) (s s' : State X) :
  use_bio (parsed (args s)) = false ->
  labeled_bio_tup_lst s !! Path.name f = None ->
  try_body W ld f s = (Ok tt, s') ->
  exists sents raw,
    labeled_bio_tup_lst s' !! Path.name f
    = Some {[ "sents" := VSents sents; "raw_text" := VText raw ]}.
Proof.
  intros Hb Hn H.
  destruct (try_body_accumulate f s s' Hb H)
    as (tests & preds & sents & raw & _ & _ & _ & Hl & _).
  exists sents, raw. rewrite Hl. now apply setitem2_twice.
Qed.

End Branches.

(** C1.  In the file, lines 69 to 72 stand at the indentation of the
    [if args.use_bio:] of line 68 that they are meant to be the body of:
    the block of line 68 is empty, line 69 is where the interpreter stops,
    and the file does not compile.  Moving the four lines one level in
    gives the layout of the two branches. *)
Theorem if_use_bio_body_not_indented :
  Layout.expected_indented_block Layout.main_loop = Some 69
  /\ Layout.compiles Layout.main_loop = false
  /\ Layout.compiles Layout.main_loop_reindented = true.
Proof. repeat split. Qed.

(** ** A failing file among others *)

Section FaultIsolation.

Context {X : Externals} (W : World X) (ld : @Loaded X).




Lemma setitem2_other name key v (d : gmap string (gmap string value)) k :
  k <> name -> setitem2 name key v d !! k = d !! k.
Proof. intros H. unfold setitem2. now rewrite lookup_insert_ne. Qed.





Lemma loop_eq (entries : list string) (s : State X) :
  loop W ld entries s
  = for_each (List.map (Path.child (Path.parse (preprocessed_text_dir (parsed (args s)))))
                       (glob_txt entries))
             (process_file W ld) (with_labeled (fun _ => ∅) s).
Proof. reflexivity. Qed.



(** The loop of [main] never raises. *)
Lemma loop_ok (entries : list string) (s : State X) : fst (loop W ld entries s) = Ok tt.
Proof. rewrite loop_eq. apply files_loop_ok. Qed.

(** Once the model is loaded, the run is the loop followed by the
    formatting pass: nothing in the loop keeps the pass from running. *)
Lemma main_after_load (entries : list string) (s s1 : State X) :
  load W s = (Ok ld, s1) ->
  main W entries s = format_pass W (snd (loop W ld entries s1)).
Proof.
  intros Hl. unfold main, bind at 1. rewrite Hl. unfold bind.
  pose proof (loop_ok entries s1) as Hok.
  destruct (loop W ld entries s1) as [[[]|e] s2]; simpl in *; [reflexivity|discriminate].
Qed.






End FaultIsolation.



(** ** The name of the BIO file *)

Section OutputName.

Context {X : Externals} (W : World X) (ld : @Loaded X).

Lemma stem_child_txt (dir : Path.t) (stem : string) :
  stem <> "" -> Path.stem (Path.child dir (stem ++ ".txt")) = stem.
Proof. intros H. unfold Path.stem. rewrite name_child. now apply stem_of_txt. Qed.

(** C3, amended.  With [use_bio], the file written for the input
    [<stem>.txt] is in [output_dir] and is named by the part of the stem
    before its first dot (a prefix of the stem that holds no dot, ending
    where the stem ends or has its first dot), followed by [.bio.txt];
    that part is the whole stem when the stem has no dot. *)
Theorem bio_file_name (dir : Path.t) (stem : string) (s : State X) :
  let each_file := Path.child dir (stem ++ ".txt") in
  stem <> "" ->
  use_bio (parsed (args s)) = true ->
  fst (try_body W ld each_file s) = Ok tt ->
  Path.stem each_file = stem
  /\ (exists sents,
        files (snd (try_body W ld each_file s))
        = <[Path.os_path_join (output_dir (parsed (args s)))
              (before_first_dot stem ++ ".bio.txt") := bio_text sents]> (files s))
  /\ Str.contains Str.dot (before_first_dot stem) = false
  /\ (stem = before_first_dot stem
      \/ exists rest, stem = before_first_dot stem ++ "." ++ rest)
  /\ (Str.contains Str.dot stem = false -> before_first_dot stem = stem).
Proof.
  intros each_file Hs Hb Hok.
  assert (Hstem : Path.stem each_file = stem) by (now apply stem_child_txt).
  split; [exact Hstem|].
  split; [|split; [apply before_first_dot_no_dot|split;
                   [apply before_first_dot_prefix|apply before_first_dot_id]]].
  destruct (try_body W ld each_file s) as [[[]|e] s'] eqn:E; simpl in Hok; [|discriminate].
  destruct (try_body_use_bio W ld each_file s s' Hb E)
    as (tests & feats & preds & sents & _ & _ & _ & _ & Hf & _).
  exists sents. simpl. rewrite Hf. unfold bio_path, ofn.
  now rewrite hd_split_dot, Hstem.
Qed.

End OutputName.

Lemma bio_file_name_witness :
  exists sents,
    files (snd (try_body Demo.W Demo.loaded (Path.child (Path.parse "in") "doc1.txt")
                  (Demo.start true 0 None)))
    = <[ "out/bio/doc1.bio.txt" := bio_text sents ]> ∅.
Proof.
  destruct (bio_file_name Demo.W Demo.loaded (Path.parse "in") "doc1" (Demo.start true 0 None))
    as (_ & Hw & _).
  - discriminate.
  - reflexivity.
  - vm_compute. reflexivity.
  - exact Hw.
Defined.

(** C3 as stated fails: the input [doc.note.txt] has the stem [doc.note],
    and the one file the run writes is [doc.bio.txt], not
    [doc.note.bio.txt]. *)
Lemma bio_file_name_counterexample :
  let each_file := Path.child (Path.parse "in") "doc.note.txt" in
  let s' := snd (main Demo.W ["doc.note.txt"] (Demo.start true 0 None)) in
  Path.stem each_file = "doc.note"
  /\ files s' !! "out/bio/doc.note.bio.txt" = None
  /\ files s' = {[ "out/bio/doc.bio.txt" := bio_text [[Token "Paris" 0 5 "B-LOC"]] ]}.
Proof. evaluate. Qed.

(** ** The namespace after the run *)

Section NamespaceKept.

Context {X : Externals} (W : World X).

(** C4, amended.  Whatever the collaborators return or raise, [main] ends
    with the attributes it received on [args] (those parsed from the
    command line, the logger and the device) as they were; the attributes
    it assigns are [label2idx], [idx2label], [tokenizer], [config],
    [use_crf] and [predict_output_file], and none of them is a parsed one. *)
Theorem parsed_arguments_kept (entries : list string) (s : State X) :
  received (args (snd (main W entries s))) = received (args s).
Proof.
  revert s. change (unchanged (fun s => received (args s)) (main W entries)).
  unfold main. apply unchanged_bind; [apply load_received|intros ld].
  apply unchanged_bind; [apply loop_received|intros _].
  apply format_pass_received.
Qed.

(** What a successful load has attached to [args] (lines 35 to 45). *)
Lemma load_attaches (s s1 : State X) (ld : @Loaded X) :
  load W s = (Ok ld, s1) ->
  label2idx (args s1) = Some (ld_label2idx ld)
  /\ idx2label (args s1) = Some (invert_labels (ld_label2idx ld))
  /\ tokenizer (args s1) = Some (ld_tokenizer ld)
  /\ is_Some (config (args s1))
  /\ is_Some (use_crf (args s1))
  /\ predict_output_file (args s1) = predict_output_file (args s).
Proof.
  unfold load, bind, lift, get_args, setattr, modify, ret. cbv zeta. simpl.
  destruct (json_load W _) as [l|]; [|discriminate].
  destruct (model_classes W _) as [cls|]; [|discriminate].
  destruct (tokenizer_from_pretrained W _ _ _) as [tok|]; [|discriminate].
  destruct (config_from_pretrained W _ _ _) as [cfg|]; [|discriminate].
  destruct (config_use_crf W _) as [crf|]; [|discriminate].
  destruct (load_model W _ _) as [m|]; [|discriminate].
  destruct (model_to W _ _) as [m'|]; [|discriminate].
  intros E. injection E as <- <-. simpl. repeat split; eauto.
Qed.

End NamespaceKept.

(** C4 as stated fails: after a run over one file with [use_bio], the
    namespace holds the label maps and the output path of that file, none
    of which it held after argument parsing. *)
Lemma namespace_not_read_only :
  label2idx (args (Demo.start true 0 None)) = None
  /\ predict_output_file (args (Demo.start true 0 None)) = None
  /\ label2idx (args (snd (main Demo.W ["doc1.txt"] (Demo.start true 0 None))))
     = Some Demo.labels
  /\ predict_output_file (args (snd (main Demo.W ["doc1.txt"] (Demo.start true 0 None))))
     = Some "out/bio/doc1.bio.txt"
  /\ predict_output_file
       (args (snd (main Demo.W ["doc1.txt"; "doc.txt"] (Demo.start true 0 None))))
     = Some "out/bio/doc.bio.txt".
Proof. evaluate. Qed.

(** ** The directory of the formatted output *)

Section FormattedDir.

Context {X : Externals} (W : World X).

Lemma contains_app c s t :
  Str.contains c (s ++ t) = Str.contains c s || Str.contains c t.
Proof.
  induction s as [|a r IH]; [reflexivity|].
  rewrite app_cons. simpl. rewrite IH. now rewrite orb_assoc.
Qed.

Lemma split_plain sep s : Str.contains sep s = false -> Str.split sep s = [s].
Proof.
  induction s as [|a r IH]; simpl; [reflexivity|].
  intros H. apply orb_false_iff in H as [Ha Hr].
  rewrite Ha, (IH Hr). reflexivity.
Qed.

Lemma split_pieces sep s :
  List.Forall (fun x => Str.contains sep x = false) (Str.split sep s).
Proof.
  induction s as [|a r IH]; simpl.
  - constructor; [reflexivity|constructor].
  - destruct (Ascii.eqb a sep) eqn:E.
    + constructor; [reflexivity|exact IH].
    + destruct (Str.split sep r) as [|h t].
      * constructor; [simpl; now rewrite E|constructor].
      * inversion IH as [|? ? Hh Ht]; subst.
        constructor; [simpl; now rewrite E, Hh|exact Ht].
Qed.

Lemma take_empty i : Str.take i "" = "".
Proof. now destruct i. Qed.

Lemma contains_take c i s : Str.contains c s = false -> Str.contains c (Str.take i s) = false.
Proof.
  revert i. induction s as [|a r IH]; intros i H.
  - now rewrite take_empty.
  - destruct i as [|i]; [now rewrite take_0|].
    rewrite take_S. simpl in *. apply orb_false_iff in H as [Ha Hr].
    now rewrite Ha, IH.
Qed.

Lemma contains_stem_of_name c n :
  Str.contains c n = false -> Str.contains c (Path.stem_of_name n) = false.
Proof.
  intros H. unfold Path.stem_of_name.
  destruct (Str.rfind Str.dot n) as [i|]; [|exact H].
  destruct (Nat.ltb 0 i && Nat.ltb i (String.length n - 1)); [|exact H].
  now apply contains_take.
Qed.

Lemma parse_parts_plain s :
  List.Forall (fun x => Str.contains Str.slash x = false) (Path.parts (Path.parse s)).
Proof.
  unfold Path.parse. destruct (Path.splitroot s) as [r rel]. simpl.
  apply List.Forall_forall. intros x Hx. apply List.filter_In in Hx as [Hx _].
  pose proof (split_pieces Str.slash rel) as H.
  rewrite List.Forall_forall in H. now apply H.
Qed.

Lemma last_Forall {A} (P : A -> Prop) (l : list A) (d : A) :
  P d -> List.Forall P l -> P (List.last l d).
Proof.
  intros Hd H. induction H as [|x l Hx Hl IH]; [exact Hd|].
  simpl. destruct l; [exact Hx|exact IH].
Qed.

(** No stem holds a slash. *)
Lemma stem_parse_plain s : Str.contains Str.slash (Path.stem (Path.parse s)) = false.
Proof.
  unfold Path.stem. apply contains_stem_of_name. unfold Path.name.
  apply (last_Forall (fun x => Str.contains Str.slash x = false));
    [reflexivity|apply parse_parts_plain].
Qed.

Lemma parse_plain key :
  Str.contains Str.slash key = false -> 2 <= String.length key ->
  Path.parse key = Path.mk "" [key].
Proof.
  intros Hc Hl. unfold Path.parse.
  assert (Hr : Path.splitroot key = ("", key)).
  { destruct key as [|c r]; [reflexivity|]. simpl in Hc.
    apply orb_false_iff in Hc as [Hc _]. unfold Path.splitroot. now rewrite Hc. }
  rewrite Hr, (split_plain _ _ Hc). simpl.
  assert (Hk : Path.keep_part key = true).
  { destruct key as [|c [|c' r]]; simpl in Hl; try lia.
    unfold Path.keep_part. simpl. now destruct (Ascii.eqb c "."). }
  now rewrite Hk.
Qed.

Lemma joinpath_plain p key :
  Str.contains Str.slash key = false -> 2 <= String.length key ->
  Path.joinpath p key = Path.mk (Path.root p) (Path.parts p ++ [key]).
Proof. intros Hc Hl. unfold Path.joinpath. now rewrite (parse_plain key Hc Hl). Qed.

(** The derived directory has the parent of [output_dir] and the name
    [<stem>_formatted_output]. *)
Lemma derived_dir_sibling (out : string) :
  let p := Path.parse out in
  let derived := Path.joinpath (Path.parent p) (Path.stem p ++ "_formatted_output") in
  Path.parent derived = Path.parent p
  /\ Path.name derived = Path.stem p ++ "_formatted_output".
Proof.
  cbv zeta. rewrite joinpath_plain.
  - unfold Path.parent at 1, Path.name. simpl.
    rewrite List.removelast_last, List.last_last. now split.
  - rewrite contains_app, stem_parse_plain. reflexivity.
  - rewrite length_append. simpl. lia.
Qed.

(** C5, amended.  When [do_format] is nonzero and the directory can be
    made, the converter is called once, with the directory of line 82:
    derived from [output_dir] when [output_dir_brat] is not given or is
    the empty string, and the given path when it is given and not empty.
    The derived directory is [output_dir]'s parent joined with
    [<stem>_formatted_output], a sibling of [output_dir]. *)
Theorem formatted_output_dir (entries : list string) (s s1 : State X) (ld : @Loaded X) :
  let p := parsed (args s) in
  let out := Path.parse (output_dir p) in
  let derived := Path.joinpath (Path.parent out) (Path.stem out ++ "_formatted_output") in
  load W s = (Ok ld, s1) ->
  do_format p <> 0%Z ->
  mkdir W (output_formatted_dir p) = Ok tt ->
  exists c,
    converter_calls (snd (main W entries s)) = (converter_calls s ++ [c])%list
    /\ (output_dir_brat p = None \/ output_dir_brat p = Some "" ->
        cc_output_dir c = derived)
    /\ (forall b, output_dir_brat p = Some b -> b <> "" -> cc_output_dir c = Path.parse b)
    /\ Path.parent derived = Path.parent out
    /\ Path.name derived = Path.stem out ++ "_formatted_output".
Proof.
  intros p out derived Hl Hf Hm.
  rewrite (main_after_load W ld entries s s1 Hl), format_pass_eq. cbv zeta.
  assert (Hr : received (args (snd (loop W ld entries s1))) = received (args s)).
  { rewrite (loop_received W ld entries s1).
    pose proof (load_received W s) as H. rewrite Hl in H. exact H. }
  assert (Hp : parsed (args (snd (loop W ld entries s1))) = p)
    by (exact (f_equal (fun t => fst (fst t)) Hr)).
  assert (Hc : converter_calls (snd (loop W ld entries s1)) = converter_calls s).
  { rewrite (loop_calls W ld entries s1).
    pose proof (load_calls W s) as H. rewrite Hl in H. exact H. }
  rewrite Hp. fold p.
  destruct (Z.eqb_spec (do_format p) 0) as [E|_]; [contradiction|].
  rewrite Hm. eexists. simpl. rewrite Hc. split; [reflexivity|]. simpl.
  split; [|split; [|apply derived_dir_sibling]].
  - intros [Hb|Hb]; unfold output_formatted_dir; rewrite Hb; reflexivity.
  - intros b Hb Hne. unfold output_formatted_dir. rewrite Hb.
    destruct b; [contradiction|reflexivity].
Qed.

End FormattedDir.

Lemma formatted_output_dir_witness :
  List.map cc_output_dir
    (converter_calls (snd (main Demo.W ["doc1.txt"] (Demo.start true 1 None))))
  = [Path.mk "" ["out"; "bio_formatted_output"]]
  /\ List.map cc_output_dir
       (converter_calls (snd (main Demo.W ["doc1.txt"] (Demo.start true 1 (Some "brat/out")))))
     = [Path.mk "" ["brat"; "out"]].
Proof.
  split.
  - destruct (formatted_output_dir Demo.W ["doc1.txt"] (Demo.start true 1 None)
                (snd (load Demo.W (Demo.start true 1 None))) Demo.loaded)
      as (c & Hc & Hd & _); [reflexivity|discriminate|reflexivity|].
    rewrite Hc. simpl. rewrite Hd by (now left). reflexivity.
  - destruct (formatted_output_dir Demo.W ["doc1.txt"] (Demo.start true 1 (Some "brat/out"))
                (snd (load Demo.W (Demo.start true 1 (Some "brat/out")))) Demo.loaded)
      as (c & Hc & _ & Hb & _); [reflexivity|discriminate|reflexivity|].
    rewrite Hc. simpl. rewrite (Hb "brat/out") by (reflexivity || discriminate). reflexivity.
Defined.

(** C5 as stated fails: [--output_dir_brat] given as the empty string is
    not the directory the converter receives; line 82 tests the string's
    truth value and falls back to the derived directory. *)
Lemma formatted_output_dir_counterexample :
  output_dir_brat (Demo.parsed_args true 1 (Some "")) = Some ""
  /\ List.map cc_output_dir
       (converter_calls (snd (main Demo.W ["doc1.txt"] (Demo.start true 1 (Some "")))))
     = [Path.mk "" ["out"; "bio_formatted_output"]]
  /\ Path.mk "" ["out"; "bio_formatted_output"] <> Path.parse "".
Proof.
  split; [reflexivity|]. split; [vm_compute; reflexivity|discriminate].
Qed.

(** ** The BIO writer *)

Section Writer.

Import Realign.

Lemma str_app_assoc (a b c : string) : (a ++ b) ++ c = a ++ b ++ c.
Proof.
  induction a as [|x a IH]; [reflexivity|].
  rewrite !app_cons. now rewrite IH.
Qed.
















(** *** Truncation and the markers *)


(** When it is not, some word has no marker. *)
Lemma markers_from_outside (tk : tokenization) (room : nat) (ws : sentence) :
  forall pos,
    ws <> [] ->
    room <= pos + list_sum (List.map (pieces tk) (List.removelast ws)) ->
    List.length (markers_from tk room pos ws) < List.length ws.
Proof.
  induction ws as [|w rest IH]; intros pos Hne H; [contradiction|].
  simpl. destruct (Nat.ltb pos room) eqn:Hb; [|simpl; lia].
  apply Nat.ltb_lt in Hb.
  destruct rest as [|w' rest']; [simpl in H; lia|].
  change (List.removelast (w :: w' :: rest')) with (w :: List.removelast (w' :: rest')) in H.
  simpl in H.
  assert (IH' := IH (pos + pieces tk w) ltac:(discriminate) ltac:(simpl; lia)).
  simpl. simpl in IH'. lia.
Qed.


Lemma cut_off_markers (tk : tokenization) (max_seq_len : nat) (ws : sentence) :
  starts_inside tk max_seq_len ws = false ->
  List.length (markers tk max_seq_len ws) < List.length ws.
Proof.
  intros H. unfold markers. destruct ws as [|w rest]; [discriminate|].
  apply markers_from_outside; [discriminate|]. now apply Nat.ltb_ge in H.
Qed.



(** A sentence with a word cut off is not realigned, whatever is
    predicted for it. *)
Lemma cut_off_not_realigned (vocab : gmap Z string) (tk : tokenization) (max_seq_len : nat)
    (examples : list sentence) (preds : list (list nat * list Z)) :
  List.forallb (starts_inside tk max_seq_len) examples = false ->
  List.map fst preds = List.map (markers tk max_seq_len) examples ->
  realign vocab examples preds = None.
Proof.
  revert preds. induction examples as [|ws es IH]; intros [|[al pr] ps] Hin H; simpl in *;
    try discriminate; try reflexivity.
  injection H as Hal Hrest. subst al.
  unfold realign_sentence.
  destruct (starts_inside tk max_seq_len ws) eqn:Hw.
  - simpl in Hin. rewrite (IH ps Hin Hrest).
    destruct (Nat.eqb _ _); [|reflexivity].
    now destruct (word_labels vocab _ pr).
  - pose proof (cut_off_markers tk max_seq_len ws Hw) as Hlt.
    destruct (Nat.eqb_spec (List.length (markers tk max_seq_len ws)) (List.length ws));
      [lia|reflexivity].
Qed.

End Writer.

Section WriterInTheLoop.

Import Realign.

Context {X : Externals} (W : World X) (ld : @Loaded X).
Context (vocab : gmap Z string) (tk : tokenization).
Context (features_view : Features X -> list feature).
Context (predictions_view : Predictions X -> list (list nat * list Z)).


(** The contract leaves no other file with [N] entries: when a word of
    the file is cut off, the writer fails and so does the [try] body,
    which has then written nothing. *)
Lemma cut_off_file_fails (each_file : Path.t) (s : State X)
    (examples : list sentence) (ft : Features X) (pr : Predictions X) :
  let a := args s in
  let p := parsed a in
  follows_spec W vocab tk features_view predictions_view ->
  get_test_examples W (ld_processor ld) (Path.name each_file) (use_bio p) = Ok examples ->
  List.forallb (starts_inside tk (Z.to_nat (max_seq_length p))) examples = false ->
  transformer_convert_data_to_features W a examples (ld_label2idx ld) (ld_tokenizer ld)
    (max_seq_length p) = Ok ft ->
  predict W a (ld_model ld) ft = Ok pr ->
  realign vocab examples (predictions_view pr) = None
  /\ (exists e, fst (try_body W ld each_file s) = Raise e)
  /\ files (snd (try_body W ld each_file s)) = files s.
Proof.
  intros a p Hspec Hex Hin Hft Hpr. subst p a.
  pose proof (spec_predict W _ _ _ _ Hspec (args s) (ld_model ld) ft pr Hpr) as Hal.
  rewrite (spec_features W _ _ _ _ Hspec (args s) examples _ _ _ ft Hft) in Hal.
  assert (Hm : List.map fst (predictions_view pr)
               = List.map (markers tk (Z.to_nat (max_seq_length (parsed (args s))))) examples).
  { clear - Hal. revert Hal. generalize (predictions_view pr) as preds.
    induction examples as [|ws es IH]; intros preds H; inversion H; subst; [reflexivity|].
    simpl. f_equal; [tauto|now apply IH]. }
  pose proof (cut_off_not_realigned vocab tk _ examples _ Hin Hm) as Hnone.
  split; [exact Hnone|].
  pose proof (spec_writer W _ _ _ _ Hspec examples pr) as Hw. rewrite Hnone in Hw.
  destruct Hw as [e He].
  rewrite try_body_eq. cbv zeta. rewrite Hex, Hft, Hpr, He.
  destruct (use_bio _); [destruct (mkdir W _)|]; simpl; split; try reflexivity; eauto.
Qed.

End WriterInTheLoop.

Section TruncatingWorld.

Import Realign.



End TruncatingWorld.



(** The scenario of the specification: the text written for [doc1.txt]. *)
Example doc1_bio_text :
  Realign.realign (invert_labels Demo.labels) Demo.doc1
    [([1; 2; 3; 4], [0; 1; 0; 0; 2; 0]%Z)]
  = Some [[Token "John" 0 4 "B-PER"; Token "lives" 5 10 "O";
           Token "in" 11 13 "O"; Token "Paris" 14 19 "B-LOC"]]
  /\ Str.split Realign.newline
       (bio_text [[Token "John" 0 4 "B-PER"; Token "lives" 5 10 "O";
                   Token "in" 11 13 "O"; Token "Paris" 14 19 "B-LOC"]])
     = [ String.concat (String "009"%char "") ["John"; "B-PER"];
         String.concat (String "009"%char "") ["lives"; "O"];
         String.concat (String "009"%char "") ["in"; "O"];
         String.concat (String "009"%char "") ["Paris"; "B-LOC"];
         ""; "" ].
Proof. vm_compute. split; reflexivity. Qed.

(** ** An empty directory *)

Section EmptyDirectory.

Context {X : Externals} (W : World X).

Lemma loop_no_files (ld : @Loaded X) (entries : list string) (s : State X) :
  glob_txt entries = [] ->
  loop W ld entries s = (Ok tt, with_labeled (fun _ => ∅) s).
Proof. intros H. rewrite loop_eq, H. reflexivity. Qed.

(** C7.  When no entry of the directory matches [*.txt] and the model
    loads, the run writes no BIO file and logs nothing; it ends normally
    when no formatting is asked for, and also when the formatted-output
    directory can be made and the converter returns. *)
Theorem empty_directory (entries : list string) (s s1 : State X) (ld : @Loaded X) :
  let p := parsed (args s) in
  glob_txt entries = [] ->
  load W s = (Ok ld, s1) ->
  do_format p = 0%Z
  \/ (mkdir W (output_formatted_dir p) = Ok tt
      /\ format_converter W (converter_call_of p (output_formatted_dir p) ∅) = Ok tt) ->
  fst (main W entries s) = Ok tt
  /\ files (snd (main W entries s)) = files s
  /\ log (snd (main W entries s)) = log s.
Proof.
  intros p Hg Hl Hf.
  rewrite (main_after_load W ld entries s s1 Hl), (loop_no_files ld entries s1 Hg).
  simpl snd.
  assert (H1 : received (args s1) = received (args s))
    by (pose proof (load_received W s) as H; now rewrite Hl in H).
  assert (Hp : parsed (args s1) = p) by (exact (f_equal (fun t => fst (fst t)) H1)).
  split; [|split].
  - rewrite format_pass_eq. cbv zeta. simpl. rewrite Hp.
    destruct Hf as [Hz|[Hm Hc]].
    + now rewrite Hz.
    + destruct (Z.eqb (do_format p) 0); [reflexivity|]. rewrite Hm. exact Hc.
  - rewrite (format_pass_files W). simpl.
    pose proof (load_files W s) as H. now rewrite Hl in H.
  - rewrite (format_pass_log W). simpl.
    pose proof (load_log W s) as H. now rewrite Hl in H.
Qed.

End EmptyDirectory.

Lemma empty_directory_witness :
  fst (main Demo.W ["README"; "notes.md"] (Demo.start true 1 None)) = Ok tt
  /\ files (snd (main Demo.W ["README"; "notes.md"] (Demo.start true 1 None))) = ∅
  /\ log (snd (main Demo.W ["README"; "notes.md"] (Demo.start true 1 None))) = [].
Proof.
  apply (empty_directory Demo.W ["README"; "notes.md"] (Demo.start true 1 None)
           (snd (load Demo.W (Demo.start true 1 None))) Demo.loaded).
  - reflexivity.
  - reflexivity.
  - right. split; reflexivity.
Defined.

(** ** The version of [transformers] *)

Section VersionGate.

Context {X : Externals} (W : World X).

Lemma version_lt_not_ge (v w : Version.t) : Version.lt v w = negb (Version.ge v w).
Proof. unfold Version.lt, Version.ge. now destruct (Version.compare v w). Qed.

(** C8.  A version of [transformers] below 3.0.0 ends the script with the
    assertion's error before a logger, a namespace or a run state exists,
    so before any file is processed; with a version of at least 3.0.0 the
    script is its [__main__] block. *)
Theorem version_gate (installed : Version.t) (p : Parsed) (entries : list string) :
  (Version.lt installed required_version = true ->
   script W installed p entries
   = (Raise (Exception "AssertionError" (version_message installed)), None))
  /\ (Version.ge installed required_version = true ->
      script W installed p entries = dunder_main W p entries).
Proof.
  unfold script. rewrite version_lt_not_ge.
  destruct (Version.ge installed required_version); split; intros H;
    (discriminate || reflexivity).
Qed.

End VersionGate.

Example version_order :
  Version.lt (Version.final [2; 11; 0]%N) required_version = true
  /\ Version.lt (Version.mk 0 [3; 0; 0]%N (Some (Version.RC, 1%N)) None None)
       required_version = true
  /\ Version.lt (Version.mk 0 [3; 0; 0]%N None None (Some 0%N)) required_version = true
  /\ Version.ge (Version.final [3; 0]%N) required_version = true
  /\ Version.ge (Version.final [3; 0; 1]%N) required_version = true
  /\ Version.ge (Version.final [4; 30; 2]%N) required_version = true.
Proof. repeat split. Qed.

Lemma version_gate_witness :
  script Demo.W (Version.final [2; 11; 0]%N) (Demo.parsed_args true 0 None) ["doc1.txt"]
  = (Raise (Exception "AssertionError"
       "we now only support transformers version >=3.0.0, but your version is 2.11.0"),
     None)
  /\ script Demo.W (Version.final [4; 30; 2]%N) (Demo.parsed_args true 0 None) ["doc1.txt"]
     = dunder_main Demo.W (Demo.parsed_args true 0 None) ["doc1.txt"].
Proof.
  split.
  - rewrite (proj1 (version_gate Demo.W (Version.final [2; 11; 0]%N)
                      (Demo.parsed_args true 0 None) ["doc1.txt"])); reflexivity.
  - apply (proj2 (version_gate Demo.W (Version.final [4; 30; 2]%N)
                    (Demo.parsed_args true 0 None) ["doc1.txt"])). reflexivity.
Defined.

(** ** Two files, one output path *)

Section Collision.

Context {X : Externals} (W : World X) (ld : @Loaded X).

(** C9.  The output name of a file is what precedes the first dot of its
    name, followed by [.bio.txt], so distinct files can share one: the
    map from input names to output paths is not injective.  Two files
    whose names agree before the first dot get the same output path, and
    when both are processed with [use_bio] the path ends up holding the
    sentences of the later one: the earlier file's output is overwritten. *)
Theorem output_name_collision (dir : Path.t) (n1 n2 : string) (s s1 s2 : State X) :
  before_first_dot n1 = before_first_dot n2 ->
  use_bio (parsed (args s)) = true ->
  try_body W ld (Path.child dir n1) s = (Ok tt, s1) ->
  try_body W ld (Path.child dir n2) s1 = (Ok tt, s2) ->
  (exists a b : string, a <> b /\ ofn (Path.child dir a) = ofn (Path.child dir b))
  /\ ofn (Path.child dir n1) = before_first_dot n1 ++ ".bio.txt"
  /\ ofn (Path.child dir n2) = ofn (Path.child dir n1)
  /\ bio_path (args s1) (Path.child dir n2) = bio_path (args s) (Path.child dir n1)
  /\ exists sents1 tests2 preds2 sents2,
       files s1 = <[bio_path (args s) (Path.child dir n1) := bio_text sents1]> (files s)
       /\ get_test_examples W (ld_processor ld) n2 true = Ok tests2
       /\ bio_sentences W tests2 preds2 = Ok sents2
       /\ files s2 = <[bio_path (args s) (Path.child dir n1) := bio_text sents2]> (files s).
Proof.
  intros Hn Hb H1 H2.
  assert (Ho1 : ofn (Path.child dir n1) = before_first_dot n1 ++ ".bio.txt")
    by (now rewrite ofn_before_first_dot, name_child).
  assert (Ho2 : ofn (Path.child dir n2) = ofn (Path.child dir n1))
    by (now rewrite !ofn_before_first_dot, !name_child, Hn).
  destruct (try_body_use_bio W ld _ _ _ Hb H1)
    as (tests1 & feats1 & preds1 & sents1 & _ & _ & _ & _ & Hf1 & _ & _ & Hp1 & _).
  assert (Hb1 : use_bio (parsed (args s1)) = true) by (now rewrite Hp1).
  destruct (try_body_use_bio W ld _ _ _ Hb1 H2)
    as (tests2 & feats2 & preds2 & sents2 & Hg2 & _ & _ & Hs2 & Hf2 & _).
  assert (Hpath : bio_path (args s1) (Path.child dir n2)
                  = bio_path (args s) (Path.child dir n1))
    by (unfold bio_path; now rewrite Hp1, Ho2).
  split.
  { exists "doc.txt", "doc.note.txt". split; [discriminate|].
    now rewrite !ofn_before_first_dot, !name_child. }
  repeat split; try assumption.
  exists sents1, tests2, preds2, sents2. rewrite name_child in Hg2.
  repeat split; try assumption.
  rewrite Hf2, Hpath, Hf1. apply insert_insert_eq.
Qed.

End Collision.

Lemma output_name_collision_witness :
  ofn (Path.child (Path.parse "in") "doc.txt") = "doc.bio.txt"
  /\ ofn (Path.child (Path.parse "in") "doc.note.txt") = "doc.bio.txt"
  /\ files (snd (main Demo.W ["doc.txt"; "doc.note.txt"] (Demo.start true 0 None)))
     = {[ "out/bio/doc.bio.txt" := bio_text [[Token "Paris" 0 5 "B-LOC"]] ]}.
Proof.
  pose (s := snd (load Demo.W (Demo.start true 0 None))).
  pose (s1 := snd (try_body Demo.W Demo.loaded (Path.child (Path.parse "in") "doc.txt") s)).
  pose (s2 := snd (try_body Demo.W Demo.loaded (Path.child (Path.parse "in") "doc.note.txt") s1)).
  destruct (output_name_collision Demo.W Demo.loaded (Path.parse "in")
              "doc.txt" "doc.note.txt" s s1 s2)
    as (_ & Ho1 & Ho2 & _ & sents1 & tests2 & preds2 & sents2 & _ & Hg & Hs & Hf);
    [vm_compute; reflexivity ..|].
  split; [exact Ho1|]. split; [now rewrite Ho2|].
  vm_compute. reflexivity.
Defined.

(** ** A file whose text cannot be read *)

Section PartialEntry.

Context {X : Externals} (W : World X) (ld : @Loaded X).

(** Processing a file touches the accumulator at the file's name only. *)
Lemma process_file_labeled_other (f : Path.t) (s : State X) (k : string) :
  k <> Path.name f ->
  labeled_bio_tup_lst (snd (process_file W ld f s)) !! k = labeled_bio_tup_lst s !! k.
Proof.
  intros Hk. rewrite process_file_eq, try_body_eq. cbv zeta.
  destruct (get_test_examples W _ _ _); [|reflexivity].
  destruct (transformer_convert_data_to_features W _ _ _ _ _); [|reflexivity].
  destruct (predict W _ _ _); [|reflexivity].
  destruct (use_bio (parsed (args s))).
  - destruct (mkdir W _); [|reflexivity]. now destruct (bio_sentences W _ _).
  - destruct (bio_sentences W _ _); [|reflexivity].
    destruct (read_text W f); simpl; now rewrite !setitem2_other.
Qed.

(** Without [use_bio] the loop assigns nothing on [args]. *)
Lemma process_file_args (f : Path.t) (s : State X) :
  use_bio (parsed (args s)) = false -> args (snd (process_file W ld f s)) = args s.
Proof.
  intros Hb. rewrite process_file_eq, try_body_eq. cbv zeta. rewrite Hb.
  destruct (get_test_examples W _ _ _); [|reflexivity].
  destruct (transformer_convert_data_to_features W _ _ _ _ _); [|reflexivity].
  destruct (predict W _ _ _); [|reflexivity].
  destruct (bio_sentences W _ _); [|reflexivity].
  now destruct (read_text W f).
Qed.

(** The log only grows. *)
Lemma process_file_log (f : Path.t) (s : State X) :
  exists m, log (snd (process_file W ld f s)) = (log s ++ m)%list.
Proof.
  destruct (fst (try_body W ld f s)) as [[]|e] eqn:E.
  - exists []. rewrite List.app_nil_r. now apply process_file_log_ok.
  - exists (failure_log W f e). now apply process_file_log_raise.
Qed.

Lemma files_loop_labeled_other (l : list Path.t) (s : State X) (k : string) :
  ~ List.In k (List.map Path.name l) ->
  labeled_bio_tup_lst (snd (for_each l (process_file W ld) s)) !! k
  = labeled_bio_tup_lst s !! k.
Proof.
  revert s. induction l as [|f l IH]; intros s Hk; [reflexivity|].
  rewrite files_loop_cons, IH.
  - apply process_file_labeled_other. intros ->. apply Hk. now left.
  - intros Hin. apply Hk. now right.
Qed.

Lemma files_loop_args (l : list Path.t) (s : State X) :
  use_bio (parsed (args s)) = false ->
  args (snd (for_each l (process_file W ld) s)) = args s.
Proof.
  revert s. induction l as [|f l IH]; intros s Hb; [reflexivity|].
  rewrite files_loop_cons, IH; rewrite process_file_args; auto.
Qed.

Lemma files_loop_log (l : list Path.t) (s : State X) :
  exists m, log (snd (for_each l (process_file W ld) s)) = (log s ++ m)%list.
Proof.
  revert s. induction l as [|f l IH]; intros s.
  - exists []. now rewrite List.app_nil_r.
  - rewrite files_loop_cons.
    destruct (IH (snd (process_file W ld f s))) as [m Hm].
    destruct (process_file_log f s) as [m' Hm'].
    exists (m' ++ m)%list. now rewrite Hm, Hm', List.app_assoc.
Qed.

Lemma names_of_children (dir : Path.t) (l : list string) :
  List.map Path.name (List.map (Path.child dir) l) = l.
Proof.
  induction l as [|n l IH]; [reflexivity|]. simpl. now rewrite name_child, IH.
Qed.

(** The state a file leaves when its sentences are computed and its text
    cannot be read. *)
Lemma process_file_unreadable (f : Path.t) (s : State X) tests feats preds sents e :
  use_bio (parsed (args s)) = false ->
  get_test_examples W (ld_processor ld) (Path.name f) false = Ok tests ->
  transformer_convert_data_to_features W (args s) tests (ld_label2idx ld)
    (ld_tokenizer ld) (max_seq_length (parsed (args s))) = Ok feats ->
  predict W (args s) (ld_model ld) feats = Ok preds ->
  bio_sentences W tests preds = Ok sents ->
  read_text W f = Raise e ->
  labeled_bio_tup_lst (snd (process_file W ld f s))
  = setitem2 (Path.name f) "sents" (VSents sents) (labeled_bio_tup_lst s)
  /\ log (snd (process_file W ld f s)) = (log s ++ failure_log W f e)%list.
Proof.
  intros Hb H1 H2 H3 H4 H5.
  rewrite process_file_eq, try_body_eq. cbv zeta.
  rewrite Hb, H1, H2, H3, H4, H5. simpl. split; [reflexivity|].
  unfold failure_log. now rewrite <- List.app_assoc.
Qed.

(** C10, amended.  Without [use_bio], when the sentences of a file are
    computed and reading its text raises, the accumulator ends the run
    with an entry for the file that holds ['sents'] and no ['raw_text'],
    and the log holds the failure's two records.  When [do_format] is
    nonzero and the formatted-output directory can be made, the
    accumulator passed to the converter has that entry. *)
Theorem partial_entry_kept (entries : list string) (n : string) (s s1 : State X)
    (tests : list sentence) (feats : Features X) (preds : Predictions X)
    (sents : list sentence) (e : exn) :
  let p := parsed (args s) in
  let each_file := Path.child (Path.parse (preprocessed_text_dir p)) n in
  let final := snd (main W entries s) in
  load W s = (Ok ld, s1) ->
  use_bio p = false ->
  List.NoDup entries ->
  List.In n (glob_txt entries) ->
  get_test_examples W (ld_processor ld) n false = Ok tests ->
  transformer_convert_data_to_features W (args s1) tests (ld_label2idx ld)
    (ld_tokenizer ld) (max_seq_length p) = Ok feats ->
  predict W (args s1) (ld_model ld) feats = Ok preds ->
  bio_sentences W tests preds = Ok sents ->
  read_text W each_file = Raise e ->
  labeled_bio_tup_lst final !! n = Some (sents_only sents)
  /\ sents_only sents !! "raw_text" = None
  /\ (exists pre post, log final = (pre ++ failure_log W each_file e ++ post)%list)
  /\ (do_format p <> 0%Z -> mkdir W (output_formatted_dir p) = Ok tt ->
      exists c, converter_calls final = (converter_calls s ++ [c])%list
                /\ cc_labeled_bio_tup_lst c !! n = Some (sents_only sents)).
Proof.
  intros p each_file final Hl Hb Hnd Hin H1 H2 H3 H4 H5.
  assert (Hr1 : received (args s1) = received (args s))
    by (pose proof (load_received W s) as H; now rewrite Hl in H).
  assert (Hp1 : parsed (args s1) = p) by (exact (f_equal (fun t => fst (fst t)) Hr1)).
  assert (Hc1 : converter_calls s1 = converter_calls s)
    by (pose proof (load_calls W s) as H; now rewrite Hl in H).
  (* the files before and after the unreadable one *)
  assert (Hnd' : List.NoDup (glob_txt entries)) by (now apply List.NoDup_filter).
  destruct (List.in_split _ _ Hin) as (l1 & l2 & Hsplit).
  rewrite Hsplit in Hnd'. apply List.NoDup_remove_2 in Hnd'.
  assert (Hn1 : ~ List.In n l1) by (intros H; apply Hnd', List.in_or_app; now left).
  assert (Hn2 : ~ List.In n l2) by (intros H; apply Hnd', List.in_or_app; now right).
  set (dir := Path.parse (preprocessed_text_dir p)) in *.
  set (s0 := with_labeled (fun _ => ∅) s1).
  set (sa := snd (for_each (List.map (Path.child dir) l1) (process_file W ld) s0)).
  set (sb := snd (process_file W ld each_file sa)).
  set (sc := snd (for_each (List.map (Path.child dir) l2) (process_file W ld) sb)).
  assert (Hloop : snd (loop W ld entries s1) = sc).
  { rewrite loop_eq, Hsplit, Hp1. fold dir. rewrite List.map_app, files_loop_app.
    simpl List.map. rewrite files_loop_cons. reflexivity. }
  assert (Hb0 : use_bio (parsed (args s0)) = false) by (simpl; now rewrite Hp1).
  assert (Ha : args sa = args s1) by (unfold sa; now rewrite files_loop_args).
  assert (Hla : labeled_bio_tup_lst sa !! n = None).
  { unfold sa. rewrite files_loop_labeled_other by (now rewrite names_of_children).
    apply lookup_empty. }
  destruct (process_file_unreadable each_file sa tests feats preds sents e)
    as [Hlb Hgb].
  { now rewrite Ha, Hp1. }
  { unfold each_file. now rewrite name_child. }
  { now rewrite Ha, Hp1. }
  { now rewrite Ha. }
  { assumption. }
  { assumption. }
  fold sb in Hlb, Hgb.
  assert (Hlc : labeled_bio_tup_lst sc !! n = Some (sents_only sents)).
  { unfold sc. rewrite files_loop_labeled_other by (now rewrite names_of_children).
    rewrite Hlb. unfold each_file. rewrite name_child. unfold setitem2.
    rewrite lookup_insert_eq, Hla. reflexivity. }
  assert (Hfinal : final = snd (format_pass W sc)).
  { unfold final. now rewrite (main_after_load W ld entries s s1 Hl), Hloop. }
  split; [|split; [reflexivity|split]].
  - rewrite Hfinal, (format_pass_labeled W sc). exact Hlc.
  - rewrite Hfinal, (format_pass_log W sc).
    destruct (files_loop_log (List.map (Path.child dir) l2) sb) as [m Hm].
    fold sc in Hm. exists (log sa), m. rewrite Hm, Hgb.
    now rewrite <- List.app_assoc.
  - intros Hf Hm. rewrite Hfinal, format_pass_eq. cbv zeta.
    assert (Hpc : parsed (args sc) = p).
    { rewrite <- Hloop.
      exact (f_equal (fun t => fst (fst t))
               (eq_trans (loop_received W ld entries s1) Hr1)). }
    rewrite Hpc.
    destruct (Z.eqb_spec (do_format p) 0) as [E|_]; [contradiction|].
    assert (Hcc : converter_calls sc = converter_calls s)
      by (now rewrite <- Hloop, (loop_calls W ld entries s1)).
    rewrite Hm. eexists. simpl. rewrite Hcc. split; [reflexivity|exact Hlc].
Qed.

End PartialEntry.

Lemma partial_entry_kept_witness :
  labeled_bio_tup_lst
    (snd (main Demo.W ["doc1.txt"; "unreadable.txt"; "doc.txt"] (Demo.start false 1 None)))
    !! "unreadable.txt"
  = Some (sents_only [[Token "John" 0 4 "B-PER"]])
  /\ exists c,
       converter_calls
         (snd (main Demo.W ["doc1.txt"; "unreadable.txt"; "doc.txt"] (Demo.start false 1 None)))
       = [c]
       /\ cc_labeled_bio_tup_lst c !! "unreadable.txt"
          = Some (sents_only [[Token "John" 0 4 "B-PER"]]).
Proof.
  destruct (partial_entry_kept Demo.W Demo.loaded
              ["doc1.txt"; "unreadable.txt"; "doc.txt"] "unreadable.txt"
              (Demo.start false 1 None) (snd (load Demo.W (Demo.start false 1 None)))
              [[Demo.word "John" 0 4]] [[Demo.word "John" 0 4]]
              [Demo.predict_sentence [Demo.word "John" 0 4]]
              [[Token "John" 0 4 "B-PER"]]
              (Exception "UnicodeDecodeError" "invalid start byte"))
    as (Hl & _ & _ & Hc); try reflexivity.
  - repeat constructor; simpl; intuition discriminate.
  - simpl. auto.
  - split; [exact Hl|]. apply Hc; [discriminate|reflexivity].
Defined.

(** C10 as stated fails: with [do_format] zero the converter is not called,
    so the entry that holds ['sents'] alone is passed to nothing. *)
Lemma partial_entry_not_passed :
  labeled_bio_tup_lst
    (snd (main Demo.W ["unreadable.txt"] (Demo.start false 0 None))) !! "unreadable.txt"
  = Some (sents_only [[Token "John" 0 4 "B-PER"]])
  /\ log (snd (main Demo.W ["unreadable.txt"] (Demo.start false 0 None)))
     = [ (ERROR, "Encountered an error when processing predictions for file: unreadable.txt");
         (ERROR, "UnicodeDecodeError: invalid start byte") ]
  /\ converter_calls (snd (main Demo.W ["unreadable.txt"] (Demo.start false 0 None))) = [].
Proof. evaluate. Qed.

(** * Further properties of the script *)

(** ** The inverse label map (lines 32 to 36) *)

Section LabelMaps.

Lemma invert_labels_snoc (items : list (string * Z)) (k : string) (v : Z) :
  invert_labels (items ++ [(k, v)])%list = <[v := k]> (invert_labels items).
Proof. unfold invert_labels. now rewrite List.fold_left_app. Qed.

(** Every entry of [idx2label] is an item of [label2idx], turned round. *)
Lemma invert_labels_sound (items : list (string * Z)) (k : string) (v : Z) :
  invert_labels items !! v = Some k -> List.In (k, v) items.
Proof.
  induction items as [|[k' v'] items IH] using List.rev_ind; intros H.
  - unfold invert_labels in H. simpl in H. now rewrite lookup_empty in H.
  - rewrite invert_labels_snoc in H. apply List.in_or_app.
    destruct (decide (v' = v)) as [->|Hne].
    + rewrite lookup_insert_eq in H. injection H as ->. right. now left.
    + rewrite lookup_insert_ne in H by assumption. left. now apply IH.
Qed.

(** X1.  When the ids of [label2idx] are pairwise distinct, [idx2label]
    takes the id of every label back to the label:
    [idx2label[label2idx[k]] == k].  In any case an entry of [idx2label]
    is an item of [label2idx] turned round. *)
Theorem idx2label_inverts_label2idx (items : list (string * Z)) :
  List.NoDup (List.map snd items) ->
  (forall k v, List.In (k, v) items -> invert_labels items !! v = Some k)
  /\ (forall k v, invert_labels items !! v = Some k -> List.In (k, v) items).
Proof.
  intros Hnd. split; [|apply invert_labels_sound].
  induction items as [|[k' v'] items IH] using List.rev_ind; intros k v Hin.
  - destruct Hin.
  - rewrite invert_labels_snoc. rewrite List.map_app in Hnd. simpl in Hnd.
    apply List.in_app_or in Hin as [Hin|[Heq|[]]].
    + assert (Hne : v' <> v).
      { intros ->. apply List.NoDup_remove_2 in Hnd. rewrite List.app_nil_r in Hnd.
        apply Hnd. change v with (snd (k, v)). now apply List.in_map. }
      rewrite lookup_insert_ne by assumption. apply IH; [|assumption].
      apply List.NoDup_remove_1 in Hnd. now rewrite List.app_nil_r in Hnd.
    + injection Heq as -> ->. apply lookup_insert_eq.
Qed.

Lemma invert_labels_app (items more : list (string * Z)) :
  invert_labels (items ++ more)%list
  = List.fold_left (fun m kv => <[snd kv := fst kv]> m) more (invert_labels items).
Proof. unfold invert_labels. now rewrite List.fold_left_app. Qed.

(** Items with other ids leave an id's entry as it is. *)
Lemma later_items_keep (more : list (string * Z)) (m : gmap Z string) (v : Z) :
  ~ List.In v (List.map snd more) ->
  List.fold_left (fun m kv => <[snd kv := fst kv]> m) more m !! v = m !! v.
Proof.
  revert m. induction more as [|[k' v'] more IH]; intros m Hn; [reflexivity|].
  simpl in *. rewrite IH by tauto. apply lookup_insert_ne. tauto.
Qed.

(** X2.  [idx2label] has at most [num_labels] entries, and exactly
    [num_labels] when the ids are pairwise distinct; of the labels that
    share an id, the one listed last in [label2idx] is the one
    [idx2label] keeps for that id. *)
Theorem idx2label_size (items : list (string * Z)) :
  size (invert_labels items) <= List.length items
  /\ (List.NoDup (List.map snd items) -> size (invert_labels items) = List.length items)
  /\ (forall before k v after,
        items = (before ++ (k, v) :: after)%list ->
        ~ List.In v (List.map snd after) ->
        invert_labels items !! v = Some k).
Proof.
  split; [|split].
  - induction items as [|[k v] items IH] using List.rev_ind; [reflexivity|].
    rewrite invert_labels_snoc, List.length_app. simpl.
    destruct (invert_labels items !! v) eqn:E.
    + rewrite map_size_insert_Some by eauto. lia.
    + rewrite map_size_insert_None by assumption. lia.
  - induction items as [|[k v] items IH] using List.rev_ind; intros Hnd; [reflexivity|].
    rewrite invert_labels_snoc, List.length_app. simpl.
    rewrite List.map_app in Hnd. simpl in Hnd.
    pose proof (List.NoDup_remove_2 _ _ _ Hnd) as Hv.
    apply List.NoDup_remove_1 in Hnd. rewrite List.app_nil_r in Hnd, Hv.
    rewrite map_size_insert_None.
    + rewrite (IH Hnd). lia.
    + destruct (invert_labels items !! v) as [k'|] eqn:E; [|reflexivity].
      exfalso. apply Hv. apply invert_labels_sound in E.
      change v with (snd (k', v)). now apply List.in_map.
  - intros before k v after -> Hlast.
    change (before ++ (k, v) :: after)%list with (before ++ [(k, v)] ++ after)%list.
    rewrite List.app_assoc, invert_labels_app, later_items_keep by assumption.
    rewrite invert_labels_snoc. apply lookup_insert_eq.
Qed.

End LabelMaps.

Lemma idx2label_inverts_label2idx_witness :
  invert_labels Demo.labels !! 1%Z = Some "B-PER"
  /\ invert_labels Demo.labels !! 2%Z = Some "B-LOC".
Proof.
  destruct (idx2label_inverts_label2idx Demo.labels) as [H _].
  - repeat constructor; simpl; intuition discriminate.
  - split; apply H; simpl; auto.
Defined.

Example idx2label_duplicate_id :
  invert_labels [("O", 0%Z); ("B-PER", 1%Z); ("I-PER", 1%Z)] !! 1%Z = Some "I-PER"
  /\ size (invert_labels [("O", 0%Z); ("B-PER", 1%Z); ("I-PER", 1%Z)]) = 2.
Proof. split; reflexivity. Qed.

Lemma idx2label_size_witness :
  size (invert_labels Demo.labels) = 3
  /\ invert_labels [("B-PER", 1%Z); ("I-PER", 1%Z); ("O", 0%Z)] !! 1%Z = Some "I-PER".
Proof.
  split.
  - apply (proj1 (proj2 (idx2label_size Demo.labels))).
    repeat constructor; simpl; intuition discriminate.
  - apply (proj2 (proj2 (idx2label_size [("B-PER", 1%Z); ("I-PER", 1%Z); ("O", 0%Z)]))
             [("B-PER", 1%Z)] "I-PER" 1%Z [("O", 0%Z)]).
    + reflexivity.
    + simpl. intros [H|[]]. discriminate.
Defined.

(** ** Failures outside the loop (lines 32 to 54 and 81 to 90) *)

Ltac leaves :=
  repeat first
    [ apply unchanged_ret
    | apply unchanged_lift
    | apply unchanged_get_args
    | apply unchanged_modify; intros ?; reflexivity
    | apply unchanged_bind; [|intros ?]
    | apply unchanged_try_except; [|intros ?]
    | apply unchanged_for_each; intros ?
    | match goal with
      | |- unchanged _ (if ?b then _ else _) => destruct b
      | |- unchanged _ (match ?x with _ => _ end) => destruct x
      end ].

Section OutsideTheLoop.

Context {X : Externals} (W : World X).

Lemma load_labeled : unchanged labeled_bio_tup_lst (load W).
Proof. unfold load, setattr. cbv zeta. leaves. Qed.

Lemma load_dirs : unchanged dirs (load W).
Proof. unfold load, setattr. cbv zeta. leaves. Qed.

Lemma main_load_raises (entries : list string) (s : State X) (e : exn) :
  fst (load W s) = Raise e -> main W entries s = (Raise e, snd (load W s)).
Proof.
  intros H. unfold main, bind at 1.
  destruct (load W s) as [[ld|e'] s1]; simpl in *; [discriminate|]. now injection H as ->.
Qed.

(** X3.  An exception of the loading steps (the label file, the model
    classes, the tokenizer, the configuration, the model) is not caught:
    [main] raises it, and has then processed no file, written nothing,
    logged nothing and called no converter. *)
Theorem load_failure_is_fatal (entries : list string) (s : State X) (e : exn) :
  fst (load W s) = Raise e ->
  fst (main W entries s) = Raise e
  /\ files (snd (main W entries s)) = files s
  /\ dirs (snd (main W entries s)) = dirs s
  /\ labeled_bio_tup_lst (snd (main W entries s)) = labeled_bio_tup_lst s
  /\ log (snd (main W entries s)) = log s
  /\ converter_calls (snd (main W entries s)) = converter_calls s.
Proof.
  intros H. rewrite (main_load_raises entries s e H). simpl.
  split; [reflexivity|].
  rewrite (load_files W s), (load_dirs s), (load_labeled s), (load_log W s), (load_calls W s).
  repeat split.
Qed.

Lemma loop_parsed (ld : @Loaded X) (entries : list string) (s : State X) :
  parsed (args (snd (loop W ld entries s))) = parsed (args s).
Proof. exact (f_equal (fun t => fst (fst t)) (loop_received W ld entries s)). Qed.

Lemma load_parsed (s s1 : State X) (ld : @Loaded X) :
  load W s = (Ok ld, s1) -> parsed (args s1) = parsed (args s).
Proof.
  intros Hl. pose proof (load_received W s) as H. rewrite Hl in H.
  exact (f_equal (fun t => fst (fst t)) H).
Qed.

Lemma main_calls_no_format (entries : list string) (s : State X) :
  do_format (parsed (args s)) = 0%Z ->
  converter_calls (snd (main W entries s)) = converter_calls s.
Proof.
  intros Hz. destruct (load W s) as [[ld|e] s1] eqn:Hl.
  - rewrite (main_after_load W ld entries s s1 Hl), format_pass_eq. cbv zeta.
    rewrite loop_parsed, (load_parsed s s1 ld Hl), Hz. simpl.
    rewrite (loop_calls W ld entries s1).
    pose proof (load_calls W s) as H. now rewrite Hl in H.
  - rewrite (main_load_raises entries s e) by (now rewrite Hl).
    apply (load_calls W s).
Qed.

(** X4.  With [do_format] zero the converter is never called, whatever
    the collaborators do; and once the model is loaded the run is the
    loop alone, so [main] returns normally however many files fail. *)
Theorem no_format_no_converter (entries : list string) (s : State X) :
  do_format (parsed (args s)) = 0%Z ->
  converter_calls (snd (main W entries s)) = converter_calls s
  /\ (forall ld s1, load W s = (Ok ld, s1) ->
      main W entries s = (Ok tt, snd (loop W ld entries s1))).
Proof.
  intros Hz.
  assert (Hrun : forall ld s1, load W s = (Ok ld, s1) ->
                 main W entries s = (Ok tt, snd (loop W ld entries s1))).
  { intros ld s1 Hl. rewrite (main_after_load W ld entries s s1 Hl), format_pass_eq.
    cbv zeta. now rewrite loop_parsed, (load_parsed s s1 ld Hl), Hz. }
  split; [now apply main_calls_no_format|exact Hrun].
Qed.

(** X5.  After the loop nothing is caught: when the formatted-output
    directory cannot be made, [main] raises that exception without calling
    the converter; when the converter raises, [main] raises its
    exception.  Either way the state is the one the loop left, BIO files
    and log included. *)
Theorem format_failure_is_fatal (entries : list string) (s s1 : State X)
    (ld : @Loaded X) (e : exn) :
  let p := parsed (args s) in
  let looped := snd (loop W ld entries s1) in
  load W s = (Ok ld, s1) ->
  do_format p <> 0%Z ->
  (mkdir W (output_formatted_dir p) = Raise e -> main W entries s = (Raise e, looped))
  /\ (mkdir W (output_formatted_dir p) = Ok tt ->
      format_converter W
        (converter_call_of p (output_formatted_dir p) (labeled_bio_tup_lst looped))
      = Raise e ->
      fst (main W entries s) = Raise e
      /\ files (snd (main W entries s)) = files looped
      /\ log (snd (main W entries s)) = log looped).
Proof.
  intros p looped Hl Hf.
  assert (Hp : parsed (args looped) = p)
    by (unfold looped; now rewrite loop_parsed, (load_parsed s s1 ld Hl)).
  rewrite (main_after_load W ld entries s s1 Hl). fold looped.
  rewrite format_pass_eq. cbv zeta. rewrite Hp.
  destruct (Z.eqb_spec (do_format p) 0) as [E|_]; [contradiction|].
  split.
  - intros Hm. now rewrite Hm.
  - intros Hm Hc. rewrite Hm, Hc. repeat split.
Qed.

End OutsideTheLoop.

Lemma load_failure_is_fatal_witness :
  fst (main Broken.no_labels ["doc1.txt"] (Demo.start true 1 None))
  = Raise (Exception "FileNotFoundError" "model/label2idx.json")
  /\ files (snd (main Broken.no_labels ["doc1.txt"] (Demo.start true 1 None))) = ∅.
Proof.
  destruct (load_failure_is_fatal Broken.no_labels ["doc1.txt"] (Demo.start true 1 None)
              (Exception "FileNotFoundError" "model/label2idx.json"))
    as (H1 & H2 & _); [reflexivity|].
  split; [exact H1|exact H2].
Defined.

Lemma no_format_no_converter_witness :
  converter_calls (snd (main Demo.W ["doc1.txt"; "bad.txt"] (Demo.start true 0 None))) = []
  /\ fst (main Demo.W ["doc1.txt"; "bad.txt"] (Demo.start true 0 None)) = Ok tt.
Proof.
  destruct (no_format_no_converter Demo.W ["doc1.txt"; "bad.txt"] (Demo.start true 0 None))
    as [H1 H2]; [reflexivity|].
  split; [exact H1|].
  rewrite (H2 Demo.loaded (snd (load Demo.W (Demo.start true 0 None)))); reflexivity.
Defined.

Lemma format_failure_is_fatal_witness :
  fst (main Broken.no_converter ["doc1.txt"] (Demo.start true 1 None))
  = Raise (Exception "ValueError" "unknown formatter")
  /\ files (snd (main Broken.no_converter ["doc1.txt"] (Demo.start true 1 None)))
     = files (snd (loop Broken.no_converter Demo.loaded ["doc1.txt"]
                     (snd (load Broken.no_converter (Demo.start true 1 None))))).
Proof.
  destruct (format_failure_is_fatal Broken.no_converter ["doc1.txt"]
              (Demo.start true 1 None)
              (snd (load Broken.no_converter (Demo.start true 1 None)))
              Demo.loaded (Exception "ValueError" "unknown formatter"))
    as [_ H]; [reflexivity|discriminate|].
  destruct H as (H1 & H2 & _); [reflexivity|vm_compute; reflexivity|].
  split; [exact H1|exact H2].
Defined.

(** ** What a turn of the loop can do (lines 58 to 79) *)

Section LoopSteps.

Context {X : Externals} (W : World X) (ld : @Loaded X).

(** Every turn of the loop is one of the five steps. *)
Lemma process_file_step (f : Path.t) (s : State X) :
  file_step W f s (snd (process_file W ld f s)).
Proof.
  rewrite process_file_eq, try_body_eq. cbv zeta.
  destruct (get_test_examples W _ _ _) as [tests|e]; [|apply step_failed].
  destruct (transformer_convert_data_to_features W _ _ _ _ _) as [feats|e];
    [|apply step_failed].
  destruct (predict W _ _ _) as [preds|e]; [|apply step_failed].
  destruct (use_bio (parsed (args s))) eqn:Hb.
  - destruct (mkdir W _) as [[]|e]; [|apply step_failed].
    destruct (bio_sentences W _ _) as [sents|e].
    + now apply step_written.
    + now apply step_not_written.
  - destruct (bio_sentences W _ _) as [sents|e]; [|apply step_failed].
    destruct (read_text W f) as [raw|e].
    + now apply step_accumulated.
    + now apply step_half_accumulated.
Qed.

Lemma files_loop_steps (l : list Path.t) (s : State X) :
  files_steps W l s (snd (for_each l (process_file W ld) s)).
Proof.
  revert s. induction l as [|f l IH]; intros s; [constructor|].
  rewrite files_loop_cons. econstructor; [apply process_file_step|apply IH].
Qed.

End LoopSteps.

(** ** Suffixes of the names the script builds *)

Section Suffixes.

Lemma substring_skip (s t : string) (m : nat) :
  String.substring (String.length s) m (s ++ t) = String.substring 0 m t.
Proof. induction s as [|c s IH]; [reflexivity|]. rewrite app_cons. exact IH. Qed.

Lemma substring_all (p : string) : String.substring 0 (String.length p) p = p.
Proof. induction p as [|c p IH]; [reflexivity|]. simpl. now rewrite IH. Qed.

Lemma endswith_app (s p : string) : Str.endswith p (s ++ p) = true.
Proof.
  unfold Str.endswith. rewrite length_append.
  replace (String.length s + String.length p - String.length p) with (String.length s) by lia.
  rewrite substring_skip, substring_all, String.eqb_refl.
  rewrite andb_true_r. apply Nat.leb_le. lia.
Qed.

Lemma os_path_join_suffix (a b : string) : exists pre, Path.os_path_join a b = pre ++ b.
Proof.
  unfold Path.os_path_join.
  destruct (Str.startswith "/" b); [now exists ""|].
  destruct (negb (Str.truthy a) || Str.endswith "/" a); [now exists a|].
  exists (a ++ "/"). now rewrite str_app_assoc.
Qed.

Lemma bio_path_suffix {X : Externals} (a : Namespace X) (f : Path.t) :
  Str.endswith ".bio.txt" (bio_path a f) = true.
Proof.
  unfold bio_path, ofn.
  destruct (os_path_join_suffix (output_dir (parsed a))
              (List.hd "" (Str.split Str.dot (Path.stem f)) ++ ".bio.txt")) as [pre ->].
  rewrite <- str_app_assoc. apply endswith_app.
Qed.

Lemma before_first_dot_app (a r : string) :
  Str.contains Str.dot a = false -> before_first_dot (a ++ String Str.dot r) = a.
Proof.
  induction a as [|c a IH]; intros H.
  - rewrite app_empty_l. reflexivity.
  - rewrite app_cons. simpl in *. apply orb_false_iff in H as [Hc Ha].
    now rewrite Hc, (IH Ha).
Qed.

(** X11.  The name of a BIO output ends in [.txt], so a directory scan
    for [*.txt] picks it up, and the output name of an output is that
    same name: taking the output name is idempotent. *)
Theorem output_names_are_input_names (d f : Path.t) :
  glob_txt [ofn f] = [ofn f]
  /\ ofn (Path.child d (ofn f)) = ofn f.
Proof.
  split.
  - unfold glob_txt. simpl.
    replace (Str.endswith ".txt" (ofn f)) with true; [reflexivity|].
    symmetry. rewrite ofn_before_first_dot.
    change (before_first_dot (Path.name f) ++ ".bio.txt")
      with (before_first_dot (Path.name f) ++ ".bio" ++ ".txt").
    rewrite <- str_app_assoc. apply endswith_app.
  - rewrite (ofn_before_first_dot (Path.child d (ofn f))), name_child.
    rewrite (ofn_before_first_dot f). f_equal.
    apply (before_first_dot_app _ "bio.txt"), before_first_dot_no_dot.
Qed.

End Suffixes.

(** ** Invariants of the loop (lines 57 to 79) *)

Section LoopInvariants.

Context {X : Externals} (W : World X) (ld : @Loaded X).

Lemma file_step_parsed (f : Path.t) (s s' : State X) :
  file_step W f s s' -> parsed (args s') = parsed (args s).
Proof. intros H. destruct H; reflexivity. Qed.

Lemma files_steps_parsed (l : list Path.t) (s s' : State X) :
  files_steps W l s s' -> parsed (args s') = parsed (args s).
Proof.
  induction 1 as [s1|f l' s1 s2 s3 Hstep Hrest IH]; [reflexivity|].
  rewrite IH. now apply (file_step_parsed f).
Qed.

Lemma files_steps_use_bio (l : list Path.t) (s s' : State X) :
  files_steps W l s s' -> use_bio (parsed (args s)) = true ->
  labeled_bio_tup_lst s' = labeled_bio_tup_lst s.
Proof.
  induction 1 as [s1|f l' s1 s2 s3 Hstep Hrest IH]; intros Hb; [reflexivity|].
  rewrite IH by (now rewrite (file_step_parsed f s1 s2 Hstep)).
  destruct Hstep; simpl; try reflexivity; congruence.
Qed.

Lemma files_steps_no_bio (l : list Path.t) (s s' : State X) :
  files_steps W l s s' -> use_bio (parsed (args s)) = false ->
  files s' = files s /\ dirs s' = dirs s /\ args s' = args s.
Proof.
  induction 1 as [s1|f l' s1 s2 s3 Hstep Hrest IH]; intros Hb; [now repeat split|].
  destruct IH as (Hf & Hd & Ha); [now rewrite (file_step_parsed f s1 s2 Hstep)|].
  rewrite Hf, Hd, Ha.
  destruct Hstep; simpl; try (now repeat split); congruence.
Qed.

(** X6.  The two modes do not mix.  With [use_bio] the loop never touches
    the accumulator, which is empty when the loop ends; without it the
    loop writes no BIO file, makes no directory and assigns nothing on
    [args]. *)
Theorem modes_do_not_mix (entries : list string) (s : State X) :
  (use_bio (parsed (args s)) = true ->
   labeled_bio_tup_lst (snd (loop W ld entries s)) = ∅)
  /\ (use_bio (parsed (args s)) = false ->
      files (snd (loop W ld entries s)) = files s
      /\ dirs (snd (loop W ld entries s)) = dirs s
      /\ args (snd (loop W ld entries s)) = args s).
Proof.
  rewrite loop_eq.
  pose proof (files_loop_steps W ld
                (List.map (Path.child (Path.parse (preprocessed_text_dir (parsed (args s)))))
                   (glob_txt entries))
                (with_labeled (fun _ => ∅) s)) as H.
  split; intros Hb.
  - now rewrite (files_steps_use_bio _ _ _ H Hb).
  - exact (files_steps_no_bio _ _ _ H Hb).
Qed.

Lemma setitem2_same name key v (d : gmap string (gmap string value)) :
  setitem2 name key v d !! name = Some (<[key := v]> (default ∅ (d !! name))).
Proof. unfold setitem2. apply lookup_insert_eq. Qed.

Lemma entry_ok_sents (m : gmap string value) (sents : list sentence) :
  m = ∅ \/ entry_ok m -> entry_ok (<["sents" := VSents sents]> m).
Proof.
  intros H. split; [|split].
  - exists sents. apply lookup_insert_eq.
  - rewrite lookup_insert_ne by discriminate.
    destruct H as [->|(_ & Hr & _)]; [left; apply lookup_empty|exact Hr].
  - intros k Hk1 Hk2. rewrite lookup_insert_ne by congruence.
    destruct H as [->|(_ & _ & Ho)]; [apply lookup_empty|now apply Ho].
Qed.

Lemma entry_ok_raw_text (m : gmap string value) (raw : string) :
  entry_ok m -> entry_ok (<["raw_text" := VText raw]> m).
Proof.
  intros ((sents & Hs) & _ & Ho). split; [|split].
  - exists sents. now rewrite lookup_insert_ne by discriminate.
  - right. exists raw. apply lookup_insert_eq.
  - intros k Hk1 Hk2. rewrite lookup_insert_ne by congruence. now apply Ho.
Qed.

Lemma default_entry (d : gmap string (gmap string value)) (n : string) :
  (forall m, d !! n = Some m -> entry_ok m) ->
  default ∅ (d !! n) = ∅ \/ entry_ok (default ∅ (d !! n)).
Proof. intros H. destruct (d !! n) as [m|]; [right; now apply H|now left]. Qed.

(** One turn keeps the entries well formed and adds at most the key of
    its file. *)
Lemma file_step_entries (f : Path.t) (s s' : State X) (names : list string) :
  file_step W f s s' ->
  (forall n m, labeled_bio_tup_lst s !! n = Some m -> List.In n names /\ entry_ok m) ->
  forall n m, labeled_bio_tup_lst s' !! n = Some m ->
              List.In n (names ++ [Path.name f]) /\ entry_ok m.
Proof.
  intros Hstep Hinv n m.
  assert (Hold : labeled_bio_tup_lst s !! n = Some m ->
                 List.In n (names ++ [Path.name f]) /\ entry_ok m).
  { intros H. destruct (Hinv n m H). split; [apply List.in_or_app; now left|assumption]. }
  assert (Hdef : default ∅ (labeled_bio_tup_lst s !! Path.name f) = ∅
                 \/ entry_ok (default ∅ (labeled_bio_tup_lst s !! Path.name f))).
  { apply default_entry. intros m' H'. now destruct (Hinv _ _ H'). }
  assert (Hin : List.In (Path.name f) (names ++ [Path.name f]))
    by (apply List.in_or_app; right; now left).
  destruct Hstep; simpl; try exact Hold.
  - (* accumulated *)
    destruct (decide (n = Path.name f)) as [->|Hne].
    + rewrite setitem2_same, setitem2_same. simpl. intros E. injection E as <-.
      split; [exact Hin|]. now apply entry_ok_raw_text, entry_ok_sents.
    + rewrite !setitem2_other by assumption. exact Hold.
  - (* half accumulated *)
    destruct (decide (n = Path.name f)) as [->|Hne].
    + rewrite setitem2_same. intros E. injection E as <-.
      split; [exact Hin|]. now apply entry_ok_sents.
    + rewrite setitem2_other by assumption. exact Hold.
Qed.

Lemma files_steps_entries (l : list Path.t) (s s' : State X) (names : list string) :
  files_steps W l s s' ->
  (forall n m, labeled_bio_tup_lst s !! n = Some m -> List.In n names /\ entry_ok m) ->
  forall n m, labeled_bio_tup_lst s' !! n = Some m ->
              List.In n (names ++ List.map Path.name l) /\ entry_ok m.
Proof.
  intros H. revert names. induction H as [s1|f l' s1 s2 s3 Hstep Hrest IH]; intros names Hinv.
  - simpl. now rewrite List.app_nil_r.
  - intros n m Hn. simpl.
    replace (names ++ Path.name f :: List.map Path.name l')%list
      with ((names ++ [Path.name f]) ++ List.map Path.name l')%list
      by (now rewrite <- List.app_assoc).
    apply (IH (names ++ [Path.name f])%list); [|exact Hn].
    now apply (file_step_entries f s1 s2).
Qed.

(** X8.  Every key the accumulator holds after the loop is the name of a
    [*.txt] entry of the directory, and every entry holds ['sents'] (a
    list of sentences), possibly ['raw_text'] (a text), and no other key:
    there is never a raw text without sentences. *)
Theorem accumulator_entries (entries : list string) (s : State X)
    (n : string) (m : gmap string value) :
  labeled_bio_tup_lst (snd (loop W ld entries s)) !! n = Some m ->
  List.In n (glob_txt entries) /\ entry_ok m.
Proof.
  rewrite loop_eq. intros H.
  pose proof (files_steps_entries _ _ _ []
                (files_loop_steps W ld
                   (List.map (Path.child (Path.parse (preprocessed_text_dir (parsed (args s)))))
                      (glob_txt entries))
                   (with_labeled (fun _ => ∅) s))) as Hinv.
  rewrite names_of_children in Hinv. apply (Hinv); [|exact H].
  intros n' m' H'. simpl in H'. now rewrite lookup_empty in H'.
Qed.

(** One turn changes the written files at the path of its file only. *)
Lemma file_step_files (f : Path.t) (s s' : State X) (k : string) :
  file_step W f s s' ->
  files s' !! k = files s !! k
  \/ (use_bio (parsed (args s)) = true /\ k = bio_path (args s) f).
Proof.
  intros Hstep. destruct Hstep; simpl; try (now left).
  destruct (decide (k = bio_path (args s) f)) as [->|Hne]; [now right|].
  left. now rewrite lookup_insert_ne by congruence.
Qed.

Lemma bio_path_parsed (a b : Namespace X) (f : Path.t) :
  parsed a = parsed b -> bio_path a f = bio_path b f.
Proof. intros H. unfold bio_path. now rewrite H. Qed.

Lemma files_steps_files (l : list Path.t) (s s' : State X) (k : string) :
  files_steps W l s s' ->
  files s' !! k = files s !! k
  \/ (use_bio (parsed (args s)) = true
      /\ exists f, List.In f l /\ k = bio_path (args s) f).
Proof.
  induction 1 as [s1|f l' s1 s2 s3 Hstep Hrest IH]; [now left|].
  pose proof (file_step_parsed _ _ _ Hstep) as Hp.
  destruct IH as [IH|(Hb & g & Hg & Hk)].
  - rewrite IH. destruct (file_step_files _ _ _ k Hstep) as [Hk|[Hb Hk]]; [now left|right].
    split; [exact Hb|]. exists f. split; [now left|exact Hk].
  - right. split; [now rewrite <- Hp|]. exists g. split; [now right|].
    rewrite Hk. now apply bio_path_parsed.
Qed.

(** X9.  The only paths the loop writes are output paths of [*.txt]
    entries: [output_dir] joined with what precedes the first dot of the
    entry's name and [.bio.txt].  Every path it writes ends in
    [.bio.txt], and it writes none without [use_bio]. *)
Theorem written_paths (entries : list string) (s : State X) (k : string) :
  files (snd (loop W ld entries s)) !! k = files s !! k
  \/ (use_bio (parsed (args s)) = true
      /\ Str.endswith ".bio.txt" k = true
      /\ exists n, List.In n (glob_txt entries)
                   /\ k = Path.os_path_join (output_dir (parsed (args s)))
                            (before_first_dot n ++ ".bio.txt")).
Proof.
  rewrite loop_eq.
  destruct (files_steps_files _ _ _ k
              (files_loop_steps W ld
                 (List.map (Path.child (Path.parse (preprocessed_text_dir (parsed (args s)))))
                    (glob_txt entries))
                 (with_labeled (fun _ => ∅) s))) as [H|(Hb & f & Hf & Hk)]; [now left|right].
  split; [exact Hb|]. split; [rewrite Hk; apply bio_path_suffix|].
  apply List.in_map_iff in Hf as (n & <- & Hn). exists n. split; [exact Hn|].
  rewrite Hk. unfold bio_path. now rewrite ofn_before_first_dot, name_child.
Qed.



Lemma failures_app (l1 l2 : list Path.t) (s : State X) :
  failures W ld (l1 ++ l2) s
  = (failures W ld l1 s
     ++ failures W ld l2 (snd (for_each l1 (process_file W ld) s)))%list.
Proof.
  revert s. induction l1 as [|f l1 IH]; intros s; [reflexivity|].
  rewrite <- List.app_comm_cons, files_loop_cons. simpl.
  destruct (fst (try_body W ld f s)); rewrite IH; reflexivity.
Qed.

Lemma failures_log (l : list Path.t) (s : State X) :
  log (snd (for_each l (process_file W ld) s))
  = (log s ++ List.flat_map (fun fe => failure_log W (fst fe) (snd fe))
                (failures W ld l s))%list.
Proof.
  revert s. induction l as [|f l IH]; intros s.
  - simpl. now rewrite List.app_nil_r.
  - rewrite files_loop_cons, IH. simpl.
    destruct (fst (try_body W ld f s)) as [[]|e] eqn:E.
    + now rewrite (process_file_log_ok W ld f s E).
    + rewrite (process_file_log_raise W ld f s e E). simpl.
      now rewrite <- List.app_assoc.
Qed.

Lemma failures_sublist (l : list Path.t) (s : State X) :
  sublist (List.map fst (failures W ld l s)) l.
Proof.
  revert s. induction l as [|f l IH]; intros s; [constructor|].
  simpl. destruct (fst (try_body W ld f s)); simpl.
  - apply sublist_cons, IH.
  - apply sublist_skip, IH.
Qed.

(** X10.  The calls the script makes on the logger during the loop are
    exactly, for each [*.txt] entry whose [try] body raises, taken in the
    order of the scan, the two ERROR calls of the handler, with the name
    of that file and the traceback of that exception: a file whose [try]
    body ends normally adds no call, a file whose [try] body raises adds
    its two, next to each other. *)
Theorem loop_log_shape (entries : list string) (s : State X) :
  let scanned :=
    List.map (Path.child (Path.parse (preprocessed_text_dir (parsed (args s)))))
      (glob_txt entries) in
  let start := with_labeled (fun _ => ∅) s in
  let failed := failures W ld scanned start in
  logger_calls (snd (loop W ld entries s))
  = (logger_calls s
     ++ List.flat_map (fun fe => failure_log W (fst fe) (snd fe)) failed)%list
  /\ List.length (logger_calls (snd (loop W ld entries s)))
     = List.length (logger_calls s) + 2 * List.length failed
  /\ sublist (List.map fst failed) scanned
  /\ (forall pre f post,
        scanned = (pre ++ f :: post)%list ->
        let reached := snd (for_each pre (process_file W ld) start) in
        failed
        = (failures W ld pre start
           ++ match fst (try_body W ld f reached) with
              | Raise e => [(f, e)]
              | Ok _ => []
              end
           ++ failures W ld post (snd (process_file W ld f reached)))%list).
Proof.
  intros scanned start failed. unfold logger_calls.
  assert (Hlog : log (snd (loop W ld entries s))
                 = (log s ++ List.flat_map (fun fe => failure_log W (fst fe) (snd fe))
                               failed)%list)
    by (rewrite loop_eq; exact (failures_log scanned start)).
  split; [exact Hlog|]. split; [|split].
  - rewrite Hlog, List.length_app. f_equal.
    clearbody failed. clear Hlog.
    induction failed as [|[f e] l IH]; [reflexivity|].
    simpl in *. rewrite IH. lia.
  - apply failures_sublist.
  - intros pre f post Hsc. unfold failed. rewrite Hsc, failures_app.
    f_equal. simpl. now destruct (fst (try_body W ld f _)).
Qed.

End LoopInvariants.

Section FormatCall.

Context {X : Externals} (W : World X).

(** X7.  When formatting is requested and its directory can be made,
    [main] calls the converter exactly once, after the loop, whatever the
    loop met.  The call names [raw_text_dir] as the text directory and the
    formatter [do_format]; with [use_bio] it reads the BIO files from
    [output_dir] and receives an empty accumulator, without it the BIO
    directory named is [raw_text_dir] and every entry of the accumulator
    it receives belongs to a [*.txt] entry of the directory and holds
    ['sents']. *)
Theorem converter_called_once (entries : list string) (s s1 : State X) (ld : @Loaded X) :
  let p := parsed (args s) in
  load W s = (Ok ld, s1) ->
  do_format p <> 0%Z ->
  mkdir W (output_formatted_dir p) = Ok tt ->
  exists c,
    converter_calls (snd (main W entries s)) = (converter_calls s ++ [c])%list
    /\ cc_text_dir c = raw_text_dir p
    /\ cc_formatter c = do_format p
    /\ cc_use_bio c = use_bio p
    /\ (use_bio p = true ->
        cc_input_bio_dir c = output_dir p /\ cc_labeled_bio_tup_lst c = ∅)
    /\ (use_bio p = false -> cc_input_bio_dir c = raw_text_dir p)
    /\ (forall n m, cc_labeled_bio_tup_lst c !! n = Some m ->
                    List.In n (glob_txt entries) /\ entry_ok m).
Proof.
  intros p Hl Hf Hm.
  pose proof (load_parsed W s s1 ld Hl) as Hp1.
  assert (Hp : parsed (args (snd (loop W ld entries s1))) = p)
    by (rewrite loop_parsed; exact Hp1).
  assert (Hc : converter_calls (snd (loop W ld entries s1)) = converter_calls s).
  { rewrite (loop_calls W ld entries s1).
    pose proof (load_calls W s) as H. now rewrite Hl in H. }
  pose proof (files_loop_steps W ld
                (List.map (Path.child (Path.parse (preprocessed_text_dir (parsed (args s1)))))
                   (glob_txt entries))
                (with_labeled (fun _ => ∅) s1)) as Hsteps.
  rewrite <- (loop_eq W ld) in Hsteps.
  rewrite (main_after_load W ld entries s s1 Hl), format_pass_eq. cbv zeta.
  rewrite Hp, Hm.
  destruct (Z.eqb_spec (do_format p) 0) as [E|_]; [contradiction|].
  eexists. split; [simpl; rewrite Hc; reflexivity|].
  simpl. split; [reflexivity|]. split; [reflexivity|]. split; [reflexivity|].
  split; [|split].
  - intros Hb. rewrite Hb. split; [reflexivity|].
    apply (files_steps_use_bio W _ _ _ Hsteps). simpl. now rewrite Hp1.
  - intros Hb. now rewrite Hb.
  - pose proof (files_steps_entries W _ _ _ [] Hsteps) as Hinv.
    rewrite names_of_children in Hinv. intros n m H. apply Hinv; [|exact H].
    intros n' m' H'. simpl in H'. now rewrite lookup_empty in H'.
Qed.

End FormatCall.

Lemma modes_do_not_mix_witness :
  labeled_bio_tup_lst
    (snd (loop Demo.W Demo.loaded ["doc1.txt"; "bad.txt"] (Demo.start true 0 None))) = ∅
  /\ files (snd (loop Demo.W Demo.loaded ["doc1.txt"; "unreadable.txt"]
                   (Demo.start false 0 None))) = ∅.
Proof.
  split.
  - apply (modes_do_not_mix Demo.W Demo.loaded ["doc1.txt"; "bad.txt"]
             (Demo.start true 0 None)).
    reflexivity.
  - apply (modes_do_not_mix Demo.W Demo.loaded ["doc1.txt"; "unreadable.txt"]
             (Demo.start false 0 None)).
    reflexivity.
Defined.

Lemma accumulator_entries_witness :
  let d := labeled_bio_tup_lst
             (snd (loop Demo.W Demo.loaded ["doc1.txt"; "unreadable.txt"; "notes.md"]
                     (Demo.start false 0 None))) in
  List.In "unreadable.txt" (glob_txt ["doc1.txt"; "unreadable.txt"; "notes.md"])
  /\ entry_ok (default ∅ (d !! "unreadable.txt")).
Proof.
  cbv zeta.
  apply (accumulator_entries Demo.W Demo.loaded ["doc1.txt"; "unreadable.txt"; "notes.md"]
           (Demo.start false 0 None) "unreadable.txt").
  vm_compute. reflexivity.
Defined.

Lemma converter_called_once_witness :
  List.map cc_labeled_bio_tup_lst
    (converter_calls (snd (main Demo.W ["doc1.txt"; "bad.txt"] (Demo.start true 1 None))))
  = [∅].
Proof.
  destruct (converter_called_once Demo.W ["doc1.txt"; "bad.txt"] (Demo.start true 1 None)
              (snd (load Demo.W (Demo.start true 1 None))) Demo.loaded)
    as (c & Hc & _ & _ & _ & Hb & _); [reflexivity|discriminate|reflexivity|].
  rewrite Hc. simpl. now rewrite (proj2 (Hb eq_refl)).
Defined.

(** The log of a run in which two files of four fail. *)
Example loop_log_demo :
  log (snd (loop Demo.W Demo.loaded ["bad.txt"; "doc1.txt"; "unreadable.txt"; "doc.txt"]
              (Demo.start false 0 None)))
  = [ (ERROR, "Encountered an error when processing predictions for file: bad.txt");
      (ERROR, "ValueError: malformed line");
      (ERROR, "Encountered an error when processing predictions for file: unreadable.txt");
      (ERROR, "UnicodeDecodeError: invalid start byte") ].
Proof. vm_compute. reflexivity. Qed.

(** ** The [__main__] block (lines 136 to 147) *)

Section Startup.

Context {X : Externals} (W : World X).



End Startup.

(** ** The command line (lines 92 to 133) *)

Section ArgumentTable.

Import Argparse.

Lemma nodup_map_inj {A B : Type} (f : A -> B) (l : list A) (x y : A) :
  List.NoDup (List.map f l) -> List.In x l -> List.In y l -> f x = f y -> x = y.
Proof.
  induction l as [|z l IH]; simpl; [tauto|].
  intros Hnd [->|Hx] [->|Hy] E; try reflexivity.
  - apply List.NoDup_cons_iff in Hnd as [Hn _]. exfalso. apply Hn.
    rewrite E. now apply List.in_map.
  - apply List.NoDup_cons_iff in Hnd as [Hn _]. exfalso. apply Hn.
    rewrite <- E. now apply List.in_map.
  - apply List.NoDup_cons_iff in Hnd as [_ Hnd]. now apply IH.
Qed.

Lemma flags_nodup : List.NoDup (List.map flag arguments).
Proof. apply NoDup_ListNoDup, (bool_decide_unpack _). vm_compute. reflexivity. Qed.

Lemma dests_nodup : List.NoDup (List.map dest arguments).
Proof. apply NoDup_ListNoDup, (bool_decide_unpack _). vm_compute. reflexivity. Qed.

Lemma table_facts (a : argument) :
  List.In a arguments ->
  Str.startswith "-" (flag a) = true
  /\ is_help (flag a) = false
  /\ defaults !! dest a = Some (default a)
  /\ (forall l, default a <> AList l).
Proof.
  revert a. apply List.Forall_forall.
  repeat (constructor; [split; [reflexivity|split; [reflexivity|split;
            [vm_compute; reflexivity|discriminate]]]|]).
  constructor.
Qed.

Lemma find_argument_some (t : string) (a : argument) :
  find_argument t = Some a -> List.In a arguments /\ flag a = t.
Proof.
  intros H. apply List.find_some in H as [Hin E]. split; [exact Hin|].
  now apply String.eqb_eq.
Qed.

Lemma find_argument_none (t : string) (a : argument) :
  find_argument t = None -> List.In a arguments -> flag a <> t.
Proof.
  intros H Hin E. pose proof (List.find_none _ _ H a Hin) as Hf. simpl in Hf.
  apply String.eqb_neq in Hf. contradiction.
Qed.

Lemma same_flag (a b : argument) :
  List.In a arguments -> List.In b arguments -> flag a = flag b -> a = b.
Proof. apply nodup_map_inj, flags_nodup. Qed.

Lemma same_dest (a b : argument) :
  List.In a arguments -> List.In b arguments -> dest a = dest b -> a = b.
Proof. apply nodup_map_inj, dests_nodup. Qed.

Lemma no_dash_not_flag (a : argument) (v : string) :
  List.In a arguments -> Str.startswith "-" v = false -> flag a <> v.
Proof.
  intros Hin Hv E. destruct (table_facts a Hin) as (Hd & _). congruence.
Qed.

Lemma follows_last_app (f v : string) (l ts : list string) :
  follows_last f v l -> ~ List.In f ts -> follows_last f v (l ++ ts).
Proof.
  intros (pre & post & -> & Hn) Hts. exists pre, (post ++ ts)%list. split.
  - now rewrite <- List.app_assoc.
  - intros H. apply List.in_app_or in H as [H|H]; contradiction.
Qed.

Lemma extend_lookup_other (d t k : string) (n : gmap string arg_value) (x : arg_value) :
  n !! k = Some x -> (forall l, x <> AList l) -> extend d t n !! k = Some x.
Proof.
  intros Hk Hx. unfold extend.
  destruct (n !! d) as [[| | | |l]|] eqn:Hd; try exact Hk.
  destruct (decide (d = k)) as [->|Hne].
  - rewrite Hk in Hd. injection Hd as ->. now destruct (Hx l).
  - now rewrite lookup_insert_ne.
Qed.

Lemma extend_lookup_list (d t k : string) (n : gmap string arg_value)
    (v : string) (l : list string) :
  n !! k = Some (AList (v :: l)) ->
  exists l', extend d t n !! k = Some (AList (v :: l'))
             /\ forall x, List.In x l' -> List.In x l \/ x = t.
Proof.
  intros Hk. unfold extend.
  destruct (decide (d = k)) as [->|Hne].
  - rewrite Hk. exists (l ++ [t])%list. split; [apply lookup_insert_eq|].
    intros x Hx. apply List.in_app_or in Hx as [Hx|[<-|[]]]; [now left|now right].
  - exists l. split; [|now left].
    destruct (n !! d) as [[| | | |l0]|]; try exact Hk. now rewrite lookup_insert_ne.
Qed.

Lemma convert_not_list (int : string -> option Z) (ty : option arg_type)
    (v : string) (x : arg_value) :
  convert int ty v = Some x -> forall l, x <> AList l.
Proof.
  intros H l ->. destruct ty as [[|]|]; simpl in H; try discriminate.
  destruct (int v); discriminate.
Qed.

End ArgumentTable.

Section Parsing.

Import Argparse.

Variable int : string -> option Z.

Lemma inv_initial : parser_inv int [] defaults [].
Proof.
  split; try (intros; contradiction); try tauto.
  intros a Hin _. now destruct (table_facts a Hin) as (_ & _ & H & _).
Qed.

(** An option and the values it takes. *)
Lemma inv_option (a : argument) (vs : list string) (x : arg_value)
    (consumed : list string) (n : gmap string arg_value) (seen : list string) :
  parser_inv int consumed n seen ->
  List.In a arguments ->
  List.Forall (fun v => Str.startswith "-" v = false) vs ->
  (forall ty, act a = Store ty -> exists v, vs = [v] /\ convert int ty v = Some x) ->
  (act a = StoreTrue -> x = ABool true) ->
  (act a = StoreMany -> exists v, vs = [v] /\ x = AList [v]) ->
  parser_inv int (consumed ++ flag a :: vs) (<[dest a := x]> n) (flag a :: seen).
Proof.
  intros [Hseen Hdef Hst Htr Hmany [Hh1 Hh2]] Ha Hvs Hx1 Hx2 Hx3.
  assert (Hnovs : forall b, List.In b arguments -> ~ List.In (flag b) vs).
  { intros b Hb Hin. rewrite List.Forall_forall in Hvs.
    exact (no_dash_not_flag b _ Hb (Hvs _ Hin) eq_refl). }
  assert (Hother : forall b, List.In b arguments -> flag b <> flag a ->
                             <[dest a := x]> n !! dest b = n !! dest b).
  { intros b Hb Hne. apply lookup_insert_ne. intros E. apply Hne.
    now rewrite (same_dest a b Ha Hb E). }
  split.
  - intros b Hb. rewrite List.in_app_iff. simpl. rewrite (Hseen b Hb). split.
    + intros [H|[H|H]]; [now right|now left|now destruct (Hnovs b Hb)].
    + intros [H|H]; [right; now left|now left].
  - intros b Hb Hn. rewrite Hother; [|exact Hb|intros E; apply Hn; now left].
    apply Hdef; [exact Hb|]. intros H. apply Hn. now right.
  - intros b ty Hb Hact Hin.
    destruct (string_dec (flag b) (flag a)) as [E|Hne].
    + rewrite (same_flag b a Hb Ha E) in *. destruct (Hx1 ty Hact) as (v & -> & Hc).
      exists v, x. split; [|split; [exact Hc|apply lookup_insert_eq]].
      exists consumed, []. split; [reflexivity|intros []].
    + destruct Hin as [E|Hin]; [now destruct Hne|].
      destruct (Hst b ty Hb Hact Hin) as (v & y & Hf & Hc & Hl).
      exists v, y. split; [|split; [exact Hc|now rewrite Hother]].
      apply follows_last_app; [exact Hf|].
      intros [H|H]; [now destruct Hne|now destruct (Hnovs b Hb)].
  - intros b Hb Hact Hin.
    destruct (string_dec (flag b) (flag a)) as [E|Hne].
    + rewrite (same_flag b a Hb Ha E) in *. rewrite (Hx2 Hact). apply lookup_insert_eq.
    + destruct Hin as [E|Hin]; [now destruct Hne|].
      rewrite Hother by assumption. now apply Htr.
  - intros b Hb Hact Hin.
    destruct (string_dec (flag b) (flag a)) as [E|Hne].
    + rewrite (same_flag b a Hb Ha E) in *. destruct (Hx3 Hact) as (v & -> & ->).
      exists v, []. split; [apply lookup_insert_eq|].
      intros y [<-|[]]. apply List.in_or_app. right. right. now left.
    + destruct Hin as [E|Hin]; [now destruct Hne|].
      destruct (Hmany b Hb Hact Hin) as (v & l & Hl & Hall).
      exists v, l. split; [now rewrite Hother|].
      intros y Hy. apply List.in_or_app. left. now apply Hall.
  - destruct (table_facts a Ha) as (_ & Hhelp & _).
    unfold is_help in Hhelp. apply orb_false_iff in Hhelp as [H1 H2].
    apply String.eqb_neq in H1, H2.
    rewrite List.Forall_forall in Hvs.
    split; intros H; apply List.in_app_or in H as [H|[H|H]];
      try contradiction; try (now destruct H1); try (now destruct H2);
      specialize (Hvs _ H); discriminate.
Qed.

(** A token that is no option: it is left over, or collected by the
    [nargs="+"] option that is open. *)
Lemma inv_value (t : string) (open : option string)
    (consumed : list string) (n : gmap string arg_value) (seen : list string) :
  parser_inv int consumed n seen ->
  is_help t = false -> find_argument t = None ->
  parser_inv int (consumed ++ [t])
    (match open with Some d => extend d t n | None => n end) seen.
Proof.
  intros [Hseen Hdef Hst Htr Hmany [Hh1 Hh2]] Hhelp Hfind.
  assert (Hnot : forall b, List.In b arguments -> ~ List.In (flag b) [t]).
  { intros b Hb [E|[]]. exact (find_argument_none t b Hfind Hb (eq_sym E)). }
  assert (Hkeep : forall k x, n !! k = Some x -> (forall l, x <> AList l) ->
                   match open with Some d => extend d t n | None => n end !! k = Some x).
  { intros k x Hk Hx. destruct open as [d|]; [now apply extend_lookup_other|exact Hk]. }
  split.
  - intros b Hb. rewrite List.in_app_iff, <- (Hseen b Hb). split; [|now left].
    intros [H|H]; [exact H|now destruct (Hnot b Hb)].
  - intros b Hb Hn. apply Hkeep; [now apply Hdef|].
    now destruct (table_facts b Hb) as (_ & _ & _ & H).
  - intros b ty Hb Hact Hin. destruct (Hst b ty Hb Hact Hin) as (v & y & Hf & Hc & Hl).
    exists v, y. split; [|split; [exact Hc|]].
    + apply follows_last_app; [exact Hf|now apply Hnot].
    + apply Hkeep; [exact Hl|now apply (convert_not_list int ty v)].
  - intros b Hb Hact Hin. apply Hkeep; [now apply Htr|discriminate].
  - intros b Hb Hact Hin. destruct (Hmany b Hb Hact Hin) as (v & l & Hl & Hall).
    destruct open as [d|].
    + destruct (extend_lookup_list d t (dest b) n v l Hl) as (l' & Hl' & Hsub).
      exists v, l'. split; [exact Hl'|].
      intros y [<-|Hy]; apply List.in_or_app.
      * left. apply Hall. now left.
      * destruct (Hsub y Hy) as [H| ->]; [left; apply Hall; now right|right; now left].
    + exists v, l. split; [exact Hl|].
      intros y Hy. apply List.in_or_app. left. now apply Hall.
  - unfold is_help in Hhelp. apply orb_false_iff in Hhelp as [H1 H2].
    apply String.eqb_neq in H1, H2.
    split; intros H; apply List.in_app_or in H as [H|[H|[]]]; try contradiction;
      congruence.
Qed.

Lemma finish_ok (n n' : gmap string arg_value) (seen extras : list string) :
  finish n seen extras = Namespace_ok n' ->
  n' = n /\ extras = []
  /\ forall a, List.In a arguments -> required a = true -> List.In (flag a) seen.
Proof.
  unfold finish.
  destruct (List.filter _ arguments) as [|m ms] eqn:Hf; [|discriminate].
  destruct extras; [|discriminate]. intros H. injection H as <-.
  split; [reflexivity|]. split; [reflexivity|].
  intros a Ha Hr.
  destruct (was_seen seen a) eqn:Hs.
  - unfold was_seen in Hs. apply List.existsb_exists in Hs as (x & Hx & E).
    apply String.eqb_eq in E. now rewrite E.
  - assert (Hin : List.In a (List.filter
                     (fun a => required a && negb (was_seen seen a)) arguments)).
    { apply List.filter_In. split; [exact Ha|]. now rewrite Hr, Hs. }
    rewrite Hf in Hin. destruct Hin.
Qed.

Lemma consume_inv (k : nat) :
  forall (ts consumed : list string) (n : gmap string arg_value)
         (seen extras : list string) (open : option string) (n' : gmap string arg_value),
    List.length ts <= k ->
    parser_inv int consumed n seen ->
    consume int ts n seen extras open = Namespace_ok n' ->
    exists seen',
      parser_inv int (consumed ++ ts) n' seen'
      /\ forall a, List.In a arguments -> required a = true -> List.In (flag a) seen'.
Proof.
  induction k as [|k IH]; intros ts consumed n seen extras open n' Hlen Hinv Hrun.
  - destruct ts; [|simpl in Hlen; lia]. simpl in Hrun.
    apply finish_ok in Hrun as (-> & _ & Hreq).
    exists seen. now rewrite List.app_nil_r.
  - destruct ts as [|t rest].
    { simpl in Hrun. apply finish_ok in Hrun as (-> & _ & Hreq).
      exists seen. now rewrite List.app_nil_r. }
    simpl in Hlen. simpl in Hrun.
    destruct (is_help t) eqn:Hhelp; [discriminate|].
    destruct (find_argument t) as [a|] eqn:Hfind.
    + apply find_argument_some in Hfind as [Ha Hflag]. subst t.
      destruct (act a) as [ty| |] eqn:Hact.
      * destruct rest as [|v rest']; [discriminate|].
        destruct (Str.startswith "-" v) eqn:Hv; [discriminate|].
        destruct (convert int ty v) as [x|] eqn:Hc; [|discriminate].
        apply (IH rest' (consumed ++ [flag a; v])%list) in Hrun;
          [|simpl in Hlen; lia|].
        { now rewrite <- List.app_assoc in Hrun. }
        apply inv_option; try assumption.
        -- now repeat constructor.
        -- intros ty' E. rewrite Hact in E. injection E as <-. now exists v.
        -- intros E. congruence.
        -- intros E. congruence.
      * apply (IH rest (consumed ++ [flag a])%list) in Hrun; [|lia|].
        { now rewrite <- List.app_assoc in Hrun. }
        apply inv_option; try assumption.
        -- constructor.
        -- intros ty' E. congruence.
        -- reflexivity.
        -- intros E. congruence.
      * destruct rest as [|v rest']; [discriminate|].
        destruct (Str.startswith "-" v) eqn:Hv; [discriminate|].
        apply (IH rest' (consumed ++ [flag a; v])%list) in Hrun;
          [|simpl in Hlen; lia|].
        { now rewrite <- List.app_assoc in Hrun. }
        apply inv_option; try assumption.
        -- now repeat constructor.
        -- intros ty' E. congruence.
        -- intros E. congruence.
        -- intros _. now exists v.
    + pose proof (inv_value t open consumed n seen Hinv Hhelp Hfind) as Hinv'.
      destruct open as [d|].
      * apply (IH rest (consumed ++ [t])%list) in Hrun; [|lia|exact Hinv'].
        now rewrite <- List.app_assoc in Hrun.
      * apply (IH rest (consumed ++ [t])%list) in Hrun; [|lia|exact Hinv'].
        now rewrite <- List.app_assoc in Hrun.
Qed.

(** What a successful parse leaves. *)
Lemma parse_args_inv (tokens : list string) (n : gmap string arg_value) :
  parse_args int tokens = Namespace_ok n ->
  exists seen,
    parser_inv int tokens n seen
    /\ forall a, List.In a arguments -> required a = true -> List.In (flag a) seen.
Proof.
  unfold parse_args. destruct (List.existsb unmodelled tokens); [discriminate|].
  intros H.
  exact (consume_inv (List.length tokens) tokens [] defaults [] [] None n
           (le_n _) inv_initial H).
Qed.

End Parsing.

Section QuietRuns.

Context {X : Externals} (W : World X).

Lemma main_files_no_bio (entries : list string) (s : State X) :
  use_bio (parsed (args s)) = false ->
  files (snd (main W entries s)) = files s
  /\ (do_format (parsed (args s)) = 0%Z -> dirs (snd (main W entries s)) = dirs s).
Proof.
  intros Hb. destruct (load W s) as [[ld|e] s1] eqn:Hl.
  - pose proof (load_parsed W s s1 ld Hl) as Hp.
    pose proof (files_loop_steps W ld
                  (List.map (Path.child (Path.parse (preprocessed_text_dir (parsed (args s1)))))
                     (glob_txt entries))
                  (with_labeled (fun _ => ∅) s1)) as Hsteps.
    rewrite <- (loop_eq W ld) in Hsteps.
    destruct (files_steps_no_bio W _ _ _ Hsteps) as (Hf & Hd & _);
      [simpl; now rewrite Hp|].
    simpl in Hf, Hd.
    rewrite (main_after_load W ld entries s s1 Hl). split.
    + rewrite format_pass_files, Hf.
      pose proof (load_files W s) as H. now rewrite Hl in H.
    + intros Hz. rewrite format_pass_eq. cbv zeta.
      rewrite loop_parsed, Hp, Hz. simpl. rewrite Hd.
      pose proof (load_dirs W s) as H. now rewrite Hl in H.
  - rewrite (main_load_raises W entries s e) by (now rewrite Hl). simpl.
    split; [apply (load_files W s)|intros _; apply (load_dirs W s)].
Qed.

Lemma dunder_main_state (p : Parsed) (entries : list string)
    (r : result unit) (s : State X) :
  dunder_main W p entries = (r, Some s) ->
  exists s0, parsed (args s0) = p /\ files s0 = ∅ /\ dirs s0 = ∅
             /\ converter_calls s0 = [] /\ s = snd (main W entries s0).
Proof.
  unfold dunder_main.
  destruct (make_logger W (log_file p) (log_lvl p)) as [lg|e]; [|discriminate].
  unfold bind, logger_info, modify. simpl.
  set (s0 := with_log INFO _ _).
  destruct (main W entries s0) as [r' s'] eqn:Hm. intros H. injection H as <- <-.
  exists s0. repeat split. now rewrite Hm.
Qed.

End QuietRuns.

Section CommandLineFacts.

Import Argparse.

Variable int : string -> option Z.

Section Parsed.

Variables (tokens : list string) (n : gmap string arg_value).
Hypothesis Hparse : parse_args int tokens = Namespace_ok n.

Lemma given_or_default (a : argument) :
  List.In a arguments ->
  (n !! dest a = Some (default a) /\ required a = false /\ ~ List.In (flag a) tokens)
  \/ (List.In (flag a) tokens
      /\ match act a with
         | Store ty =>
             exists v x, follows_last (flag a) v tokens /\ convert int ty v = Some x
                         /\ n !! dest a = Some x
         | StoreTrue => n !! dest a = Some (ABool true)
         | StoreMany =>
             exists v l, n !! dest a = Some (AList (v :: l))
                         /\ forall x, List.In x (v :: l) -> List.In x tokens
         end).
Proof.
  intros Ha. destruct (parse_args_inv int tokens n Hparse) as (seen & Hinv & Hreq).
  destruct (List.in_dec string_dec (flag a) seen) as [Hin|Hout].
  - right. split; [now apply (inv_seen _ _ _ _ Hinv a Ha)|].
    destruct (act a) as [ty| |] eqn:Hact.
    + exact (inv_store _ _ _ _ Hinv a ty Ha Hact Hin).
    + exact (inv_true _ _ _ _ Hinv a Ha Hact Hin).
    + exact (inv_many _ _ _ _ Hinv a Ha Hact Hin).
  - left. split; [exact (inv_default _ _ _ _ Hinv a Ha Hout)|]. split.
    + destruct (required a) eqn:Hr; [|reflexivity]. now destruct (Hout (Hreq a Ha Hr)).
    + intros H. apply Hout. now apply (inv_seen _ _ _ _ Hinv a Ha).
Qed.

Lemma get_str_ok (a : argument) (ty : option arg_type) :
  List.In a arguments -> act a = Store ty -> ty <> Some TInt ->
  (required a = true \/ exists s, default a = AStr s) ->
  exists s, get_str n (dest a) = Some s.
Proof.
  intros Ha Hact Hty Hd. unfold get_str.
  destruct (given_or_default a Ha) as [(Hl & Hr & _)|[_ H]].
  - rewrite Hl. destruct Hd as [Hd|[s ->]]; [congruence|now exists s].
  - rewrite Hact in H. destruct H as (v & x & _ & Hc & ->).
    destruct ty as [[|]|]; simpl in Hc; try (now destruct Hty);
      injection Hc as <-; now exists v.
Qed.

Lemma get_opt_str_ok (a : argument) (ty : option arg_type) :
  List.In a arguments -> act a = Store ty -> ty <> Some TInt -> default a = ANone ->
  exists o, get_opt_str n (dest a) = Some o.
Proof.
  intros Ha Hact Hty Hd. unfold get_opt_str.
  destruct (given_or_default a Ha) as [(Hl & _)|[_ H]].
  - rewrite Hl, Hd. now exists None.
  - rewrite Hact in H. destruct H as (v & x & _ & Hc & ->).
    destruct ty as [[|]|]; simpl in Hc; try (now destruct Hty);
      injection Hc as <-; now exists (Some v).
Qed.

Lemma get_int_ok (a : argument) :
  List.In a arguments -> act a = Store (Some TInt) -> (exists z, default a = AInt z) ->
  exists z, get_int n (dest a) = Some z.
Proof.
  intros Ha Hact [z Hd]. unfold get_int.
  destruct (given_or_default a Ha) as [(Hl & _)|[_ H]].
  - rewrite Hl, Hd. now exists z.
  - rewrite Hact in H. destruct H as (v & x & _ & Hc & ->). simpl in Hc.
    destruct (int v) as [z'|]; [|discriminate]. injection Hc as <-. now exists z'.
Qed.

Lemma get_bool_ok (a : argument) :
  List.In a arguments -> act a = StoreTrue -> (exists b, default a = ABool b) ->
  exists b, get_bool n (dest a) = Some b.
Proof.
  intros Ha Hact [b Hd]. unfold get_bool.
  destruct (given_or_default a Ha) as [(Hl & _)|[_ H]].
  - rewrite Hl, Hd. now exists b.
  - rewrite Hact in H. rewrite H. now exists true.
Qed.

Lemma get_opt_list_ok (a : argument) :
  List.In a arguments -> act a = StoreMany -> default a = ANone ->
  exists o, get_opt_list n (dest a) = Some o.
Proof.
  intros Ha Hact Hd. unfold get_opt_list.
  destruct (given_or_default a Ha) as [(Hl & _)|[_ H]].
  - rewrite Hl, Hd. now exists None.
  - rewrite Hact in H. destruct H as (v & l & -> & _). now exists (Some (v :: l)).
Qed.

End Parsed.

Ltac listed := simpl; repeat (try (left; reflexivity); right).

(** X13.  A namespace that [argparser] returns holds, under each of the
    seventeen attributes, a value of the kind [main] uses it as: a string
    for the five required options and for [log_lvl], an integer for the
    three [type=int] options, a Boolean for the five flags, a string or
    [None] for [output_dir_brat] and [log_file], a list or [None] for
    [gpu_nodes]. *)
Theorem namespace_fits_main (tokens : list string) (n : gmap string arg_value) :
  parse_args int tokens = Namespace_ok n -> exists p, to_parsed n = Some p.
Proof.
  intros H.
  assert (E1 : exists x, get_str n "model_type" = Some x)
    by (apply (get_str_ok tokens n H
                 (Argument "--model_type" (Store (Some TStr)) (AStr "bert") true) (Some TStr));
        [listed|reflexivity|discriminate|now left]).
  assert (E2 : exists x, get_str n "pretrained_model" = Some x)
    by (apply (get_str_ok tokens n H
                 (Argument "--pretrained_model" (Store (Some TStr)) ANone true) (Some TStr));
        [listed|reflexivity|discriminate|now left]).
  assert (E3 : exists x, get_str n "preprocessed_text_dir" = Some x)
    by (apply (get_str_ok tokens n H
                 (Argument "--preprocessed_text_dir" (Store (Some TStr)) ANone true) (Some TStr));
        [listed|reflexivity|discriminate|now left]).
  assert (E4 : exists x, get_str n "raw_text_dir" = Some x)
    by (apply (get_str_ok tokens n H
                 (Argument "--raw_text_dir" (Store (Some TStr)) ANone true) (Some TStr));
        [listed|reflexivity|discriminate|now left]).
  assert (E5 : exists x, get_bool n "data_has_offset_information" = Some x)
    by (apply (get_bool_ok tokens n H
                 (Argument "--data_has_offset_information" StoreTrue (ABool false) false));
        [listed|reflexivity|now exists false]).
  assert (E6 : exists x, get_str n "output_dir" = Some x)
    by (apply (get_str_ok tokens n H
                 (Argument "--output_dir" (Store (Some TStr)) ANone true) (Some TStr));
        [listed|reflexivity|discriminate|now left]).
  assert (E7 : exists x, get_opt_str n "output_dir_brat" = Some x)
    by (apply (get_opt_str_ok tokens n H
                 (Argument "--output_dir_brat" (Store (Some TStr)) ANone false) (Some TStr));
        [listed|reflexivity|discriminate|reflexivity]).
  assert (E8 : exists x, get_bool n "do_lower_case" = Some x)
    by (apply (get_bool_ok tokens n H
                 (Argument "--do_lower_case" StoreTrue (ABool false) false));
        [listed|reflexivity|now exists false]).
  assert (E9 : exists x, get_int n "eval_batch_size" = Some x)
    by (apply (get_int_ok tokens n H
                 (Argument "--eval_batch_size" (Store (Some TInt)) (AInt 8) false));
        [listed|reflexivity|now exists 8%Z]).
  assert (E10 : exists x, get_int n "max_seq_length" = Some x)
    by (apply (get_int_ok tokens n H
                 (Argument "--max_seq_length" (Store (Some TInt)) (AInt 128) false));
        [listed|reflexivity|now exists 128%Z]).
  assert (E11 : exists x, get_opt_str n "log_file" = Some x)
    by (apply (get_opt_str_ok tokens n H
                 (Argument "--log_file" (Store None) ANone false) None);
        [listed|reflexivity|discriminate|reflexivity]).
  assert (E12 : exists x, get_str n "log_lvl" = Some x)
    by (apply (get_str_ok tokens n H
                 (Argument "--log_lvl" (Store (Some TStr)) (AStr "i") false) (Some TStr));
        [listed|reflexivity|discriminate|right; now exists "i"]).
  assert (E13 : exists x, get_int n "do_format" = Some x)
    by (apply (get_int_ok tokens n H
                 (Argument "--do_format" (Store (Some TInt)) (AInt 0) false));
        [listed|reflexivity|now exists 0%Z]).
  assert (E14 : exists x, get_bool n "do_copy" = Some x)
    by (apply (get_bool_ok tokens n H
                 (Argument "--do_copy" StoreTrue (ABool false) false));
        [listed|reflexivity|now exists false]).
  assert (E15 : exists x, get_bool n "progress_bar" = Some x)
    by (apply (get_bool_ok tokens n H
                 (Argument "--progress_bar" StoreTrue (ABool false) false));
        [listed|reflexivity|now exists false]).
  assert (E16 : exists x, get_bool n "use_bio" = Some x)
    by (apply (get_bool_ok tokens n H
                 (Argument "--use_bio" StoreTrue (ABool false) false));
        [listed|reflexivity|now exists false]).
  assert (E17 : exists x, get_opt_list n "gpu_nodes" = Some x)
    by (apply (get_opt_list_ok tokens n H
                 (Argument "--gpu_nodes" StoreMany ANone false));
        [listed|reflexivity|reflexivity]).
  destruct E1 as [a1 E1]. destruct E2 as [a2 E2]. destruct E3 as [a3 E3]. destruct E4 as [a4 E4]. destruct E5 as [a5 E5]. destruct E6 as [a6 E6]. destruct E7 as [a7 E7]. destruct E8 as [a8 E8]. destruct E9 as [a9 E9]. destruct E10 as [a10 E10]. destruct E11 as [a11 E11]. destruct E12 as [a12 E12]. destruct E13 as [a13 E13]. destruct E14 as [a14 E14]. destruct E15 as [a15 E15]. destruct E16 as [a16 E16]. destruct E17 as [a17 E17].
  unfold to_parsed.
  rewrite E1, E2, E3, E4, E5, E6, E7, E8, E9, E10, E11, E12, E13, E14, E15, E16, E17.
  eexists. reflexivity.
Qed.

(** X14.  Every option on the command line takes effect.  A valued
    option holds the conversion of the token after its last occurrence,
    so that of two occurrences the later wins; a flag holds [True];
    [gpu_nodes] holds a list that is not empty and is made of tokens of
    the command line. *)
Theorem given_options_take_effect (tokens : list string) (n : gmap string arg_value)
    (a : argument) :
  parse_args int tokens = Namespace_ok n ->
  List.In a arguments ->
  List.In (flag a) tokens ->
  match act a with
  | Store ty =>
      exists v x, follows_last (flag a) v tokens /\ convert int ty v = Some x
                  /\ n !! dest a = Some x
  | StoreTrue => n !! dest a = Some (ABool true)
  | StoreMany =>
      exists v l, n !! dest a = Some (AList (v :: l))
                  /\ forall x, List.In x (v :: l) -> List.In x tokens
  end.
Proof.
  intros H Ha Hin.
  destruct (given_or_default tokens n H a Ha) as [(_ & _ & Hout)|[_ Hv]];
    [contradiction|exact Hv].
Qed.

(** X15.  An option that is not on the command line keeps the default
    its declaration gives.  The five options declared [required] are on
    the command line of every successful parse, so that the default
    ['bert'] declared for [--model_type] is never the value of
    [model_type] unless it was typed after [--model_type]. *)
Theorem absent_options_keep_defaults (tokens : list string) (n : gmap string arg_value) :
  parse_args int tokens = Namespace_ok n ->
  (forall a, List.In a arguments -> ~ List.In (flag a) tokens ->
             n !! dest a = Some (default a))
  /\ (forall a, List.In a arguments -> required a = true -> List.In (flag a) tokens)
  /\ exists v, follows_last "--model_type" v tokens /\ n !! "model_type" = Some (AStr v).
Proof.
  intros H.
  assert (Hreq : forall a, List.In a arguments -> required a = true ->
                           List.In (flag a) tokens).
  { intros a Ha Hr. destruct (given_or_default tokens n H a Ha) as [(_ & Hf & _)|[Hin _]];
      [congruence|exact Hin]. }
  split; [|split; [exact Hreq|]].
  - intros a Ha Hout.
    destruct (given_or_default tokens n H a Ha) as [(Hl & _)|[Hin _]];
      [exact Hl|contradiction].
  - pose (a := Argument "--model_type" (Store (Some TStr)) (AStr "bert") true).
    assert (Ha : List.In a arguments) by listed.
    destruct (given_or_default tokens n H a Ha) as [(_ & Hf & _)|[_ Hv]];
      [discriminate|].
    destruct Hv as (v & x & Hfl & Hc & Hl). injection Hc as <-.
    exists v. split; [exact Hfl|exact Hl].
Qed.

Lemma finish_not_help (n : gmap string arg_value) (seen extras : list string) :
  finish n seen extras <> Help.
Proof. unfold finish. destruct (List.filter _ _); [destruct extras|]; discriminate. Qed.

Lemma consume_help (k : nat) :
  forall (ts : list string) (n : gmap string arg_value) (seen extras : list string)
         (open : option string),
    List.length ts <= k ->
    consume int ts n seen extras open = Help ->
    List.In "-h" ts \/ List.In "--help" ts.
Proof.
  induction k as [|k IH]; intros ts n seen extras open Hlen Hrun.
  - destruct ts; [|simpl in Hlen; lia]. now destruct (finish_not_help _ _ _ Hrun).
  - destruct ts as [|t rest]; [now destruct (finish_not_help _ _ _ Hrun)|].
    simpl in Hlen, Hrun.
    destruct (is_help t) eqn:Hhelp.
    { unfold is_help in Hhelp. apply orb_true_iff in Hhelp as [E|E];
        apply String.eqb_eq in E; subst t; [left|right]; now left. }
    assert (Hrest : forall ts' n' seen' extras' open',
               List.length ts' <= k ->
               (exists pre, rest = (pre ++ ts')%list) ->
               consume int ts' n' seen' extras' open' = Help ->
               List.In "-h" (t :: rest) \/ List.In "--help" (t :: rest)).
    { intros ts' n' seen' extras' open' Hl [pre ->] Hr.
      destruct (IH ts' n' seen' extras' open' Hl Hr) as [Hi|Hi]; [left|right];
        right; apply List.in_or_app; now right. }
    destruct (find_argument t) as [a|].
    + destruct (act a).
      * destruct rest as [|v rest']; [discriminate|].
        destruct (Str.startswith "-" v); [discriminate|].
        destruct (convert int ty v); [|discriminate].
        apply Hrest in Hrun; [exact Hrun|simpl in Hlen; lia|now exists [v]].
      * apply Hrest in Hrun; [exact Hrun|lia|now exists []].
      * destruct rest as [|v rest']; [discriminate|].
        destruct (Str.startswith "-" v); [discriminate|].
        apply Hrest in Hrun; [exact Hrun|simpl in Hlen; lia|now exists [v]].
    + destruct open; (apply Hrest in Hrun; [exact Hrun|lia|now exists []]).
Qed.

Lemma to_parsed_fields (n : gmap string arg_value) (p : Parsed) :
  to_parsed n = Some p ->
  n !! "do_format" = Some (AInt (do_format p))
  /\ n !! "use_bio" = Some (ABool (use_bio p)).
Proof.
  unfold to_parsed. intros H.
  repeat match type of H with
         | context [mbind _ (?g n ?k)] =>
             let E := fresh "E" in
             destruct (g n k) eqn:E; simpl in H; [|discriminate]
         end.
  injection H as <-. simpl.
  repeat match goal with
         | E : get_int n "do_format" = Some _ |- _ =>
             unfold get_int in E; destruct (n !! "do_format") as [[]|]; try discriminate;
             injection E as ->
         | E : get_bool n "use_bio" = Some _ |- _ =>
             unfold get_bool in E; destruct (n !! "use_bio") as [[]|]; try discriminate;
             injection E as ->
         end.
  split; reflexivity.
Qed.

Section FromTheCommandLine.

Context {X : Externals} (W : World X).

Lemma command_line_ran (installed : Version.t) (argv entries : list string)
    (r : result unit) (s : State X) :
  command_line W int installed argv entries = Ran r (Some s) ->
  Version.ge installed required_version = true
  /\ exists n p, parse_args int argv = Namespace_ok n /\ to_parsed n = Some p
                 /\ dunder_main W p entries = (r, Some s).
Proof.
  unfold command_line, argparser.
  destruct (Version.ge installed required_version); [|discriminate].
  destruct (parse_args int argv) as [n| | |] eqn:Hp; try discriminate.
  destruct (to_parsed n) as [p|] eqn:Htp; [|discriminate].
  destruct (dunder_main W p entries) as [r' s'] eqn:Hd.
  intros H. injection H as -> ->. split; [reflexivity|]. now exists n, p.
Qed.

(** X16.  What the defaults do to a run that got as far as [main].
    Without [--do_format] on the command line the converter is never
    called; without [--use_bio] no BIO file is written; with neither, no
    directory is made either: the predictions are gathered in memory and
    the script itself leaves nothing but its log records. *)
Theorem default_run_leaves_nothing (installed : Version.t) (argv entries : list string)
    (r : result unit) (s : State X) :
  command_line W int installed argv entries = Ran r (Some s) ->
  (~ List.In "--do_format" argv -> converter_calls s = [])
  /\ (~ List.In "--use_bio" argv -> files s = ∅)
  /\ (~ List.In "--do_format" argv -> ~ List.In "--use_bio" argv -> dirs s = ∅).
Proof.
  intros H. apply command_line_ran in H as (_ & n & p & Hp & Htp & Hd).
  apply dunder_main_state in Hd as (s0 & Hs0 & Hf0 & Hd0 & Hc0 & ->).
  destruct (to_parsed_fields n p Htp) as (Hfmt & Hbio).
  assert (Hz : ~ List.In "--do_format" argv -> do_format (parsed (args s0)) = 0%Z).
  { intros Hout. rewrite Hs0.
    pose (a := Argument "--do_format" (Store (Some TInt)) (AInt 0) false).
    destruct (given_or_default argv n Hp a ltac:(listed)) as [(Hl & _)|[Hin _]];
      [|contradiction].
    change (dest a) with "do_format" in Hl. rewrite Hfmt in Hl. now injection Hl. }
  assert (Hb : ~ List.In "--use_bio" argv -> use_bio (parsed (args s0)) = false).
  { intros Hout. rewrite Hs0.
    pose (a := Argument "--use_bio" StoreTrue (ABool false) false).
    destruct (given_or_default argv n Hp a ltac:(listed)) as [(Hl & _)|[Hin _]];
      [|contradiction].
    change (dest a) with "use_bio" in Hl. rewrite Hbio in Hl. now injection Hl. }
  split; [|split].
  - intros Hout. now rewrite (main_calls_no_format W entries s0 (Hz Hout)).
  - intros Hout. now rewrite (proj1 (main_files_no_bio W entries s0 (Hb Hout))).
  - intros Ho1 Ho2.
    now rewrite (proj2 (main_files_no_bio W entries s0 (Hb Ho2)) (Hz Ho1)).
Qed.

(** X17.  On command lines of the modelled fragment (every token that
    starts with a dash is a declared option string, [-h] or [--help];
    abbreviations such as [--he] are outside it): the help text is
    printed only when [-h] or [--help] is among the tokens, and only with
    a supported version of [transformers], since the check of lines 26 to
    28 runs before the command line is read; and a command line with
    [-h] or [--help] in it never reaches [main]. *)
Theorem help_only_on_request (installed : Version.t) (argv entries : list string) :
  (command_line W int installed argv entries = Help_shown ->
   Version.ge installed required_version = true
   /\ List.existsb unmodelled argv = false
   /\ (List.In "-h" argv \/ List.In "--help" argv))
  /\ (forall r s, command_line W int installed argv entries = Ran r (Some s) ->
      List.existsb unmodelled argv = false
      /\ ~ List.In "-h" argv /\ ~ List.In "--help" argv).
Proof.
  split.
  - unfold command_line, argparser.
    destruct (Version.ge installed required_version); [|discriminate].
    destruct (parse_args int argv) as [n| | |] eqn:Hp; try discriminate.
    + destruct (to_parsed n); [destruct (dunder_main W _ entries)|]; discriminate.
    + intros _. split; [reflexivity|].
      unfold parse_args in Hp. destruct (List.existsb unmodelled argv); [discriminate|].
      split; [reflexivity|].
      exact (consume_help (List.length argv) argv defaults [] [] None (le_n _) Hp).
  - intros r s H. apply command_line_ran in H as (_ & n & p & Hp & _).
    destruct (parse_args_inv int argv n Hp) as (seen & Hinv & _).
    split; [|exact (inv_help _ _ _ _ Hinv)].
    unfold parse_args in Hp. now destruct (List.existsb unmodelled argv).
Qed.

End FromTheCommandLine.

End CommandLineFacts.

Lemma namespace_fits_main_witness :
  exists p,
    Argparse.to_parsed
      (Cli.namespace (Argparse.parse_args digits
                        (Cli.argv ["--use_bio"; "--gpu_nodes"; "0"; "1"; "--do_format"; "2"])))
    = Some p.
Proof.
  apply (namespace_fits_main digits
           (Cli.argv ["--use_bio"; "--gpu_nodes"; "0"; "1"; "--do_format"; "2"])).
  vm_compute. reflexivity.
Defined.

Lemma given_options_take_effect_witness :
  let tokens := Cli.argv ["--do_format"; "1"; "--use_bio"; "--do_format"; "2"] in
  exists v x,
    follows_last "--do_format" v tokens
    /\ Argparse.convert digits (Some Argparse.TInt) v = Some x
    /\ Cli.namespace (Argparse.parse_args digits tokens) !! "do_format" = Some x.
Proof.
  cbv zeta.
  apply (given_options_take_effect digits
           (Cli.argv ["--do_format"; "1"; "--use_bio"; "--do_format"; "2"])
           (Cli.namespace (Argparse.parse_args digits
              (Cli.argv ["--do_format"; "1"; "--use_bio"; "--do_format"; "2"])))
           (Argparse.Argument "--do_format" (Argparse.Store (Some Argparse.TInt))
              (Argparse.AInt 0) false)).
  - vm_compute. reflexivity.
  - simpl. repeat (try (left; reflexivity); right).
  - simpl. repeat (try (left; reflexivity); right).
Defined.

(** Of two [--do_format] the later wins. *)
Example do_format_given_twice :
  Cli.namespace (Argparse.parse_args digits
                   (Cli.argv ["--do_format"; "1"; "--use_bio"; "--do_format"; "2"]))
  !! "do_format" = Some (Argparse.AInt 2).
Proof. vm_compute. reflexivity. Qed.

Lemma absent_options_keep_defaults_witness :
  Cli.namespace (Argparse.parse_args digits (Cli.argv ["--use_bio"])) !! "log_lvl"
  = Some (Argparse.AStr "i")
  /\ List.In "--output_dir" (Cli.argv ["--use_bio"]).
Proof.
  destruct (absent_options_keep_defaults digits (Cli.argv ["--use_bio"])
              (Cli.namespace (Argparse.parse_args digits (Cli.argv ["--use_bio"]))))
    as (Hd & Hr & _); [vm_compute; reflexivity|].
  split.
  - apply (Hd (Argparse.Argument "--log_lvl" (Argparse.Store (Some Argparse.TStr))
                 (Argparse.AStr "i") false)).
    + simpl. repeat (try (left; reflexivity); right).
    + simpl. intros H. repeat (destruct H as [H|H]; [discriminate|]). exact H.
  - apply (Hr (Argparse.Argument "--output_dir" (Argparse.Store (Some Argparse.TStr))
                 Argparse.ANone true)).
    + simpl. repeat (try (left; reflexivity); right).
    + reflexivity.
Defined.

Lemma default_run_leaves_nothing_witness :
  exists r s,
    command_line Demo.W digits (Version.final [4; 30; 2]%N)
      (Cli.argv ["--data_has_offset_information"]) ["doc1.txt"; "bad.txt"]
    = Ran r (Some s)
    /\ converter_calls s = [] /\ files s = ∅ /\ dirs s = ∅.
Proof.
  assert (E : exists r s,
             command_line Demo.W digits (Version.final [4; 30; 2]%N)
               (Cli.argv ["--data_has_offset_information"]) ["doc1.txt"; "bad.txt"]
             = Ran r (Some s))
    by (vm_compute; eexists; eexists; reflexivity).
  destruct E as (r & s & E).
  assert (H1 : ~ List.In "--do_format" (Cli.argv ["--data_has_offset_information"]))
    by (simpl; intros H; repeat (destruct H as [H|H]; [discriminate|]); exact H).
  assert (H2 : ~ List.In "--use_bio" (Cli.argv ["--data_has_offset_information"]))
    by (simpl; intros H; repeat (destruct H as [H|H]; [discriminate|]); exact H).
  destruct (default_run_leaves_nothing digits Demo.W (Version.final [4; 30; 2]%N)
              (Cli.argv ["--data_has_offset_information"]) ["doc1.txt"; "bad.txt"] r s E)
    as (Hc & Hf & Hd).
  exists r, s. split; [exact E|]. split; [exact (Hc H1)|]. split; [exact (Hf H2)|].
  exact (Hd H1 H2).
Defined.

Lemma help_only_on_request_witness :
  Version.ge (Version.final [4; 30; 2]%N) required_version = true
  /\ List.existsb Argparse.unmodelled ["--model_type"; "bert"; "--help"] = false
  /\ (List.In "-h" ["--model_type"; "bert"; "--help"]
      \/ List.In "--help" ["--model_type"; "bert"; "--help"]).
Proof.
  apply (help_only_on_request digits Demo.W (Version.final [4; 30; 2]%N)
           ["--model_type"; "bert"; "--help"] ["doc1.txt"]).
  vm_compute. reflexivity.
Defined.

(** With a version of [transformers] below 3.0.0 not even the help text
    is printed; options that [main] would trip on are errors of usage
    before anything is loaded. *)
Example command_line_cases :
  command_line Demo.W digits (Version.final [2; 11; 0]%N) ["--help"] []
  = Ran (Raise (Exception "AssertionError"
                  "we now only support transformers version >=3.0.0, but your version is 2.11.0"))
        None
  /\ command_line Demo.W digits (Version.final [4; 30; 2]%N) (Cli.argv ["--do_format"; "brat"]) []
     = Usage (Argparse.Invalid_value "--do_format" "brat")
  /\ command_line Demo.W digits (Version.final [4; 30; 2]%N)
       ["--pretrained_model"; "model"; "--output_dir"; "out"] []
     = Usage (Argparse.Required_missing
                ["--model_type"; "--preprocessed_text_dir"; "--raw_text_dir"])
  /\ command_line Demo.W digits (Version.final [4; 30; 2]%N) (Cli.argv ["doc1.txt"]) []
     = Usage (Argparse.Unrecognized ["doc1.txt"])
  /\ command_line Demo.W digits (Version.final [4; 30; 2]%N) (Cli.argv ["--gpu_nodes"]) []
     = Usage (Argparse.Expected_at_least_one_argument "--gpu_nodes")
  /\ command_line Demo.W digits (Version.final [4; 30; 2]%N) (Cli.argv ["--model"; "x"]) []
     = Not_modelled
  /\ command_line Demo.W digits (Version.final [4; 30; 2]%N) ["--he"] [] = Not_modelled.
Proof. evaluate. Qed.
